(** * Weekly compilation pipeline (shared-infra/weekly-compilation.py)

    A shallow embedding of the incremental collection-and-compilation
    pipeline: checkpoint store, deduplication gate, collectors, exclusivity
    validator, compiler, bundle checksum, retention cleanup and [main].

    Conventions.
    - A Python [str] is a [string] whose characters are code points below
      256; a Python [bytes] is a [list byte]; [encode_utf8] is [str.encode].
    - A [pathlib.Path] is the list of its parts; an absolute path starts
      with the part ["/"].
    - Python dictionaries with heterogeneous values (file entries, source
      records, the manifest) are JSON values whose objects are association
      lists in insertion order.
    - Statements that can raise run in a state-and-exception monad over the
      record [State]; which I/O operations fail is read from the record
      [Faults], so every definition stays executable. *)

From Stdlib Require Import ZArith Ascii List Lia Bool.
From Stdlib.Strings Require Import Byte.
From stdpp Require Import base gmap strings list sorting pretty.

(* ===================================================================== *)
(** ** Bytes, text and SHA-256 *)
(* ===================================================================== *)

Module Sha256.
Local Open Scope Z_scope.

(** Words are 32-bit unsigned integers carried in [Z]. *)
Definition w32 (x : Z) : Z := Z.land x 0xFFFFFFFF.
Definition add32 (x y : Z) : Z := w32 (x + y).
Definition rotr (n x : Z) : Z :=
  Z.lor (Z.shiftr x n) (w32 (Z.shiftl x (32 - n))).
Definition not32 (x : Z) : Z := Z.lxor x 0xFFFFFFFF.

Definition Ch (x y z : Z) := Z.lxor (Z.land x y) (Z.land (not32 x) z).
Definition Maj (x y z : Z) :=
  Z.lxor (Z.lxor (Z.land x y) (Z.land x z)) (Z.land y z).
Definition Sigma0 x := Z.lxor (Z.lxor (rotr 2 x) (rotr 13 x)) (rotr 22 x).
Definition Sigma1 x := Z.lxor (Z.lxor (rotr 6 x) (rotr 11 x)) (rotr 25 x).
Definition sigma0 x := Z.lxor (Z.lxor (rotr 7 x) (rotr 18 x)) (Z.shiftr x 3).
Definition sigma1 x := Z.lxor (Z.lxor (rotr 17 x) (rotr 19 x)) (Z.shiftr x 10).

(** The first 64 primes. *)
Definition is_prime (n : Z) : bool :=
  (1 <? n) && forallb (λ d, (n <? d * d) || negb (n mod d =? 0)) (Z.of_nat <$> seq 2 17).
Definition primes : list Z := filter (λ n, is_prime n = true) (Z.of_nat <$> seq 2 310).

(** Integer cube root, one bit at a time from bit [bits - 1] down. *)
Fixpoint cube_root_bits (bits : nat) (n acc : Z) : Z :=
  match bits with
  | O => acc
  | S k =>
      let c := acc + 2 ^ Z.of_nat k in
      if c * c * c <=? n then cube_root_bits k n c else cube_root_bits k n acc
  end.

(** Round constants: the first 32 bits of the fractional parts of the
    cube roots of the first 64 primes. *)
Definition K : list Z :=
  Eval vm_compute in (λ p, w32 (cube_root_bits 40 (p * 2 ^ 96) 0)) <$> primes.

(** Initial hash value: the same of the square roots of the first 8. *)
Definition H0 : list Z :=
  Eval vm_compute in (λ p, w32 (Z.sqrt (p * 2 ^ 64))) <$> take 8 primes.

Definition byteZ (b : byte) : Z := Z.of_N (Byte.to_N b).

(** Big-endian bytes of [x], [n] of them. *)
Fixpoint be_bytes (n : nat) (x : Z) : list Z :=
  match n with
  | O => []
  | S k => Z.land (Z.shiftr x (8 * Z.of_nat k)) 0xFF :: be_bytes k x
  end.

Definition padding (len : nat) : list Z :=
  let r := ((len + 1) mod 64)%nat in
  let zeros := (if (r <=? 56)%nat then 56 - r else 120 - r)%nat in
  0x80 :: repeat 0 zeros ++ be_bytes 8 (8 * Z.of_nat len).

Fixpoint words (fuel : nat) (bs : list Z) : list Z :=
  match fuel, bs with
  | S f, b0 :: b1 :: b2 :: b3 :: rest =>
      Z.lor (Z.shiftl b0 24) (Z.lor (Z.shiftl b1 16) (Z.lor (Z.shiftl b2 8) b3))
      :: words f rest
  | _, _ => []
  end.

Definition nthZ (l : list Z) (i : nat) : Z := nth i l 0.

(** Message schedule: [n] further words appended to [w]. *)
Fixpoint schedule (n : nat) (w : list Z) : list Z :=
  match n with
  | O => w
  | S k =>
      let t := length w in
      let x := add32 (add32 (sigma1 (nthZ w (t - 2))) (nthZ w (t - 7)))
                     (add32 (sigma0 (nthZ w (t - 15))) (nthZ w (t - 16))) in
      schedule k (w ++ [x])
  end.

Definition round (s : list Z) (kw : Z * Z) : list Z :=
  match s with
  | [a; b; c; d; e; f; g; h] =>
      let t1 := add32 (add32 (add32 h (Sigma1 e)) (add32 (Ch e f g) (fst kw))) (snd kw) in
      let t2 := add32 (Sigma0 a) (Maj a b c) in
      [add32 t1 t2; a; b; c; add32 d t1; e; f; g]
  | _ => s
  end.

Definition compress (h : list Z) (block : list Z) : list Z :=
  let w := schedule 48 block in
  let s := fold_left round (combine K w) h in
  map (fun p => add32 (fst p) (snd p)) (combine h s).

Fixpoint blocks (fuel : nat) (ws : list Z) : list (list Z) :=
  match fuel, ws with
  | _, [] => []
  | O, _ => []
  | S f, _ => firstn 16 ws :: blocks f (skipn 16 ws)
  end.

Definition digest_words (msg : list byte) : list Z :=
  let bs := map byteZ msg ++ padding (length msg) in
  let ws := words (length bs) bs in
  fold_left compress (blocks (length ws) ws) H0.

Definition hex_digit (n : Z) : ascii :=
  if n <? 10 then ascii_of_N (Z.to_N (48 + n)) else ascii_of_N (Z.to_N (87 + n)).

Fixpoint hex_of (n : nat) (x : Z) : string :=
  match n with
  | O => EmptyString
  | S k => String (hex_digit (Z.land (Z.shiftr x (4 * Z.of_nat k)) 0xF)) (hex_of k x)
  end.

(** [hashlib.sha256(msg).hexdigest()] *)
Definition hexdigest (msg : list byte) : string :=
  String.concat EmptyString (map (hex_of 8) (digest_words msg)).

End Sha256.

(** [str.encode()]: UTF-8 of a text whose code points are below 256. *)
Definition encode_char (c : ascii) : list byte :=
  let n := N_of_ascii c in
  if (n <? 128)%N then [byte_of_ascii c]
  else
    match Byte.of_N (192 + N.shiftr n 6), Byte.of_N (128 + N.land n 63) with
    | Some hi, Some lo => [hi; lo]
    | _, _ => []
    end.

Fixpoint encode_utf8 (s : string) : list byte :=
  match s with
  | EmptyString => []
  | String c r => encode_char c ++ encode_utf8 r
  end.



(** A [hashlib] object: the bytes fed so far; [hexdigest] hashes them all. *)
Module Hashlib.
Definition t := list byte.
Definition sha256 : t := [].
Definition update (h : t) (chunk : list byte) : t := h ++ chunk.
Definition hexdigest (h : t) : string := Sha256.hexdigest h.
End Hashlib.

(** [iter(lambda: f.read(n), b)] with [b] the empty bytes: the successive chunks of at most [n]
    bytes of an open file, up to the first empty read. *)
Fixpoint read_chunks_fuel (fuel n : nat) (content : list byte) : list (list byte) :=
  match fuel with
  | O => []
  | S k =>
      match take n content with
      | [] => []
      | chunk => chunk :: read_chunks_fuel k n (drop n content)
      end
  end.

Definition read_chunks (n : nat) (content : list byte) : list (list byte) :=
  read_chunks_fuel (length content) n content.

(** Feeding a file chunk by chunk to a hash object. *)
Definition hash_file_into (h : Hashlib.t) (n : nat) (content : list byte) : Hashlib.t :=
  fold_left Hashlib.update (read_chunks n content) h.

(* --------------------------------------------------------------------- *)
(** *** Text helpers *)

(** [str.lower()] on code points below 256. *)
Definition lower_char (c : ascii) : ascii :=
  let n := N_of_ascii c in
  if ((65 <=? n) && (n <=? 90))%N then ascii_of_N (n + 32)
  else if ((192 <=? n) && (n <=? 222) && negb (n =? 215))%N then ascii_of_N (n + 32)
  else c.

Fixpoint lower (s : string) : string :=
  match s with
  | EmptyString => EmptyString
  | String c r => String (lower_char c) (lower r)
  end.

Fixpoint starts_with (p s : string) : bool :=
  match p, s with
  | EmptyString, _ => true
  | String a p', String b s' => if decide (a = b) then starts_with p' s' else false
  | String _ _, EmptyString => false
  end.

(** [needle in hay] for strings. *)
Fixpoint contains (needle hay : string) : bool :=
  starts_with needle hay
  || match hay with
     | EmptyString => false
     | String _ r => contains needle r
     end.

(** [s[:n]] *)
Fixpoint str_take (n : nat) (s : string) : string :=
  match n, s with
  | S k, String c r => String c (str_take k r)
  | _, _ => EmptyString
  end.

(** [sep.join(l)] *)
Fixpoint join (sep : string) (l : list string) : string :=
  match l with
  | [] => EmptyString
  | [x] => x
  | x :: r => x +:+ sep +:+ join sep r
  end.

(* --------------------------------------------------------------------- *)
(** *** JSON values and [json.dumps] *)

#[local] Set Warnings "-register-all,-abstract-large-number".

Inductive json : Type :=
  | JNull
  | JBool (b : bool)
  | JInt (n : Z)
  | JFloat (repr : string)          (* a float, carried as its [repr] *)
  | JStr (s : string)
  | JList (l : list json)
  | JDict (d : list (string * json)).

Abbreviation pydict := (list (string * json)).

(** [k in d], [d.get(k)] and [d[k] = v] on insertion-ordered dictionaries. *)
Fixpoint dict_get (k : string) (d : pydict) : option json :=
  match d with
  | [] => None
  | (k', v) :: r => if decide (k = k') then Some v else dict_get k r
  end.

Definition dict_has (k : string) (d : pydict) : bool :=
  match dict_get k d with Some _ => true | None => false end.

Fixpoint dict_set (k : string) (v : json) (d : pydict) : pydict :=
  match d with
  | [] => [(k, v)]
  | (k', v') :: r => if decide (k = k') then (k, v) :: r else (k', v') :: dict_set k v r
  end.

Module Json.

Definition hex4 (n : N) : string := Sha256.hex_of 4 (Z.of_N n).
Definition dquote : string := String (ascii_of_N 34) EmptyString.
Definition newline : string := String (ascii_of_N 10) EmptyString.

(** One character of a string literal.  With [ensure_ascii], every
    character outside [' '..'~'] is written as a [\uXXXX] escape;
    without it only the control characters are. *)
Definition escape_char (ensure_ascii : bool) (c : ascii) : string :=
  let n := N_of_ascii c in
  if (n =? 34)%N then "\" +:+ dquote
  else if (n =? 92)%N then "\\"
  else if (n =? 10)%N then "\n"
  else if (n =? 13)%N then "\r"
  else if (n =? 9)%N then "\t"
  else if (n =? 8)%N then "\b"
  else if (n =? 12)%N then "\f"
  else if (n <? 32)%N then "\u" +:+ hex4 n
  else if (ensure_ascii && (126 <? n)%N) then "\u" +:+ hex4 n
  else String c EmptyString.

Fixpoint escape (ensure_ascii : bool) (s : string) : string :=
  match s with
  | EmptyString => EmptyString
  | String c r => escape_char ensure_ascii c +:+ escape ensure_ascii r
  end.

Definition quote (ensure_ascii : bool) (s : string) : string :=
  dquote +:+ escape ensure_ascii s +:+ dquote.


Fixpoint spaces (n : nat) : string :=
  match n with
  | O => EmptyString
  | S k => String (ascii_of_N 32) (spaces k)
  end.

(** The encoder of [json.dumps(v, indent=indent, ensure_ascii=...)].
    Without [indent] the separators are [", "] and [": "]; with
    [indent = Some k] every item starts a new line indented by [k] spaces
    per nesting level and the item separator is [","]. *)
Section Encode.
Variable indent : option nat.
Variable ensure_ascii : bool.

Definition open_items (level : nat) : string :=
  match indent with
  | None => EmptyString
  | Some k => newline +:+ spaces (k * S level)
  end.
Definition item_sep (level : nat) : string :=
  match indent with
  | None => ", "
  | Some k => "," +:+ newline +:+ spaces (k * S level)
  end.
Definition close_items (level : nat) : string :=
  match indent with
  | None => EmptyString
  | Some k => newline +:+ spaces (k * level)
  end.

Fixpoint encode (level : nat) (v : json) : string :=
  match v with
  | JNull => "null"
  | JBool true => "true"
  | JBool false => "false"
  | JInt n => pretty n
  | JFloat r => r
  | JStr s => quote ensure_ascii s
  | JList [] => "[]"
  | JList l =>
      "[" +:+ open_items level
      +:+ join (item_sep level) (map (encode (S level)) l)
      +:+ close_items level +:+ "]"
  | JDict [] => "{}"
  | JDict d =>
      "{" +:+ open_items level
      +:+ join (item_sep level)
            (map (fun kv => match kv with
                            | (k, x) => quote ensure_ascii k +:+ ": " +:+ encode (S level) x
                            end) d)
      +:+ close_items level +:+ "}"
  end.
End Encode.

(** [json.dumps(v)] *)
Definition dumps (v : json) : string := encode None true 0 v.
(** [json.dumps(v, indent=2)] *)
Definition dumps_indent2 (v : json) : string := encode (Some 2) true 0 v.
(** [json.dumps(v, indent=2, ensure_ascii=False)] *)
Definition dumps_indent2_raw (v : json) : string := encode (Some 2) false 0 v.

End Json.


(* ===================================================================== *)
(** ** Paths *)
(* ===================================================================== *)

Abbreviation Path := (list string).

Definition is_absolute (p : Path) : bool :=
  match p with
  | root :: _ => bool_decide (root = "/")
  | [] => false
  end.

(** [str(p)] *)
Definition path_str (p : Path) : string :=
  match p with
  | [] => "."
  | root :: r => if bool_decide (root = "/") then "/" +:+ join "/" r else join "/" p
  end.

(** [a / b] *)
Definition path_div (a b : Path) : Path := if is_absolute b then b else a ++ b.
Infix "//" := path_div (at level 40, left associativity).

(** [p.name] *)
Definition path_name (p : Path) : string :=
  match last p with
  | Some n => if bool_decide (n = "/") then EmptyString else n
  | None => EmptyString
  end.

(** [s.split("/")] *)
Fixpoint split_slash (cur : string) (s : string) : list string :=
  match s with
  | EmptyString => [String.rev cur]
  | String c r =>
      if bool_decide (c = "/"%char) then String.rev cur :: split_slash EmptyString r
      else split_slash (String c cur) r
  end.

(** [Path(s)]: empty and ["."] components are dropped, [".."] is kept. *)
Definition path_of_str (s : string) : Path :=
  (if starts_with "/" s then ["/"] else [])
  ++ filter (fun c => c ≠ EmptyString ∧ c ≠ ".") (split_slash EmptyString s).

(** [p.relative_to(base)]; [None] stands for the [ValueError]. *)
Fixpoint relative_to (p base : Path) : option Path :=
  match base, p with
  | [], _ => Some p
  | b :: base', x :: p' => if bool_decide (b = x) then relative_to p' base' else None
  | _ :: _, [] => None
  end.

(** [p] lies strictly below the directory [dir]. *)
Definition is_under (dir p : Path) : bool :=
  match relative_to p dir with
  | Some (_ :: _) => true
  | _ => false
  end.

(** Position of the last ["."] of a name, counted from the end. *)
Fixpoint dot_from_end (rev_name : string) (i : nat) : option nat :=
  match rev_name with
  | EmptyString => None
  | String c r => if bool_decide (c = "."%char) then Some i else dot_from_end r (S i)
  end.

(** [name] without its last suffix ([PurePath.stem]): a leading or a
    trailing dot does not start a suffix. *)
Definition stem (name : string) : string :=
  let n := String.length name in
  match dot_from_end (String.rev name) 0 with
  | Some k => if bool_decide (0 < k ∧ S k < n) then str_take (n - S k) name else name
  | None => name
  end.

(** [p.with_suffix(suffix)]; [None] stands for the [ValueError] raised on
    a path without a name. *)
Definition with_suffix (p : Path) (suffix : string) : option Path :=
  match path_name p with
  | EmptyString => None
  | name => Some (removelast p ++ [stem name +:+ suffix])
  end.

(** Order of [Path] objects: the lists of parts, compared part by part. *)
Fixpoint parts_leb (a b : Path) : bool :=
  match a, b with
  | [], _ => true
  | _ :: _, [] => false
  | x :: a', y :: b' => if bool_decide (x = y) then parts_leb a' b' else String.leb x y
  end.

Definition path_le (a b : Path) : Prop := parts_leb a b = true.

#[global] Instance path_le_dec a b : Decision (path_le a b).
Proof. unfold path_le. apply _. Defined.

(** [sorted(paths)] *)
Definition sorted_paths (l : list Path) : list Path := merge_sort path_le l.


(* ===================================================================== *)
(** ** The machine: disk, database, compiler object, outputs *)
(* ===================================================================== *)

(** Exceptions.  [main] tells [PermissionError] from everything else. *)
Inductive exn : Type :=
  | PermissionError (msg : string)
  | FileNotFoundError (msg : string)
  | OSError (msg : string)
  | KeyError (msg : string)
  | AttributeError (msg : string)
  | TypeError (msg : string)
  | ValueError (msg : string)
  | DatabaseError (msg : string).

(** [str(e)] *)
Definition exn_msg (e : exn) : string :=
  match e with
  | PermissionError m | FileNotFoundError m | OSError m | KeyError m | AttributeError m
  | TypeError m | ValueError m | DatabaseError m => m
  end.

Definition is_permission_error (e : exn) : bool :=
  match e with PermissionError _ => true | _ => false end.

(** A regular file: its bytes, its modification time, and what
    [json.load] returns for it ([None]: the content is not a JSON
    document). *)
Record File : Type := mkFile {
  f_content : list byte;
  f_mtime : string;
  f_json : option json
}.

(** A row of the table [compilations]; the key [week_id] is the map key. *)
Record Row : Type := mkRow {
  row_compilation_date : string;
  row_files_processed : Z;
  row_total_size_bytes : Z;
  row_checksum : string;
  row_metadata : string
}.

(** A row of the table [files_tracked]. *)
Record Tracked : Type := mkTracked {
  t_week_id : string;
  t_file_path : string;
  t_file_hash : string;
  t_size_bytes : Z;
  t_last_modified : string
}.

Inductive level : Type := DEBUG | INFO | WARNING | ERROR.

Inductive sql_op : Type :=
  | SqlCreateTables
  | SqlUpsert (week_id : string)
  | SqlSelectOld
  | SqlDelete (week_id : string).

(** The operations on the disk and the database that a run has completed,
    oldest first, with the arguments of the call.  The trace is not part
    of the program: it records what the program did. *)
Inductive io_event : Type :=
  | EvWrite (p : Path) (text : string) (doc : option json)
  | EvReplace (src dst : Path)
  | EvCopy (src dst : Path)
  | EvMkdir (p : Path)
  | EvRmtree (p : Path)
  | EvChecksum (checksum : string)
  | EvSql (op : sql_op).

Record State : Type := mkState {
  (* the disk *)
  files : gmap Path File;           (* regular files, by absolute path *)
  dirs : gset Path;                 (* directories, by absolute path *)
  (* compilations.db *)
  compilations : gmap string Row;
  files_tracked : list Tracked;
  (* the WeeklyCompiler object and its SecurityManager *)
  checkpoint : json;                (* self.checkpoint *)
  new_checkpoint : pydict;          (* self.new_checkpoint *)
  audit_log : list json;            (* self.security_manager.audit_log *)
  (* what the process emits *)
  log : list (level * string);
  stdout : list string;
  (* what the process did *)
  trace : list io_event
}.

Definition set_files (f : gmap Path File → gmap Path File) (st : State) : State :=
  mkState (f (files st)) (dirs st) (compilations st) (files_tracked st)
          (checkpoint st) (new_checkpoint st) (audit_log st) (log st) (stdout st) (trace st).
Definition set_dirs (f : gset Path → gset Path) (st : State) : State :=
  mkState (files st) (f (dirs st)) (compilations st) (files_tracked st)
          (checkpoint st) (new_checkpoint st) (audit_log st) (log st) (stdout st) (trace st).
Definition set_compilations (f : gmap string Row → gmap string Row) (st : State) : State :=
  mkState (files st) (dirs st) (f (compilations st)) (files_tracked st)
          (checkpoint st) (new_checkpoint st) (audit_log st) (log st) (stdout st) (trace st).
Definition set_files_tracked (f : list Tracked → list Tracked) (st : State) : State :=
  mkState (files st) (dirs st) (compilations st) (f (files_tracked st))
          (checkpoint st) (new_checkpoint st) (audit_log st) (log st) (stdout st) (trace st).
Definition set_checkpoint (c : json) (st : State) : State :=
  mkState (files st) (dirs st) (compilations st) (files_tracked st)
          c (new_checkpoint st) (audit_log st) (log st) (stdout st) (trace st).
Definition set_new_checkpoint (f : pydict → pydict) (st : State) : State :=
  mkState (files st) (dirs st) (compilations st) (files_tracked st)
          (checkpoint st) (f (new_checkpoint st)) (audit_log st) (log st) (stdout st) (trace st).
Definition set_audit_log (f : list json → list json) (st : State) : State :=
  mkState (files st) (dirs st) (compilations st) (files_tracked st)
          (checkpoint st) (new_checkpoint st) (f (audit_log st)) (log st) (stdout st) (trace st).
Definition set_log (f : list (level * string) → list (level * string)) (st : State) : State :=
  mkState (files st) (dirs st) (compilations st) (files_tracked st)
          (checkpoint st) (new_checkpoint st) (audit_log st) (f (log st)) (stdout st) (trace st).
Definition set_stdout (f : list string → list string) (st : State) : State :=
  mkState (files st) (dirs st) (compilations st) (files_tracked st)
          (checkpoint st) (new_checkpoint st) (audit_log st) (log st) (f (stdout st)) (trace st).
Definition set_trace (f : list io_event → list io_event) (st : State) : State :=
  mkState (files st) (dirs st) (compilations st) (files_tracked st)
          (checkpoint st) (new_checkpoint st) (audit_log st) (log st) (stdout st) (f (trace st)).

(** *** The monad of statements: state, and an exception or a value *)

Definition M (A : Type) : Type := State → State * (exn + A).

Definition ret {A} (a : A) : M A := λ st, (st, inr a).
Definition raise {A} (e : exn) : M A := λ st, (st, inl e).
Definition bind {A B} (c : M A) (k : A → M B) : M B :=
  λ st, match c st with
        | (st', inr a) => k a st'
        | (st', inl e) => (st', inl e)
        end.
(** [try: c  except Exception as e: h e] *)
Definition try_except {A} (c : M A) (h : exn → M A) : M A :=
  λ st, match c st with
        | (st', inr a) => (st', inr a)
        | (st', inl e) => h e st'
        end.
Definition get : M State := λ st, (st, inr st).
Definition modify (f : State → State) : M unit := λ st, (f st, inr tt).

Notation "'let*' x ':=' c 'in' k" := (bind c (λ x, k))
  (at level 10, x name, c at level 100, k at level 200).
Notation "c ';;;' k" := (bind c (λ _, k))
  (at level 100, k at level 200, right associativity).

(** [for x in l: body x] *)
Fixpoint for_each {A} (l : list A) (body : A → M unit) : M unit :=
  match l with
  | [] => ret tt
  | x :: r => body x ;;; for_each r body
  end.

(** [logger.<level>(msg)] *)
Definition logger (lv : level) (msg : string) : M unit :=
  modify (set_log (λ l, l ++ [(lv, msg)])).

(** Record a completed operation. *)
Definition emit (ev : io_event) : M unit := modify (set_trace (λ t, t ++ [ev])).

(** Raise the exception the environment injects at this operation, if any. *)
Definition fault (f : option exn) : M unit :=
  match f with
  | Some e => raise e
  | None => ret tt
  end.

(** [for x in l: acc = body x acc], for loops that build up local
    variables. *)
Fixpoint for_fold {A S} (l : list A) (acc : S) (body : A → S → M S) : M S :=
  match l with
  | [] => ret acc
  | x :: r => let* acc' := body x acc in for_fold r acc' body
  end.

(* --------------------------------------------------------------------- *)
(** *** The environment of one run *)

(** Which operations of a run fail, and with which exception. *)
Record Faults : Type := mkFaults {
  fault_read : Path → option exn;          (* open(p) for reading, and the reads *)
  fault_write : Path → option exn;         (* open(p, 'w') and the writes *)
  fault_replace : Path → option exn;       (* tmp.replace(p) *)
  fault_mkdir : Path → option exn;
  fault_copy2 : Path → Path → option exn;  (* shutil.copy2(src, dst) *)
  fault_rmtree : Path → option exn;
  fault_sql : sql_op → option exn
}.

Definition no_faults : Faults :=
  mkFaults (λ _, None) (λ _, None) (λ _, None) (λ _, None) (λ _ _, None)
           (λ _, None) (λ _, None).

(** What a run reads from outside the modelled state: the process
    environment, the clock, directory enumeration and the content-sniffing
    filters of the collectors (both taken as given: no property below
    depends on how files are enumerated or sniffed), and the faults. *)
Record Env : Type := mkEnv {
  SPACE_NAME : string;                 (* os.getenv('SPACE_NAME', 'unknown') *)
  cwd : Path;                          (* Path.cwd() *)
  home : Path;                         (* Path.home() *)
  compilation_date : string;           (* datetime.now().isoformat() *)
  week_id : string;                    (* strftime('%Y-W%U') *)
  year_month : string;                 (* strftime('%Y-%m') *)
  yyyymmdd : string;                   (* strftime('%Y%m%d') *)
  week_ago : string;                   (* (compilation_date - 7 days).isoformat() *)
  cutoff_date : string;                (* (compilation_date - 12 weeks).isoformat() *)
  glob : Path → string → list Path;    (* dir.glob(pattern) *)
  rglob : Path → list Path;            (* dir.rglob('*') *)
  iterdir : Path → list Path;          (* dir.iterdir() *)
  modified_since_week_ago : Path → bool;
  _validate_log_framework_content : Path → bool;
  _validate_file_framework_content : Path → bool;
  weekly_metrics : pydict;             (* the result of _collect_weekly_metrics *)
  resolve : Path → Path;               (* p.resolve() *)
  faults : Faults
}.

(** Configuration constants. *)
Definition FRAMEWORK_SPACE : string := "HUMAN-AI-FRAMEWORK".
Definition WEEKS_TO_RETAIN : Z := 12.

Definition truthy (v : json) : bool :=
  match v with
  | JNull => false
  | JBool b => b
  | JInt n => negb (n =? 0)%Z
  | JFloat _ => true
  | JStr s => negb (bool_decide (s = EmptyString))
  | JList l => negb (bool_decide (l = []))
  | JDict d => match d with [] => false | _ => true end
  end.

(** [len(v)]; [None] stands for the [TypeError]. *)
Definition py_len (v : json) : option nat :=
  match v with
  | JStr s => Some (String.length s)
  | JList l => Some (length l)
  | JDict d => Some (length d)
  | _ => None
  end.

(** [v == s] for a value [v] that may be [None] and a string [s]. *)
Definition eq_str (v : option json) (s : string) : bool :=
  match v with
  | Some (JStr s') => bool_decide (s' = s)
  | _ => false
  end.

(** [str(v)] inside an f-string (log messages only; containers are shown
    in their JSON form). *)
Definition py_str (v : json) : string :=
  match v with
  | JStr s => s
  | JNull => "None"
  | JBool true => "True"
  | JBool false => "False"
  | _ => Json.dumps v
  end.

(* ===================================================================== *)
(** ** The program *)
(* ===================================================================== *)

Section Program.

Variable env : Env.

Definition COMPILATION_DIR : Path := cwd env // ["human-ai-framework"].
Definition db_path : Path := COMPILATION_DIR // ["compilations.db"].
Definition checkpoint_file : Path := cwd env // ["last-run-checkpoint.json"].

(** [p.absolute()] *)
Definition absolute (p : Path) : Path := cwd env // p.

(* ------------------------------------------------------------------- *)
(** *** File system primitives *)

Definition is_file (st : State) (p : Path) : bool :=
  bool_decide (is_Some (files st !! absolute p)).
Definition is_dir (st : State) (p : Path) : bool :=
  bool_decide (absolute p ∈ dirs st).
Definition exists_ (st : State) (p : Path) : bool := is_file st p || is_dir st p.

(** [p.stat()] *)
Definition stat (p : Path) : M File :=
  let* st := get in
  match files st !! absolute p with
  | Some f => ret f
  | None => raise (FileNotFoundError (path_str p))
  end.

(** [open(p, 'rb').read()], as one operation. *)
Definition read_bytes (p : Path) : M (list byte) :=
  fault (fault_read (faults env) (absolute p)) ;;;
  let* f := stat p in ret (f_content f).

(** [with open(p, 'w') as f: f.write(text)] for a text that is the
    serialisation of [doc] (or of nothing the program loads back). *)
Definition write_text (p : Path) (text : string) (doc : option json) : M unit :=
  fault (fault_write (faults env) (absolute p)) ;;;
  modify (set_files <[absolute p := mkFile (encode_utf8 text) (compilation_date env) doc]>) ;;;
  emit (EvWrite p text doc).

(** [p.mkdir(exist_ok=True)] and [p.mkdir(parents=True, exist_ok=True)]:
    the parents named here are the ones the program can be missing. *)
Definition mkdir (parents : list Path) (p : Path) : M unit :=
  fault (fault_mkdir (faults env) (absolute p)) ;;;
  modify (set_dirs (λ d, d ∪ list_to_set (absolute <$> parents) ∪ {[absolute p]})) ;;;
  emit (EvMkdir p).

(** [shutil.copy2(src, dst)]: content and modification time. *)
Definition copy2 (src dst : Path) : M unit :=
  fault (fault_copy2 (faults env) (absolute src) (absolute dst)) ;;;
  let* st := get in
  match files st !! absolute src with
  | Some f => modify (set_files <[absolute dst := f]>) ;;; emit (EvCopy src dst)
  | None => raise (OSError (path_str src))
  end.

(** [shutil.rmtree(d)] *)
Definition rmtree (d : Path) : M unit :=
  fault (fault_rmtree (faults env) (absolute d)) ;;;
  modify (set_files (filter (λ kv, is_under (absolute d) kv.1 = false))) ;;;
  modify (set_dirs (filter (λ q, q ≠ absolute d ∧ is_under (absolute d) q = false))) ;;;
  emit (EvRmtree d).

(** What [d.rglob('*')] yields on the modelled disk, in the order in
    which the maps enumerate it. *)
Definition walk (st : State) (d : Path) : list Path :=
  filter (λ q, is_under (absolute d) q = true)
         (elements (dom (files st) ∪ dirs st)).

(* ------------------------------------------------------------------- *)
(** *** SecurityManager *)

(** [_calculate_framework_hash] *)
Definition framework_hash : string :=
  str_take 16 (Sha256.hexdigest
                 (encode_utf8 (FRAMEWORK_SPACE +:+ "-" +:+ year_month env))).

(** [validate_framework_access] *)
Definition validate_framework_access (space_name : string) : M bool :=
  let is_valid := bool_decide (space_name = FRAMEWORK_SPACE) in
  modify (set_audit_log (λ l, l ++
    [JDict [("timestamp", JStr (compilation_date env));
            ("action", JStr "access_validation");
            ("space", JStr space_name);
            ("result", JStr (if is_valid then "granted" else "denied"));
            ("hash", JStr framework_hash)]])) ;;;
  (if is_valid then ret tt
   else logger WARNING ("Access denied: Invalid space '" +:+ space_name
                        +:+ "' for FRAMEWORK operations")) ;;;
  ret is_valid.

(** [log_compilation_access] *)
Definition log_compilation_access (operation : string) (files_count : nat) : M unit :=
  modify (set_audit_log (λ l, l ++
    [JDict [("timestamp", JStr (compilation_date env));
            ("action", JStr "compilation_operation");
            ("operation", JStr operation);
            ("files_processed", JInt (Z.of_nat files_count));
            ("hash", JStr framework_hash)]])) ;;;
  logger INFO ("Audit: " +:+ operation +:+ " - " +:+ pretty files_count
               +:+ " files processed").

(** [save_audit_log] *)
Definition save_audit_log (compilation_dir : Path) : M unit :=
  let audit_file := compilation_dir // ["audit-" +:+ yyyymmdd env +:+ ".json"] in
  let* st := get in
  let audit_data :=
    JDict [("framework_hash", JStr framework_hash);
           ("compilation_date", JStr (compilation_date env));
           ("space_verified", JStr FRAMEWORK_SPACE);
           ("operations", JList (audit_log st));
           ("retention_policy", JStr (pretty WEEKS_TO_RETAIN +:+ " weeks"))] in
  write_text audit_file (Json.dumps_indent2 audit_data) (Some audit_data) ;;;
  logger INFO ("Audit log saved: " +:+ path_str audit_file).

(* ------------------------------------------------------------------- *)
(** *** Checkpoint store *)

Definition fresh_checkpoint : json :=
  JDict [("files", JDict []); ("timestamp", JNull)].

(** [checkpoint.get('files', {})]; [None] stands for the
    [AttributeError] of a value without [get]. *)
Definition get_files (ck : json) : option json :=
  match ck with
  | JDict d => Some (default (JDict []) (dict_get "files" d))
  | _ => None
  end.

(** [_load_checkpoint] *)
Definition _load_checkpoint : M json :=
  let* st := get in
  match files st !! absolute checkpoint_file with
  | None =>
      logger INFO "No previous checkpoint found - starting fresh" ;;;
      ret fresh_checkpoint
  | Some f =>
      let loaded :=
        match fault_read (faults env) (absolute checkpoint_file) with
        | Some e => inl (exn_msg e)
        | None =>
            match f_json f with
            | None => inl "Expecting value"
            | Some ck =>
                match get_files ck with
                | None => inl "object has no attribute 'get'"
                | Some fs =>
                    match py_len fs with
                    | None => inl "object has no len()"
                    | Some n => inr (ck, n)
                    end
                end
            end
        end in
      match loaded with
      | inr (ck, n) =>
          logger INFO ("Loaded checkpoint with " +:+ pretty n +:+ " tracked files") ;;;
          ret ck
      | inl msg =>
          logger WARNING ("Error loading checkpoint: " +:+ msg +:+ " - starting fresh") ;;;
          ret fresh_checkpoint
      end
  end.

(** The text [json.dump(self.new_checkpoint, f, indent=2,
    ensure_ascii=False)] writes. *)
Definition checkpoint_text (ck : pydict) : string :=
  Json.dumps_indent2_raw (JDict ck).

(** [_save_checkpoint]: every exception of the body is caught and
    logged. *)
Definition _save_checkpoint : M unit :=
  try_except
    (match with_suffix checkpoint_file ".tmp" with
     | None => raise (ValueError "has an empty name")
     | Some temp_file =>
         let* st := get in
         write_text temp_file (checkpoint_text (new_checkpoint st))
                    (Some (JDict (new_checkpoint st))) ;;;
         (* temp_file.replace(self.checkpoint_file) *)
         fault (fault_replace (faults env) (absolute checkpoint_file)) ;;;
         let* st := get in
         match files st !! absolute temp_file with
         | None => raise (FileNotFoundError (path_str temp_file))
         | Some f =>
             modify (set_files (λ m, <[absolute checkpoint_file := f]>
                                        (delete (absolute temp_file) m))) ;;;
             emit (EvReplace temp_file checkpoint_file) ;;;
             match dict_get "files" (new_checkpoint st) with
             | Some v =>
                 match py_len v with
                 | Some n => logger INFO ("Checkpoint saved with " +:+ pretty n +:+ " files")
                 | None => raise (TypeError "object has no len()")
                 end
             | None => raise (KeyError "files")
             end
         end
     end)
    (λ e, logger ERROR ("Failed to save checkpoint: " +:+ exn_msg e)).

(** [_calculate_file_checksum] *)
Definition _calculate_file_checksum (file_path : Path) : M string :=
  try_except
    (let* content := read_bytes file_path in
     ret (Hashlib.hexdigest (hash_file_into Hashlib.sha256 8192 content)))
    (λ e, logger WARNING ("Could not calculate checksum for " +:+ path_str file_path
                          +:+ ": " +:+ exn_msg e) ;;;
          ret "checksum_failed").

(** [_calculate_file_hash] *)
Definition _calculate_file_hash (file_path : Path) : M string :=
  try_except
    (let* content := read_bytes file_path in
     ret (str_take 16 (Hashlib.hexdigest (hash_file_into Hashlib.sha256 4096 content))))
    (λ e, logger WARNING ("Could not hash file " +:+ path_str file_path
                          +:+ ": " +:+ exn_msg e) ;;;
          ret "hash_failed").

(** [self.checkpoint.get("files", {}).get(file_str)] *)
Definition previous_checksum_of (ck : json) (file_str : string) : exn + option json :=
  match get_files ck with
  | Some (JDict fs) => inr (dict_get file_str fs)
  | _ => inl (AttributeError "object has no attribute 'get'")
  end.

(** [_should_process_file] *)
Definition _should_process_file (file_path : Path) : M bool :=
  let file_str := path_str (absolute file_path) in
  let* current_checksum := _calculate_file_checksum file_path in
  let* st := get in
  match previous_checksum_of (checkpoint st) file_str with
  | inl e => raise e
  | inr previous_checksum =>
      if eq_str previous_checksum current_checksum then
        logger DEBUG ("Skipping unchanged file: " +:+ path_name file_path) ;;;
        ret false
      else
        match dict_get "files" (new_checkpoint st) with
        | Some (JDict fs) =>
            modify (set_new_checkpoint
                      (dict_set "files" (JDict (dict_set file_str (JStr current_checksum) fs)))) ;;;
            (if default false (truthy <$> previous_checksum)
             then logger INFO ("File changed, will process: " +:+ path_name file_path)
             else logger INFO ("New file detected, will process: " +:+ path_name file_path)) ;;;
            ret true
        | Some _ => raise (TypeError "object does not support item assignment")
        | None => raise (KeyError "files")
        end
  end.

(* ------------------------------------------------------------------- *)
(** *** Collectors *)

(** The entry every gated collector appends for a file that passed the
    gate; [shown] is the path the entry records and [extra] the keys a
    collector adds before [status]. *)
Definition file_entry (shown : string) (f : File) (h : string) (extra : pydict) : json :=
  JDict ([("path", JStr shown);
          ("size", JInt (Z.of_nat (length (f_content f))));
          ("modified", JStr (f_mtime f));
          ("hash", JStr h)]
         ++ extra ++ [("status", JStr "new_or_changed")]).

(** [_collect_copilot_logs] *)
Definition _collect_copilot_logs : M json :=
  let logs_dir := cwd env // ["logs"] in
  let* st := get in
  if negb (exists_ st logs_dir) then
    ret (JDict [("files", JList []); ("total_size", JInt 0);
                ("note", JStr "logs_directory_not_found")])
  else
    let* r := for_fold (glob env logs_dir "*.log") ([], 0%Z, 0%Z)
      (λ log_file '(log_files, total_size, skipped_count),
         let* stat_info := stat log_file in
         if modified_since_week_ago env log_file then
           if _validate_log_framework_content env log_file then
             let* go := _should_process_file log_file in
             if go then
               let* h := _calculate_file_hash log_file in
               ret (log_files ++ [file_entry (path_str log_file) stat_info h []],
                    (total_size + Z.of_nat (length (f_content stat_info)))%Z,
                    skipped_count)
             else ret (log_files, total_size, (skipped_count + 1)%Z)
           else ret (log_files, total_size, skipped_count)
         else ret (log_files, total_size, skipped_count)) in
    let '(log_files, total_size, skipped_count) := r in
    ret (JDict [("files", JList log_files);
                ("total_size", JInt total_size);
                ("files_skipped", JInt skipped_count);
                ("collection_date", JStr (compilation_date env));
                ("week_range", JStr (week_ago env +:+ " to " +:+ compilation_date env))]).

(** The loop body shared by the collectors that stat a file only after
    it passed the gate. *)
Definition gate_then_entry (file_path : Path) (shown : M string) (extra : pydict)
    (acc : list json * Z) : M (list json * Z) :=
  let '(entries, skipped_count) := acc in
  let* go := _should_process_file file_path in
  if go then
    let* stat_info := stat file_path in
    let* p := shown in
    let* h := _calculate_file_hash file_path in
    ret (entries ++ [file_entry p stat_info h extra], skipped_count)
  else ret (entries, (skipped_count + 1)%Z).

(** [_collect_conversation_data] *)
Definition _collect_conversation_data : M json :=
  let patterns := ["conversation-*.json"; "chat-history-*.json"; "session-*.json"] in
  let* r := for_fold patterns ([], 0%Z)
    (λ pattern acc,
       for_fold (glob env (cwd env) pattern) acc
         (λ file_path acc,
            if _validate_file_framework_content env file_path
            then gate_then_entry file_path (ret (path_str file_path)) [] acc
            else ret acc)) in
  let '(conversation_files, skipped_count) := r in
  ret (JDict [("files", JList conversation_files);
              ("files_skipped", JInt skipped_count);
              ("patterns_searched", JList (JStr <$> patterns));
              ("collection_date", JStr (compilation_date env))]).

(** [_collect_framework_configs] *)
Definition _collect_framework_configs : M json :=
  let framework_configs :=
    ["copilot/config.json"; "config/copilot-schema.json";
     "human-ai-framework/*.json"; ".env.framework"] in
  let* r := for_fold framework_configs ([], 0%Z)
    (λ pattern acc,
       for_fold (glob env (cwd env) pattern) acc
         (λ file_path acc,
            let* st := get in
            if exists_ st file_path
            then gate_then_entry file_path (ret (path_str file_path))
                                 [("type", JStr "framework_config")] acc
            else ret acc)) in
  let '(config_files, skipped_count) := r in
  ret (JDict [("files", JList config_files);
              ("files_skipped", JInt skipped_count);
              ("collection_date", JStr (compilation_date env))]).

(** [_collect_weekly_metrics]: interpreter, platform and [psutil]
    figures, taken from the environment. *)
Definition _collect_weekly_metrics : M json := ret (JDict (weekly_metrics env)).

(** [_collect_exclusive_content] *)
Definition _collect_exclusive_content : M json :=
  let exclusive_dirs := ["human-ai-framework"; "framework-exclusive"] in
  let* r := for_fold exclusive_dirs ([], 0%Z)
    (λ dir_name acc,
       let dir_path := cwd env // [dir_name] in
       let* st := get in
       if exists_ st dir_path then
         for_fold (rglob env dir_path) acc
           (λ file_path acc,
              let* st := get in
              if is_file st file_path
              then gate_then_entry file_path
                     (match relative_to file_path (cwd env) with
                      | Some rel => ret (path_str rel)
                      | None => raise (ValueError "is not in the subpath of the working directory")
                      end) [] acc
              else ret acc)
       else ret acc) in
  let '(exclusive_files, skipped_count) := r in
  ret (JDict [("files", JList exclusive_files);
              ("files_skipped", JInt skipped_count);
              ("directories_scanned", JList (JStr <$> exclusive_dirs));
              ("collection_date", JStr (compilation_date env))]).

(** The body of the [try] of [_synchronize_objectives] for one space:
    load, inject [spaceName] when it is missing and write back, then
    describe the file. *)
Definition sync_one (space_name : string) (objectives_file : Path) : M (json * json) :=
  fault (fault_read (faults env) (absolute objectives_file)) ;;;
  let* f := stat objectives_file in
  match f_json f with
  | None => raise (ValueError "Expecting value")
  | Some (JDict content) =>
      let* objectives_content :=
        (if dict_has "spaceName" content then ret content
         else
           let injected := dict_set "spaceName" (JStr space_name) content in
           write_text objectives_file (Json.dumps_indent2_raw (JDict injected))
                      (Some (JDict injected)) ;;;
           logger INFO ("Injected spaceName into " +:+ space_name +:+ "/objectives.json") ;;;
           ret injected) in
      let* stat_info := stat objectives_file in
      let* h := _calculate_file_hash objectives_file in
      ret (JDict objectives_content,
           JDict [("space", JStr space_name);
                  ("path", JStr (path_str objectives_file));
                  ("size", JInt (Z.of_nat (length (f_content stat_info))));
                  ("modified", JStr (f_mtime stat_info));
                  ("hash", JStr h);
                  ("spaceName_injected", JBool true);
                  ("status", JStr "processed")])
  | Some _ => raise (TypeError "object does not support item assignment")
  end.

(** [_synchronize_objectives] *)
Definition _synchronize_objectives : M json :=
  let spaces_base := home env // ["Perplexity"; "spaces"] in
  let* st := get in
  if negb (exists_ st spaces_base) then
    ret (JDict [("objectives", JDict []); ("files", JList []);
                ("note", JStr "Perplexity spaces directory not found");
                ("collection_date", JStr (compilation_date env))])
  else
    let* r := for_fold (iterdir env spaces_base) ([], [])
      (λ space_dir '(objectives_data, synchronized_files),
         let* st := get in
         if is_dir st space_dir then
           let space_name := path_name space_dir in
           let objectives_file := space_dir // ["objectives.json"] in
           if exists_ st objectives_file then
             try_except
               (let* r := sync_one space_name objectives_file in
                ret (dict_set space_name r.1 objectives_data, synchronized_files ++ [r.2]))
               (λ e,
                  logger WARNING ("Could not process objectives.json from "
                                  +:+ space_name +:+ ": " +:+ exn_msg e) ;;;
                  ret (objectives_data,
                       synchronized_files ++
                         [JDict [("space", JStr space_name);
                                 ("path", JStr (path_str objectives_file));
                                 ("error", JStr (exn_msg e));
                                 ("status", JStr "failed")]]))
           else ret (objectives_data, synchronized_files)
         else ret (objectives_data, synchronized_files)) in
    let '(objectives_data, synchronized_files) := r in
    ret (JDict [("objectives", JDict objectives_data);
                ("files", JList synchronized_files);
                ("total_spaces", JInt (Z.of_nat (length objectives_data)));
                ("collection_date", JStr (compilation_date env))]).

(* ------------------------------------------------------------------- *)
(** *** Exclusivity validator *)

Definition prohibited_spaces : list string :=
  ["general-space"; "shared-space"; "public-space";
   "common-infrastructure"; "cross-space"].

(** The scan of [_validate_data_exclusivity]: the first prohibited
    marker found in [data_str], if any. *)
Definition first_prohibited (data_str : string) : option string :=
  find (λ prohibited, contains prohibited data_str) prohibited_spaces.

(** [_validate_data_exclusivity] *)
Definition _validate_data_exclusivity (data : json) : M bool :=
  match data with
  | JDict _ =>
      let data_str := lower (Json.dumps data) in
      match first_prohibited data_str with
      | Some prohibited =>
          logger WARNING ("Found prohibited space reference: " +:+ prohibited) ;;;
          ret false
      | None => ret true
      end
  | _ => ret true
  end.

(** [len(data.get('files', []))] for the data sources that are
    dictionaries, [0] for the others. *)
Definition files_len (data : json) : exn + nat :=
  match data with
  | JDict d =>
      match py_len (default (JList []) (dict_get "files" d)) with
      | Some n => inr n
      | None => inl (TypeError "object has no len()")
      end
  | _ => inr 0
  end.

Fixpoint sum_files_len (l : list json) : exn + nat :=
  match l with
  | [] => inr 0
  | d :: r =>
      match files_len d, sum_files_len r with
      | inr n, inr m => inr (n + m)
      | inl e, _ => inl e
      | _, inl e => inl e
      end
  end.

Definition exclusivity_marker : json :=
  JDict [("error", JStr "exclusivity_validation_failed")].

(** The validation loop of [collect_framework_data]:
    [for source_name, source_data in data_sources.items(): ...],
    assigning into the dictionary it walks. *)
Definition validate_sources (data_sources : pydict) : M pydict :=
  for_fold data_sources data_sources
    (λ '(source_name, source_data) data_sources,
       if truthy source_data then
         let* ok := _validate_data_exclusivity source_data in
         if ok then ret data_sources
         else
           logger WARNING ("Data source " +:+ source_name
                           +:+ " failed exclusivity validation") ;;;
           ret (dict_set source_name exclusivity_marker data_sources)
       else ret data_sources).

(** The six collectors of [collect_framework_data], in the order of the
    dictionary literal. *)
Definition collect_sources : M pydict :=
  let* copilot_logs := _collect_copilot_logs in
  let* conversation_data := _collect_conversation_data in
  let* framework_configs := _collect_framework_configs in
  let* weekly_metrics := _collect_weekly_metrics in
  let* exclusive_content := _collect_exclusive_content in
  let* objectives_sync := _synchronize_objectives in
  ret [("copilot_logs", copilot_logs);
       ("conversation_data", conversation_data);
       ("framework_configs", framework_configs);
       ("weekly_metrics", weekly_metrics);
       ("exclusive_content", exclusive_content);
       ("objectives_sync", objectives_sync)].

(** [collect_framework_data] *)
Definition collect_framework_data : M pydict :=
  let* data_sources := collect_sources in
  (* Security validation - ensure no cross-space contamination *)
  let* data_sources := validate_sources data_sources in
  match sum_files_len (data_sources.*2) with
  | inl e => raise e
  | inr total_files =>
      log_compilation_access "data_collection" total_files ;;;
      ret data_sources
  end.

(* ------------------------------------------------------------------- *)
(** *** Compiler *)

(** [for x in v]; [None] stands for the [TypeError]. *)
Definition py_iter (v : json) : option (list json) :=
  match v with
  | JList l => Some l
  | JDict d => Some (JStr <$> d.*1)
  | JStr s => Some ((λ c, JStr (String c EmptyString)) <$> String.list_ascii_of_string s)
  | _ => None
  end.

(** [k in v]; [None] stands for the [TypeError]. *)
Definition py_in (k : string) (v : json) : option bool :=
  match v with
  | JDict d => Some (dict_has k d)
  | JStr s => Some (contains k s)
  | JList l => Some (existsb (λ x, eq_str (Some x) k) l)
  | _ => None
  end.

(** [status not in ['new_or_changed', 'processed']], negated. *)
Definition status_ok (status : json) : bool :=
  eq_str (Some status) "new_or_changed" || eq_str (Some status) "processed".

(** [total += v] for an integer total; a size that is not an integer is
    outside the model and stands as a [TypeError]. *)
Definition as_int (v : json) : exn + Z :=
  match v with
  | JInt n => inr n
  | JBool b => inr (if b then 1 else 0)%Z
  | _ => inl (TypeError "unsupported operand type(s) for +=")
  end.

Definition lift {A} (r : exn + A) : M A :=
  match r with inl e => raise e | inr a => ret a end.

Definition get_item (k : string) (d : pydict) : M json :=
  match dict_get k d with
  | Some v => ret v
  | None => raise (KeyError k)
  end.

(** One iteration of the inner loop of [create_compilation]: the body
    for [file_info], with the locals [copied_files], [total_files] and
    [total_size] threaded through. *)
Definition compile_entry (compilation_dir source_dir : Path) (file_info : json)
    (acc : list json * Z * Z) : M (list json * Z * Z) :=
  let '(copied_files, total_files, total_size) := acc in
  let continue := ret acc in
  match py_in "error" file_info with
  | None => raise (TypeError "argument is not iterable")
  | Some true => continue
  | Some false =>
      match file_info with
      | JDict fi =>
          let status := default (JStr "unknown") (dict_get "status" fi) in
          if negb (status_ok status) then
            logger DEBUG ("Skipping file with status '" +:+ py_str status +:+ "': "
                          +:+ py_str (default (JStr "unknown") (dict_get "path" fi))) ;;;
            continue
          else
            let* path := get_item "path" fi in
            match path with
            | JStr path =>
                let src_path := path_of_str path in
                let* st := get in
                if exists_ st src_path && dict_has "size" fi then
                  let dst_path := source_dir // [path_name src_path] in
                  if bool_decide (resolve env src_path = resolve env dst_path) then continue
                  else
                    copy2 src_path dst_path ;;;
                    let* compiled :=
                      lift (match relative_to dst_path compilation_dir with
                            | Some rel => inr (path_str rel)
                            | None => inl (ValueError "is not in the subpath")
                            end) in
                    let* size := get_item "size" fi in
                    let* h := get_item "hash" fi in
                    let copied_files :=
                      copied_files ++
                        [JDict [("original_path", JStr (path_str src_path));
                                ("compiled_path", JStr compiled);
                                ("size", size);
                                ("hash", h)]] in
                    let* n := lift (as_int size) in
                    ret (copied_files, (total_files + 1)%Z, (total_size + n)%Z)
                else continue
            | _ => raise (TypeError "expected str, bytes or os.PathLike object")
            end
      | _ => raise (AttributeError "object has no attribute 'get'")
      end
  end.

(** [sum(f['size'] for f in copied_files)] *)
Fixpoint sum_sizes (copied_files : list json) : exn + Z :=
  match copied_files with
  | [] => inr 0%Z
  | JDict f :: r =>
      match dict_get "size" f with
      | Some v =>
          match as_int v, sum_sizes r with
          | inr n, inr m => inr (n + m)%Z
          | inl e, _ => inl e
          | _, inl e => inl e
          end
      | None => inl (KeyError "size")
      end
  | _ :: _ => inl (TypeError "object is not subscriptable")
  end.

(** One iteration of the outer loop of [create_compilation]. *)
Definition compile_source (compilation_dir : Path) (source : string * json)
    (acc : pydict * Z * Z) : M (pydict * Z * Z) :=
  let '(source_name, source_data) := source in
  let '(sources_manifest, total_files, total_size) := acc in
  match source_data with
  | JDict sd =>
      match dict_get "files" sd with
      | Some fl =>
          let source_dir := compilation_dir // [source_name] in
          mkdir [] source_dir ;;;
          let* file_infos :=
            lift (match py_iter fl with
                  | Some l => inr l
                  | None => inl (TypeError "object is not iterable")
                  end) in
          let* r := for_fold file_infos ([], total_files, total_size)
                      (compile_entry compilation_dir source_dir) in
          let '(copied_files, total_files, total_size) := r in
          let* sum := lift (sum_sizes copied_files) in
          ret (dict_set source_name
                 (JDict [("files_count", JInt (Z.of_nat (length copied_files)));
                         ("total_size", JInt sum);
                         ("files", JList copied_files)]) sources_manifest,
               total_files, total_size)
      | None => ret acc
      end
  | _ => ret acc
  end.

(** The manifest of [create_compilation], once its [data_sources] entry
    is filled. *)
Definition manifest_of (sources_manifest : pydict) : pydict :=
  [("week_id", JStr (week_id env));
   ("compilation_date", JStr (compilation_date env));
   ("framework_space", JStr FRAMEWORK_SPACE);
   ("security_hash", JStr framework_hash);
   ("data_sources", JDict sources_manifest);
   ("exclusivity_verified", JBool true)].

(** [_calculate_compilation_checksum], for the listing [entries] that
    [compilation_dir.rglob('*')] yields. *)
Definition _calculate_compilation_checksum (compilation_dir : Path)
    (entries : list Path) : M string :=
  let* hash_sha256 := for_fold (sorted_paths entries) Hashlib.sha256
    (λ file_path hash_sha256,
       let* st := get in
       if is_file st file_path then
         let* rel := lift (match relative_to file_path compilation_dir with
                           | Some rel => inr rel
                           | None => inl (ValueError "is not in the subpath")
                           end) in
         let hash_sha256 := Hashlib.update hash_sha256 (encode_utf8 (path_str rel)) in
         let* content := read_bytes file_path in
         ret (hash_file_into hash_sha256 4096 content)
       else ret hash_sha256) in
  emit (EvChecksum (Hashlib.hexdigest hash_sha256)) ;;;
  ret (Hashlib.hexdigest hash_sha256).

(** [_update_compilation_database] *)
Definition _update_compilation_database (week_id : string) (files_count total_size : Z)
    (checksum : string) (manifest : pydict) : M unit :=
  fault (fault_sql (faults env) (SqlUpsert week_id)) ;;;
  modify (set_compilations
            <[week_id := mkRow (compilation_date env) files_count total_size checksum
                               (Json.dumps (JDict manifest))]>) ;;;
  emit (EvSql (SqlUpsert week_id)).

(** [create_compilation] *)
Definition create_compilation (data_sources : pydict) : M Path :=
  let compilation_dir := COMPILATION_DIR // ["week-" +:+ week_id env] in
  mkdir [COMPILATION_DIR] compilation_dir ;;;
  (* Process each data source *)
  let* r := for_fold data_sources ([], 0%Z, 0%Z) (compile_source compilation_dir) in
  let '(sources_manifest, total_files, total_size) := r in
  let manifest := manifest_of sources_manifest in
  (* Save manifest *)
  let manifest_path := compilation_dir // ["manifest.json"] in
  write_text manifest_path (Json.dumps_indent2 (JDict manifest)) (Some (JDict manifest)) ;;;
  (* Create compilation checksum *)
  let* st := get in
  let* compilation_checksum :=
    _calculate_compilation_checksum compilation_dir (walk st compilation_dir) in
  (* Update database *)
  _update_compilation_database (week_id env) total_files total_size
                               compilation_checksum manifest ;;;
  (* Save audit log *)
  save_audit_log compilation_dir ;;;
  (* Save checkpoint to prevent future duplicates *)
  _save_checkpoint ;;;
  logger INFO ("Weekly compilation created: " +:+ path_str compilation_dir) ;;;
  logger INFO ("Files processed: " +:+ pretty total_files +:+ ", Total size: "
               +:+ pretty total_size +:+ " bytes") ;;;
  let* st := get in
  let* fs := get_item "files" (new_checkpoint st) in
  let* n := lift (match py_len fs with
                  | Some n => inr n
                  | None => inl (TypeError "object has no len()")
                  end) in
  logger INFO ("Checkpoint updated with " +:+ pretty n +:+ " files") ;;;
  ret compilation_dir.

(* ------------------------------------------------------------------- *)
(** *** Retention and the entry point *)

(** [init_database] *)
Definition init_database : M unit :=
  mkdir [] COMPILATION_DIR ;;;
  fault (fault_sql (faults env) SqlCreateTables) ;;;
  emit (EvSql SqlCreateTables) ;;;
  logger INFO "Compilation database initialized".

(** The body of the loop of [cleanup_old_compilations]. *)
Definition remove_compilation (week_id : string) : M unit :=
  (* Remove directory *)
  let old_dir := COMPILATION_DIR // ["week-" +:+ week_id] in
  let* st := get in
  (if exists_ st old_dir then
     rmtree old_dir ;;;
     logger INFO ("Removed old compilation: " +:+ path_str old_dir)
   else ret tt) ;;;
  (* Remove from database *)
  fault (fault_sql (faults env) (SqlDelete week_id)) ;;;
  modify (set_files_tracked (filter (λ t, t_week_id t ≠ week_id))) ;;;
  modify (set_compilations (delete week_id)) ;;;
  emit (EvSql (SqlDelete week_id)).

(** [cleanup_old_compilations] *)
Definition cleanup_old_compilations : M unit :=
  fault (fault_sql (faults env) SqlSelectOld) ;;;
  emit (EvSql SqlSelectOld) ;;;
  let* st := get in
  let old_compilations :=
    (map_to_list (filter (λ kv, String.ltb (row_compilation_date kv.2) (cutoff_date env) = true)
                         (compilations st))).*1 in
  for_each old_compilations remove_compilation ;;;
  match old_compilations with
  | [] => ret tt
  | _ => logger INFO ("Cleaned up " +:+ pretty (length old_compilations)
                      +:+ " old compilations")
  end.

(** [WeeklyCompiler(space_name)] *)
Definition WeeklyCompiler (space_name : string) : M unit :=
  modify (set_audit_log (λ _, [])) ;;;
  (* Load previous checkpoint for duplicate prevention *)
  let* ck := _load_checkpoint in
  modify (set_checkpoint ck) ;;;
  modify (set_new_checkpoint (λ _, [("files", JDict []);
                                    ("timestamp", JStr (compilation_date env));
                                    ("week_id", JStr (week_id env))])) ;;;
  (* Validate exclusive access *)
  let* ok := validate_framework_access space_name in
  if ok then ret tt
  else raise (PermissionError ("Weekly compilation restricted to "
                               +:+ FRAMEWORK_SPACE +:+ " only")).

(** The [try] block of [main]. *)
Definition main_body (space_name : string) : M unit :=
  logger INFO ("Starting weekly compilation for space: " +:+ space_name) ;;;
  (* Initialize compiler with security validation *)
  WeeklyCompiler space_name ;;;
  init_database ;;;
  (* Collect FRAMEWORK-exclusive data *)
  logger INFO "Collecting HUMAN AI FRAMEWORK exclusive data..." ;;;
  let* data_sources := collect_framework_data in
  (* Create compilation *)
  logger INFO "Creating weekly compilation package..." ;;;
  let* compilation_dir := create_compilation data_sources in
  (* Cleanup old compilations *)
  logger INFO "Cleaning up old compilations..." ;;;
  cleanup_old_compilations ;;;
  logger INFO ("Weekly compilation completed successfully: " +:+ path_str compilation_dir) ;;;
  (* Output summary for CI/CD *)
  let* files_processed := lift (sum_files_len (data_sources.*2)) in
  let summary :=
    JDict [("status", JStr "success");
           ("week_id", JStr (week_id env));
           ("compilation_dir", JStr (path_str compilation_dir));
           ("space_verified", JStr FRAMEWORK_SPACE);
           ("files_processed", JInt (Z.of_nat files_processed))] in
  modify (set_stdout (λ o, o ++ [Json.dumps_indent2 summary])).

(** [main]: the final state and the exit status of the process. *)
Definition main (st : State) : State * Z :=
  let space_name := SPACE_NAME env in
  match main_body space_name st with
  | (st', inr _) => (st', 0%Z)
  | (st', inl e) =>
      if is_permission_error e then
        (set_log (λ l, l ++ [(ERROR, "Access denied: " +:+ exn_msg e)]) st', 1%Z)
      else
        (set_log (λ l, l ++ [(ERROR, "Weekly compilation failed: " +:+ exn_msg e)]) st', 1%Z)
  end.

End Program.

(* ===================================================================== *)
(** ** Vocabulary of the properties *)
(* ===================================================================== *)

(** [marker] occurs in [s] up to the case of letters. *)
Definition contains_ci (marker s : string) : Prop :=
  ∃ a x b, s = a +:+ x +:+ b ∧ lower x = lower marker.

(** [steps R c]: every run of [c], normal or exceptional, takes a state
    to an [R]-related one. *)
Definition steps {A} (R : relation State) (c : M A) : Prop :=
  ∀ st st' r, c st = (st', r) → R st st'.

(** The value [_validate_data_exclusivity] returns for [data]. *)
Definition is_exclusive (data : json) : bool :=
  match data with
  | JDict _ =>
      match first_prohibited (lower (Json.dumps data)) with
      | Some _ => false
      | None => true
      end
  | _ => true
  end.

(** The test of the validation loop: [source_data and not
    self._validate_data_exclusivity(source_data)]. *)
Definition failing (data : json) : bool := truthy data && negb (is_exclusive data).

(** A data source after the validation loop: the error marker in place
    of a non-empty record that fails validation, the record itself
    otherwise. *)
Definition guard_source (source : string * json) : string * json :=
  (source.1, if failing source.2 then exclusivity_marker else source.2).

(** The bytes of a bundle in path order: for every regular file of the
    listing, taken in sorted order, its path relative to the bundle
    directory followed by its content. *)
Definition bundle_bytes (env : Env) (st : State) (compilation_dir : Path)
    (entries : list Path) : list byte :=
  flat_map (λ p, match files st !! absolute env p, relative_to p compilation_dir with
                 | Some f, Some rel => encode_utf8 (path_str rel) ++ f_content f
                 | _, _ => []
                 end)
           (sorted_paths entries).

(* ===================================================================== *)
(** ** A small installation, for concrete runs *)
(* ===================================================================== *)

Module Demo.

Definition work : Path := ["/"; "work"].
Definition logs : Path := work ++ ["logs"].
Definition spaces : Path := ["/"; "home"; "Perplexity"; "spaces"].
Definition alpha_objectives : Path := spaces ++ ["alpha"; "objectives.json"].

(** The environment of a run in week 42 of 2025 that finds one log
    file, [log_file], and one space, [alpha]. *)
Definition env_with (log_file : Path) (f : Faults) : Env :=
  mkEnv "HUMAN-AI-FRAMEWORK" work ["/"; "home"]
    "2025-10-19T10:00:00" "2025-W42" "2025-10" "20251019"
    "2025-10-12T10:00:00" "2025-07-27T10:00:00"
    (λ d pattern, if bool_decide (d = logs ∧ pattern = "*.log") then [log_file] else [])
    (λ _, [])
    (λ d, if bool_decide (d = spaces) then [spaces ++ ["alpha"]] else [])
    (λ _, true) (λ _, true) (λ _, true)
    [("compilation_week", JStr "2025-W42");
     ("framework_space", JStr "HUMAN-AI-FRAMEWORK")]
    (λ p, work // p)
    f.

Definition a_log : Path := logs ++ ["a.log"].
Definition env : Env := env_with a_log no_faults.

Definition objectives_doc : json :=
  JDict [("goal", JStr "ship"); ("spaceName", JStr "alpha")].

Definition disk_with (log_file : Path) : gmap Path File :=
  <[log_file := mkFile (encode_utf8 "[FRAMEWORK] hello") "2025-10-18T09:00:00" None]>
    (<[alpha_objectives :=
         mkFile (encode_utf8 (Json.dumps_indent2_raw objectives_doc))
                "2025-10-01T09:00:00" (Some objectives_doc)]> ∅).

Definition state_with (log_file : Path) : State :=
  mkState (disk_with log_file)
          (list_to_set [work; logs; spaces; spaces ++ ["alpha"]])
          ∅ [] JNull [] [] [] [] [].

(** Before the first run: no checkpoint, no bundle, an empty database. *)
Definition state : State := state_with a_log.

(** The same installation with only the log file. *)
Definition log_only_state : State :=
  mkState (<[a_log := mkFile (encode_utf8 "[FRAMEWORK] hello") "2025-10-18T09:00:00" None]> ∅)
          (list_to_set [work; logs])
          ∅ [] JNull [] [] [] [] [].

(** A log file whose name mentions a foreign space. *)
Definition foreign_log : Path := logs ++ ["Shared-Space.log"].

(** Faults: the replacement of the checkpoint file fails. *)
Definition replace_fails : Faults :=
  mkFaults (λ _, None) (λ _, None) (λ _, Some (OSError "Device or resource busy"))
           (λ _, None) (λ _ _, None) (λ _, None) (λ _, None).

(** Faults: the manifest cannot be written. *)
Definition manifest_write_fails : Faults :=
  mkFaults (λ _, None)
           (λ p, if bool_decide (path_name p = "manifest.json")
                 then Some (OSError "No space left on device") else None)
           (λ _, None) (λ _, None) (λ _ _, None) (λ _, None) (λ _, None).

(** Faults: no directory can be removed. *)
Definition rmtree_fails : Faults :=
  mkFaults (λ _, None) (λ _, None) (λ _, None) (λ _, None) (λ _ _, None)
           (λ _, Some (OSError "Directory not empty")) (λ _, None).

(** An installation that still holds the bundle of week 1 of 2025. *)
Definition old_bundle : Path := work ++ ["human-ai-framework"; "week-2025-W01"].
Definition old_row : Row :=
  mkRow "2025-01-05T10:00:00" 1 17 "00" "{}".
Definition state_with_old_bundle : State :=
  mkState (<[old_bundle ++ ["manifest.json"] := mkFile [] "2025-01-05T10:00:00" None]>
             (disk_with a_log))
          (list_to_set [work; logs; spaces; spaces ++ ["alpha"];
                        work ++ ["human-ai-framework"]; old_bundle])
          {[ "2025-W01" := old_row ]} [] JNull [] [] [] [] [].

(** The state once [WeeklyCompiler(space_name)] has been constructed. *)
Definition constructed (e : Env) (st : State) : State :=
  (WeeklyCompiler e (SPACE_NAME e) st).1.

(** Two listings of one bundle directory. *)
Definition bundle : Path := work ++ ["human-ai-framework"; "week-2025-W42"].
Definition listing1 : list Path :=
  [bundle ++ ["copilot_logs"]; bundle ++ ["copilot_logs"; "a.log"];
   bundle ++ ["manifest.json"]].
Definition listing2 : list Path :=
  [bundle ++ ["manifest.json"]; bundle ++ ["copilot_logs"; "a.log"];
   bundle ++ ["copilot_logs"]].

End Demo.

(** Relations between the state before and the state after a statement. *)

(** The statement added events to the trace, all of them satisfying [P]. *)
Definition adds (P : io_event → Prop) : relation State :=
  λ st st', ∃ t, trace st' = trace st ++ t ∧ Forall P t.

(** The statement left the file at the absolute path [q] as it was. *)
Definition keeps_file (q : Path) : relation State :=
  λ st st', files st' !! q = files st !! q.

Definition is_replace (ev : io_event) : Prop :=
  match ev with EvReplace _ _ => True | _ => False end.

(** An event of an operation on which the environment injects no fault. *)
Definition permitted (env : Env) (ev : io_event) : Prop :=
  match ev with
  | EvWrite p _ _ => fault_write (faults env) (absolute env p) = None
  | EvSql op => fault_sql (faults env) op = None
  | _ => True
  end.

(** A write of a file named [manifest.json] writes the indented
    serialisation of a manifest whose [exclusivity_verified] is [True]. *)
Definition manifest_event_ok (ev : io_event) : Prop :=
  match ev with
  | EvWrite p text doc =>
      path_name p = "manifest.json" →
      ∃ m, doc = Some (JDict m) ∧ text = Json.dumps_indent2 (JDict m)
           ∧ dict_get "exclusivity_verified" m = Some (JBool true)
  | _ => True
  end.

(** The statements of [create_compilation] that precede the checkpoint
    save: the bundle directory, the copies, the manifest, the checksum,
    the database row and the audit log. *)
Definition build_bundle (env : Env) (data_sources : pydict) : M (Path * Z * Z) :=
  let compilation_dir := COMPILATION_DIR env // ["week-" +:+ week_id env] in
  mkdir env [COMPILATION_DIR env] compilation_dir ;;;
  let* r := for_fold data_sources ([], 0%Z, 0%Z) (compile_source env compilation_dir) in
  let '(sources_manifest, total_files, total_size) := r in
  let manifest := manifest_of env sources_manifest in
  let manifest_path := compilation_dir // ["manifest.json"] in
  write_text env manifest_path (Json.dumps_indent2 (JDict manifest)) (Some (JDict manifest)) ;;;
  let* st := get in
  let* compilation_checksum :=
    _calculate_compilation_checksum env compilation_dir (walk env st compilation_dir) in
  _update_compilation_database env (week_id env) total_files total_size
                               compilation_checksum manifest ;;;
  save_audit_log env compilation_dir ;;;
  ret (compilation_dir, total_files, total_size).

(** The statements of [create_compilation] that follow the checkpoint
    save. *)
Definition report_bundle (r : Path * Z * Z) : M Path :=
  let '(compilation_dir, total_files, total_size) := r in
  logger INFO ("Weekly compilation created: " +:+ path_str compilation_dir) ;;;
  logger INFO ("Files processed: " +:+ pretty total_files +:+ ", Total size: "
               +:+ pretty total_size +:+ " bytes") ;;;
  let* st := get in
  let* fs := get_item "files" (new_checkpoint st) in
  let* n := lift (match py_len fs with
                  | Some n => inr n
                  | None => inl (TypeError "object has no len()")
                  end) in
  logger INFO ("Checkpoint updated with " +:+ pretty n +:+ " files") ;;;
  ret compilation_dir.

(** The statements of [main] that precede [create_compilation]. *)
Definition prepare (env : Env) : M pydict :=
  logger INFO ("Starting weekly compilation for space: " +:+ SPACE_NAME env) ;;;
  WeeklyCompiler env (SPACE_NAME env) ;;;
  init_database env ;;;
  logger INFO "Collecting HUMAN AI FRAMEWORK exclusive data..." ;;;
  let* data_sources := collect_framework_data env in
  logger INFO "Creating weekly compilation package..." ;;;
  ret data_sources.

(** The statements of [main] that follow [cleanup_old_compilations]. *)
Definition print_summary (env : Env) (data_sources : pydict) (compilation_dir : Path) : M unit :=
  logger INFO ("Weekly compilation completed successfully: " +:+ path_str compilation_dir) ;;;
  let* files_processed := lift (sum_files_len (data_sources.*2)) in
  let summary :=
    JDict [("status", JStr "success");
           ("week_id", JStr (week_id env));
           ("compilation_dir", JStr (path_str compilation_dir));
           ("space_verified", JStr FRAMEWORK_SPACE);
           ("files_processed", JInt (Z.of_nat files_processed))] in
  modify (set_stdout (λ o, o ++ [Json.dumps_indent2 summary])).

(** An event on which no fault was injected and that is not the
    replacement of the checkpoint file. *)
Definition quiet (env : Env) (ev : io_event) : Prop :=
  permitted env ev ∧ ¬ is_replace ev.

(** The statement left the in-progress checkpoint as it was. *)
Definition keeps_new_checkpoint : relation State :=
  λ st st', new_checkpoint st' = new_checkpoint st.

(** The statement did not take away the dictionary of files of the
    in-progress checkpoint. *)
Definition keeps_has_files : relation State :=
  λ st st', (∃ fs, dict_get "files" (new_checkpoint st) = Some (JDict fs))
            → ∃ fs, dict_get "files" (new_checkpoint st') = Some (JDict fs).

(** The temporary file of [_save_checkpoint] and the file it writes. *)
Definition temp_file (env : Env) : Path := cwd env ++ ["last-run-checkpoint.tmp"].

Definition checkpoint_doc (env : Env) (ck : pydict) : File :=
  mkFile (encode_utf8 (checkpoint_text ck)) (compilation_date env) (Some (JDict ck)).

(** The manifest file of the bundle of this run. *)
Definition manifest_path (env : Env) : Path :=
  COMPILATION_DIR env // ["week-" +:+ week_id env] // ["manifest.json"].

(** The write of the manifest built from the per-source entries [sm]. *)
Definition manifest_written (env : Env) (sm : pydict) : io_event :=
  EvWrite (manifest_path env)
          (Json.dumps_indent2 (JDict (manifest_of env sm)))
          (Some (JDict (manifest_of env sm))).

(** The statements of [main] that follow the checkpoint save. *)
Definition after_save (env : Env) (data_sources : pydict) (r : Path * Z * Z) : M unit :=
  let* compilation_dir := report_bundle r in
  logger INFO "Cleaning up old compilations..." ;;;
  cleanup_old_compilations env ;;;
  print_summary env data_sources compilation_dir.

(** What [create_compilation] requires of the entry [d] of a source
    whose directory is [source_dir] when it copies [src] to [dst]: no
    [error] key, a status among the two copied ones, [src] the path of
    the entry, [dst] its name inside the source directory, and the two
    resolving to different files. *)
Definition copies_entry (env : Env) (source_dir : Path) (d : pydict) (src dst : Path) : Prop :=
  dict_has "error" d = false
  ∧ status_ok (default (JStr "unknown") (dict_get "status" d)) = true
  ∧ (∃ path, dict_get "path" d = Some (JStr path) ∧ src = path_of_str path)
  ∧ dst = source_dir // [path_name src]
  ∧ resolve env src ≠ resolve env dst.

(** A copy made by [create_compilation data_sources] is the copy of an
    entry of one of the sources. *)
Definition copy_justified (env : Env) (data_sources : pydict) (ev : io_event) : Prop :=
  match ev with
  | EvCopy src dst =>
      ∃ name sd fl entries d,
        (name, JDict sd) ∈ data_sources ∧ dict_get "files" sd = Some fl
        ∧ py_iter fl = Some entries ∧ JDict d ∈ entries
        ∧ copies_entry env (COMPILATION_DIR env // ["week-" +:+ week_id env] // [name])
                       d src dst
  | _ => True
  end.

(** The manifest record [rec] of the copy [ev] of an entry among
    [entries]: the original path, the path inside the bundle, and the
    size and hash of the entry. *)
Definition recorded (env : Env) (compilation_dir source_dir : Path) (entries : list json)
    (ev : io_event) (rec : json) : Prop :=
  match ev with
  | EvCopy src dst =>
      ∃ d rel size h,
        JDict d ∈ entries ∧ copies_entry env source_dir d src dst
        ∧ relative_to dst compilation_dir = Some rel
        ∧ dict_get "size" d = Some size ∧ dict_get "hash" d = Some h
        ∧ rec = JDict [("original_path", JStr (path_str src));
                       ("compiled_path", JStr (path_str rel));
                       ("size", size); ("hash", h)]
  | _ => False
  end.

(** The in-progress checkpoint has its dictionary of files. *)
Definition has_files (st : State) : Prop :=
  ∃ fs, dict_get "files" (new_checkpoint st) = Some (JDict fs).

(** The events a run added to the trace. *)
Definition added (before after : State) : list io_event :=
  drop (length (trace before)) (trace after).

Definition is_copy (ev : io_event) : bool :=
  match ev with EvCopy _ _ => true | _ => false end.

(** The statement left the component [proj] of the state as it was. *)
Definition keeps {A} (proj : State → A) : relation State :=
  λ st st', proj st' = proj st.

(** What is outside the compiler object and its log: the disk, the
    database, the standard output and the operations performed. *)
Definition outside (st : State) :=
  (files st, dirs st, compilations st, files_tracked st, stdout st, trace st).

(** The file at [p] can be opened and read. *)
Definition readable (env : Env) (st : State) (p : Path) : option File :=
  match fault_read (faults env) (absolute env p) with
  | Some _ => None
  | None => files st !! absolute env p
  end.

(** The environment [e] with the variable [SPACE_NAME] set to [name]. *)
Definition with_space_name (name : string) (e : Env) : Env :=
  mkEnv name (cwd e) (home e) (compilation_date e) (week_id e) (year_month e)
        (yyyymmdd e) (week_ago e) (cutoff_date e) (glob e) (rglob e) (iterdir e)
        (modified_since_week_ago e) (_validate_log_framework_content e)
        (_validate_file_framework_content e) (weekly_metrics e) (resolve e) (faults e).

(** The directory of the bundle of this run. *)
Definition bundle_dir (env : Env) : Path :=
  COMPILATION_DIR env // ["week-" +:+ week_id env].

(** The summary a completed run prints. *)
Definition summary_text (env : Env) (files_processed : nat) : string :=
  Json.dumps_indent2
    (JDict [("status", JStr "success");
            ("week_id", JStr (week_id env));
            ("compilation_dir", JStr (path_str (bundle_dir env)));
            ("space_verified", JStr FRAMEWORK_SPACE);
            ("files_processed", JInt (Z.of_nat files_processed))]).

(** The directory of the bundle of the week [week_id]. *)
Definition old_dir (env : Env) (week_id : string) : Path :=
  COMPILATION_DIR env // ["week-" +:+ week_id].

(** A row that the [SELECT] of [cleanup_old_compilations] returns. *)
Definition is_old (env : Env) (row : Row) : bool :=
  String.ltb (row_compilation_date row) (cutoff_date env).


(** The number of copies among the events [t]. *)
Definition copies_in (t : list io_event) : Z :=
  Z.of_nat (length (filter (λ ev, is_copy ev = true) t)).

Definition not_copy (ev : io_event) : Prop := is_copy ev = false.

(** The statement added no row to the table [files_tracked]. *)
Definition tracks_no_more : relation State :=
  λ st st', files_tracked st' `sublist_of` files_tracked st.

(** [self.new_checkpoint["files"].get(key)] *)
Definition checkpoint_entry (st : State) (key : string) : option json :=
  match dict_get "files" (new_checkpoint st) with
  | Some (JDict fs) => dict_get key fs
  | _ => None
  end.

(** The in-progress checkpoint holds a checksum for the file [p]. *)
Definition in_checkpoint (env : Env) (st : State) (p : Path) : Prop :=
  ∃ c, checkpoint_entry st (path_str (absolute env p)) = Some (JStr c).

(** An entry of a gated collector: a dictionary for a file [p] that the
    in-progress checkpoint holds, with the status [new_or_changed], no
    [error] key, and the path of [p] as the collector shows it (as
    globbed, or relative to the working directory). *)
Definition gated_entry (env : Env) (st : State) (entry : json) : Prop :=
  ∃ fi p shown,
    entry = JDict fi
    ∧ dict_get "path" fi = Some (JStr shown)
    ∧ (shown = path_str p
       ∨ ∃ rel, relative_to p (cwd env) = Some rel ∧ shown = path_str rel)
    ∧ dict_get "status" fi = Some (JStr "new_or_changed")
    ∧ dict_has "error" fi = false
    ∧ in_checkpoint env st p.

(** The statement kept the dictionary of files of the in-progress
    checkpoint and the files it holds. *)
Definition checkpoint_grows (env : Env) : relation State :=
  λ st st', (has_files st → has_files st')
            ∧ ∀ p, in_checkpoint env st p → in_checkpoint env st' p.

(** Every checksum the in-progress checkpoint holds differs from the one
    the loaded checkpoint holds for the same file. *)
Definition only_changed (st : State) : Prop :=
  ∀ key c old,
    checkpoint_entry st key = Some c →
    get_files (checkpoint st) = Some (JDict old) →
    dict_get key old ≠ Some c.

(** The statement kept the loaded checkpoint, and recorded no checksum
    that the loaded checkpoint holds. *)
Definition records_changes : relation State :=
  λ st st', checkpoint st' = checkpoint st ∧ (only_changed st → only_changed st').

(** The audit file of the bundle of this run. *)
Definition audit_file (env : Env) : Path :=
  bundle_dir env // ["audit-" +:+ yyyymmdd env +:+ ".json"].

(** The invariant of the loops of the gated collectors: the in-progress
    checkpoint has its dictionary of files, and holds every file of the
    entries collected so far. *)
Definition collected (env : Env) (entries : list json) (st : State) : Prop :=
  has_files st ∧ Forall (gated_entry env st) entries.

(** More installations, for concrete runs. *)
Module Cases.

(** A checkpoint file whose [files] is a list. *)
Definition list_checkpoint : pydict := [("files", JList [])].
Definition state_with_list_checkpoint : State :=
  set_files <[Demo.work ++ ["last-run-checkpoint.json"] :=
                mkFile (encode_utf8 (Json.dumps_indent2_raw (JDict list_checkpoint)))
                       "2025-10-12T10:00:00" (Some (JDict list_checkpoint))]>
            Demo.state.

(** The space [alpha] with objectives that do not name their space. *)
Definition bare_objectives : pydict := [("goal", JStr "ship")].
Definition bare_file : File :=
  mkFile (encode_utf8 (Json.dumps_indent2_raw (JDict bare_objectives)))
         "2025-10-01T09:00:00" (Some (JDict bare_objectives)).
Definition state_with_bare_objectives : State :=
  set_files <[Demo.alpha_objectives := bare_file]> Demo.state.

(** A run started from another space. *)
Definition outsider : Env := with_space_name "general-space" Demo.env.

(** The first run of the installation, up to the end of the collection. *)
Definition collected_run : State * (exn + pydict) := prepare Demo.env Demo.state.
Definition sources : pydict :=
  match collected_run.2 return pydict with inr ds => ds | inl _ => [] end.

End Cases.
(* ===================================================================== *)
(** ** Properties of the helpers *)
(* ===================================================================== *)

(** A run whose outcome is [r] is the pair of its final state and [r]; an
    outcome that is a value is that value. *)
Lemma run_with_result {A} (c : State * (exn + A)) (r : exn + A) :
  c.2 = r → c = (c.1, r).
Proof. destruct c as [st r']. cbn [fst snd]. by intros ->. Qed.

Lemma inr_result {A} (d : A) (r : exn + A) :
  (if r is inr _ then true else false) = true →
  r = inr (match r with inr a => a | inl _ => d end).
Proof. by destruct r. Qed.

Ltac returns := apply run_with_result; vm_compute; reflexivity.
Ltac returns_a_value := apply run_with_result, inr_result; vm_compute; reflexivity.

Example sha256_abc :
  Sha256.hexdigest (encode_utf8 "abc")
  = "ba7816bf8f01cfea414140de5dae2223b00361a396177a9cb410ff61f20015ad".
Proof. vm_compute. reflexivity. Qed.

Example sha256_empty :
  Sha256.hexdigest []
  = "e3b0c44298fc1c149afbf4c8996fb92427ae41e4649b934ca495991b7852b855".
Proof. vm_compute. reflexivity. Qed.

Example dumps_flat :
  Json.dumps (JDict [("files", JList [JDict [("path", JStr "a/B.log"); ("size", JInt 12)]]);
                     ("note", JNull); ("ok", JBool true)])
  = "{" +:+ Json.quote true "files" +:+ ": [{" +:+ Json.quote true "path" +:+ ": "
    +:+ Json.quote true "a/B.log" +:+ ", " +:+ Json.quote true "size" +:+ ": 12}], "
    +:+ Json.quote true "note" +:+ ": null, " +:+ Json.quote true "ok" +:+ ": true}".
Proof. vm_compute. reflexivity. Qed.

Example path_examples :
  path_str ["/"; "work"; "logs"; "a.log"] = "/work/logs/a.log"
  ∧ path_of_str "/work//logs/./a.log" = ["/"; "work"; "logs"; "a.log"]
  ∧ path_of_str "human-ai-framework/x.json" = ["human-ai-framework"; "x.json"]
  ∧ with_suffix ["/"; "work"; "last-run-checkpoint.json"] ".tmp"
    = Some ["/"; "work"; "last-run-checkpoint.tmp"]
  ∧ with_suffix ["/"; "work"; ".env"] ".tmp" = Some ["/"; "work"; ".env.tmp"]
  ∧ relative_to ["/"; "w"; "week"; "src"; "f"] ["/"; "w"; "week"] = Some ["src"; "f"]
  ∧ sorted_paths [["a-b"]; ["a"; "b"]; ["a"]] = [["a"]; ["a"; "b"]; ["a-b"]].
Proof. vm_compute. repeat split. Qed.

Section TextFacts.

Lemma append_nil_l s : EmptyString +:+ s = s.
Proof. reflexivity. Qed.

Lemma append_cons c s t : String c s +:+ t = String c (s +:+ t).
Proof. reflexivity. Qed.

Lemma append_empty_r s : s +:+ EmptyString = s.
Proof. induction s as [|c s IH]; [done | by rewrite append_cons, IH]. Qed.

Lemma append_assoc s1 s2 s3 : (s1 +:+ s2) +:+ s3 = s1 +:+ (s2 +:+ s3).
Proof. induction s1 as [|c s1 IH]; [done | by rewrite !append_cons, IH]. Qed.

Lemma starts_with_spec p s : starts_with p s = true ↔ ∃ r, s = p +:+ r.
Proof.
  revert s. induction p as [|a p IH]; intros s; simpl.
  - split; [intros _; by exists s | done].
  - destruct s as [|b s].
    + split; [done | intros [r Hr]; discriminate].
    + setoid_rewrite append_cons.
      destruct (decide (a = b)) as [->|Hne].
      * rewrite IH. split; intros [r Hr]; exists r; [by rewrite Hr | by injection Hr].
      * split; [done | intros [r Hr]; injection Hr; intros; congruence].
Qed.

Lemma contains_spec needle hay :
  contains needle hay = true ↔ ∃ a b, hay = a +:+ needle +:+ b.
Proof.
  induction hay as [|c hay IH].
  - simpl. rewrite orb_false_r, starts_with_spec. split.
    + intros [r Hr]. by exists EmptyString, r.
    + intros (a & b & Hab). destruct a; [by exists b | discriminate].
  - cbn [contains]. rewrite orb_true_iff, starts_with_spec, IH. split.
    + intros [[r Hr] | (a & b & Hab)].
      * by exists EmptyString, r.
      * exists (String c a), b. by rewrite append_cons, Hab.
    + intros (a & b & Hab). destruct a as [|c' a].
      * left. by exists b.
      * right. exists a, b. rewrite append_cons in Hab. by injection Hab.
Qed.

Lemma lower_app s1 s2 : lower (s1 +:+ s2) = lower s1 +:+ lower s2.
Proof.
  induction s1 as [|c s1 IH]; [done|].
  rewrite append_cons. simpl. by rewrite append_cons, IH.
Qed.

Lemma lower_app_inv s u v :
  lower s = u +:+ v → ∃ s1 s2, s = s1 +:+ s2 ∧ lower s1 = u ∧ lower s2 = v.
Proof.
  revert s. induction u as [|c u IH]; intros s Hs.
  - by exists EmptyString, s.
  - destruct s as [|d s]; [discriminate|].
    simpl in Hs. rewrite append_cons in Hs. injection Hs as Hc Hr.
    destruct (IH _ Hr) as (s1 & s2 & -> & <- & <-).
    exists (String d s1), s2. simpl. by rewrite Hc.
Qed.

Lemma contains_lower_ci marker s :
  contains (lower marker) (lower s) = true ↔ contains_ci marker s.
Proof.
  rewrite contains_spec. split.
  - intros (a & b & Hab).
    apply lower_app_inv in Hab as (s1 & s2 & -> & <- & H2).
    apply lower_app_inv in H2 as (x & s3 & -> & Hx & <-).
    by exists s1, x, s3.
  - intros (a & x & b & -> & Hx).
    exists (lower a), (lower b). by rewrite !lower_app, Hx.
Qed.

End TextFacts.

Section DictFacts.

Lemma dict_get_set_eq k v d : dict_get k (dict_set k v d) = Some v.
Proof.
  induction d as [|[k' v'] d IH]; simpl.
  - by rewrite decide_True.
  - destruct (decide (k = k')) as [->|Hne]; simpl.
    + by rewrite decide_True.
    + by rewrite decide_False.
Qed.

Lemma dict_get_set_ne k k' v d : k ≠ k' → dict_get k' (dict_set k v d) = dict_get k' d.
Proof.
  intros Hne. induction d as [|[k2 v2] d IH]; simpl.
  - by rewrite decide_False.
  - destruct (decide (k = k2)) as [->|Hne2]; simpl.
    + by rewrite !decide_False.
    + destruct (decide (k' = k2)); [done | apply IH].
Qed.

Lemma dict_set_keys k v d : dict_has k d = true → (dict_set k v d).*1 = d.*1.
Proof.
  unfold dict_has. induction d as [|[k2 v2] d IH]; simpl; [done|].
  destruct (decide (k = k2)) as [->|Hne]; [done|].
  intros H. rewrite !fmap_cons. f_equal. by apply IH.
Qed.

Lemma dict_get_Some_elem k v d : dict_get k d = Some v → (k, v) ∈ d.
Proof.
  induction d as [|[k2 v2] d IH]; simpl; [done|].
  destruct (decide (k = k2)) as [->|Hne].
  - intros [= ->]. left.
  - intros H. right. by apply IH.
Qed.

End DictFacts.

Section ChunkFacts.

Lemma read_chunks_fuel_concat fuel n content :
  0 < n → length content ≤ fuel →
  concat (read_chunks_fuel fuel n content) = content.
Proof.
  intros Hn. revert content. induction fuel as [|fuel IH]; intros content Hlen.
  - destruct content; [done | simpl in Hlen; lia].
  - cbn [read_chunks_fuel]. destruct (take n content) as [|b chunk] eqn:Htake.
    + destruct content as [|x content]; [done|].
      destruct n; [lia | discriminate].
    + cbn [concat]. rewrite IH.
      * rewrite <- Htake. apply take_drop.
      * rewrite length_drop.
        destruct content as [|x content]; [by destruct n|]. simpl in *. lia.
Qed.

Lemma fold_update h chunks : fold_left Hashlib.update chunks h = h ++ concat chunks.
Proof.
  revert h. induction chunks as [|c chunks IH]; intros h; simpl.
  - by rewrite app_nil_r.
  - rewrite IH. unfold Hashlib.update. by rewrite <- app_assoc.
Qed.

(** Reading a file in chunks feeds exactly its content to the hash. *)
Lemma hash_file_into_app h n content :
  0 < n → hash_file_into h n content = h ++ content.
Proof.
  intros Hn. unfold hash_file_into, read_chunks.
  by rewrite fold_update, read_chunks_fuel_concat.
Qed.

End ChunkFacts.

Section PathOrder.

Lemma parts_leb_refl a : parts_leb a a = true.
Proof. induction a as [|x a IH]; simpl; [done | by rewrite bool_decide_true]. Qed.

#[global] Instance path_le_total : Total path_le.
Proof.
  intros a. unfold path_le. induction a as [|x a IH]; intros [|y b]; simpl; auto.
  destruct (decide (x = y)) as [->|Hne].
  - rewrite !bool_decide_true by done. apply IH.
  - rewrite !bool_decide_false by congruence.
    destruct (String.leb_total x y); auto.
Qed.

#[global] Instance path_le_antisymm : AntiSymm (=) path_le.
Proof.
  intros a. unfold path_le. induction a as [|x a IH]; intros [|y b]; simpl; try done.
  destruct (decide (x = y)) as [->|Hne].
  - rewrite !bool_decide_true by done. intros H1 H2. f_equal. by apply IH.
  - rewrite !bool_decide_false by congruence. intros H1 H2.
    destruct Hne. by apply String.leb_antisym.
Qed.

#[global] Instance path_le_trans : Transitive path_le.
Proof.
  intros a. unfold path_le. induction a as [|x a IH]; intros [|y b] [|z c]; simpl; try done.
  destruct (decide (x = y)) as [->|Hxy].
  - rewrite (bool_decide_true (y = y)) by done.
    destruct (decide (y = z)) as [->|Hyz].
    + rewrite !bool_decide_true by done. apply IH.
    + rewrite !bool_decide_false by done. done.
  - rewrite (bool_decide_false (x = y)) by done.
    destruct (decide (y = z)) as [->|Hyz].
    + rewrite bool_decide_true by done. by rewrite bool_decide_false by done.
    + rewrite (bool_decide_false (y = z)) by done. intros H1 H2.
      assert (String.le x z) as Hxz.
      { etrans; apply Is_true_true; eassumption. }
      destruct (decide (x = z)) as [->|Hxz'].
      * destruct Hxy. by apply String.leb_antisym.
      * rewrite bool_decide_false by done. by apply Is_true_true.
Qed.

(** Sorting does not depend on the order in which a listing comes. *)
Lemma sorted_paths_perm l1 l2 : l1 ≡ₚ l2 → sorted_paths l1 = sorted_paths l2.
Proof.
  intros Hp. unfold sorted_paths.
  apply (Sorted_unique path_le).
  - apply Sorted_merge_sort, _.
  - apply Sorted_merge_sort, _.
  - by rewrite !merge_sort_Permutation.
Qed.

End PathOrder.

(* ===================================================================== *)
(** ** Reasoning about statements *)
(* ===================================================================== *)

Section MonadFacts.

Context {A B : Type}.

Lemma bind_inv (c : M A) (k : A → M B) st st' r :
  bind c k st = (st', r) →
  (∃ st1 a, c st = (st1, inr a) ∧ k a st1 = (st', r))
  ∨ (∃ e, c st = (st', inl e) ∧ r = inl e).
Proof.
  unfold bind. destruct (c st) as [st1 [e|a]] eqn:Hc; intros H.
  - right. exists e. by simplify_eq.
  - left. by exists st1, a.
Qed.

Lemma bind_inr (c : M A) (k : A → M B) st st1 a :
  c st = (st1, inr a) → bind c k st = k a st1.
Proof. unfold bind. by intros ->. Qed.

Lemma bind_inl (c : M A) (k : A → M B) st st1 e :
  c st = (st1, inl e) → bind c k st = (st1, inl e).
Proof. unfold bind. by intros ->. Qed.

Lemma try_except_inv (c : M A) (h : exn → M A) st st' r :
  try_except c h st = (st', r) →
  (∃ a, c st = (st', inr a) ∧ r = inr a)
  ∨ (∃ st1 e, c st = (st1, inl e) ∧ h e st1 = (st', r)).
Proof.
  unfold try_except. destruct (c st) as [st1 [e|a]] eqn:Hc; intros H.
  - right. by exists st1, e.
  - left. exists a. by simplify_eq.
Qed.

End MonadFacts.

Section Steps.

Context (R : relation State) `{!PreOrder R}.

Lemma steps_ret {A} (a : A) : steps R (ret a).
Proof. intros st st' r [= <- _]. reflexivity. Qed.

Lemma steps_raise {A} e : steps R (raise (A:=A) e).
Proof. intros st st' r [= <- _]. reflexivity. Qed.

Lemma steps_get : steps R get.
Proof. intros st st' r [= <- _]. reflexivity. Qed.

Lemma steps_modify f : (∀ st, R st (f st)) → steps R (modify f).
Proof. intros Hf st st' r [= <- _]. apply Hf. Qed.

Lemma steps_bind {A B} (c : M A) (k : A → M B) :
  steps R c → (∀ a, steps R (k a)) → steps R (bind c k).
Proof.
  intros Hc Hk st st' r H.
  apply bind_inv in H as [(st1 & a & H1 & H2) | (e & H1 & _)].
  - etrans; [by eapply Hc | by eapply Hk].
  - by eapply Hc.
Qed.

Lemma steps_try_except {A} (c : M A) h :
  steps R c → (∀ e, steps R (h e)) → steps R (try_except c h).
Proof.
  intros Hc Hh st st' r H.
  apply try_except_inv in H as [(a & H1 & _) | (st1 & e & H1 & H2)].
  - by eapply Hc.
  - etrans; [by eapply Hc | by eapply Hh].
Qed.

Lemma steps_for_fold {A S} (l : list A) (acc : S) body :
  (∀ x acc, x ∈ l → steps R (body x acc)) → steps R (for_fold l acc body).
Proof.
  revert acc. induction l as [|x l IH]; intros acc Hb; simpl.
  - apply steps_ret.
  - apply steps_bind; [apply Hb; left|].
    intros acc'. apply IH. intros y acc'' Hy. apply Hb. by right.
Qed.

Lemma steps_for_each {A} (l : list A) body :
  (∀ x, x ∈ l → steps R (body x)) → steps R (for_each l body).
Proof.
  induction l as [|x l IH]; intros Hb; simpl.
  - apply steps_ret.
  - apply steps_bind; [apply Hb; left|].
    intros _. apply IH. intros y Hy. apply Hb. by right.
Qed.

Lemma steps_fault f : steps R (fault f).
Proof. destruct f; [apply steps_raise | apply steps_ret]. Qed.

Lemma steps_fault_bind {A} f (k : unit → M A) :
  (f = None → steps R (k tt)) → steps R (bind (fault f) k).
Proof.
  intros Hk. destruct f as [e|]; [|by apply Hk].
  intros st st' r [= <- _]. reflexivity.
Qed.

Lemma steps_lift_bind {A B} (r : exn + A) (k : A → M B) :
  (∀ a, r = inr a → steps R (k a)) → steps R (bind (lift r) k).
Proof.
  intros Hk. destruct r as [e|a]; [|by apply Hk].
  intros st st' r [= <- _]. reflexivity.
Qed.

Lemma steps_get_item_bind {B} key d (k : json → M B) :
  (∀ v, dict_get key d = Some v → steps R (k v)) → steps R (bind (get_item key d) k).
Proof.
  intros Hk. unfold get_item. destruct (dict_get key d) as [v|]; [by apply Hk|].
  intros st st' r [= <- _]. reflexivity.
Qed.

Lemma steps_lift {A} (r : exn + A) : steps R (lift r).
Proof. destruct r; [apply steps_raise | apply steps_ret]. Qed.

Lemma steps_get_item k d : steps R (get_item k d).
Proof. unfold get_item. destruct (dict_get k d); [apply steps_ret | apply steps_raise]. Qed.

End Steps.

#[global] Instance adds_preorder P : PreOrder (adds P).
Proof.
  split.
  - intros st. exists []. by rewrite app_nil_r.
  - intros st1 st2 st3 (t1 & H1 & F1) (t2 & H2 & F2).
    exists (t1 ++ t2). split; [by rewrite H2, H1, app_assoc | by apply Forall_app].
Qed.

#[global] Instance keeps_new_checkpoint_preorder : PreOrder keeps_new_checkpoint.
Proof.
  split; [by intros st|].
  intros st1 st2 st3 H1 H2. unfold keeps_new_checkpoint in *. congruence.
Qed.

#[global] Instance keeps_has_files_preorder : PreOrder keeps_has_files.
Proof.
  split; [intros st H; exact H|].
  intros st1 st2 st3 H1 H2 H. by apply H2, H1.
Qed.

#[global] Instance keeps_file_preorder q : PreOrder (keeps_file q).
Proof.
  split; [by intros st|].
  intros st1 st2 st3 H1 H2. unfold keeps_file in *. congruence.
Qed.

(** One structural step of a proof of [steps R c]. *)
Ltac steps_rule lem := simple apply lem; [tc_solve|..].

Ltac steps_step :=
  lazymatch goal with
  | |- steps _ (bind (fault _) _) => steps_rule @steps_fault_bind; intros ?
  | |- steps _ (bind (lift _) _) => steps_rule @steps_lift_bind; intros ? ?
  | |- steps _ (bind (get_item _ _) _) => steps_rule @steps_get_item_bind; intros ? ?
  | |- steps _ (bind _ _) => steps_rule @steps_bind; [|intros ?]
  | |- steps _ (ret _) => steps_rule @steps_ret
  | |- steps _ (raise _) => steps_rule @steps_raise
  | |- steps _ get => steps_rule @steps_get
  | |- steps _ (fault _) => steps_rule @steps_fault
  | |- steps _ (lift _) => steps_rule @steps_lift
  | |- steps _ (get_item _ _) => steps_rule @steps_get_item
  | |- steps _ (try_except _ _) => steps_rule @steps_try_except; [|intros ?]
  | |- steps _ (for_fold _ _ _) => steps_rule @steps_for_fold; intros ? ? ?
  | |- steps _ (for_each _ _) => steps_rule @steps_for_each; intros ? ?
  | |- steps _ (if ?b then _ else _) => destruct b eqn:?
  | |- steps _ (match ?x with _ => _ end) => destruct x eqn:?
  | |- steps _ ((match ?x with _ => _ end) _) => destruct x eqn:?
  end.

Ltac head_of t :=
  lazymatch t with
  | ?f _ => head_of f
  | _ => t
  end.

(** Descend into a statement: structural rules first, then the definition
    of the function at the head. *)
Ltac steps_descend :=
  repeat first
    [ steps_step
    | lazymatch goal with
      | |- steps _ (modify _) => fail
      | |- steps _ ?c => let h := head_of c in unfold h
      end ].

Section Exclusivity.

Lemma prohibited_lowercase m : m ∈ prohibited_spaces → lower m = m.
Proof.
  unfold prohibited_spaces. rewrite !elem_of_cons, elem_of_nil.
  intros [->|[->|[->|[->|[->|[]]]]]]; reflexivity.
Qed.

Lemma first_prohibited_None s :
  first_prohibited s = None ↔ ∀ m, m ∈ prohibited_spaces → contains m s = false.
Proof.
  unfold first_prohibited. split.
  - intros H m Hm. apply (find_none _ _ H). by apply list_elem_of_In.
  - intros H. destruct (find _ _) as [m|] eqn:Hf; [|done].
    apply find_some in Hf as [Hin Hc]. apply list_elem_of_In in Hin.
    rewrite (H m Hin) in Hc. discriminate.
Qed.

Lemma is_exclusive_false_iff d :
  is_exclusive (JDict d) = false
  ↔ ∃ m, m ∈ prohibited_spaces ∧ contains_ci m (Json.dumps (JDict d)).
Proof.
  unfold is_exclusive.
  destruct (first_prohibited _) as [m|] eqn:Hf.
  - split; [intros _ | done].
    apply find_some in Hf as [Hin Hc]. apply list_elem_of_In in Hin.
    exists m. split; [done|]. apply contains_lower_ci.
    by rewrite (prohibited_lowercase m Hin).
  - split; [done|]. intros (m & Hin & Hc).
    apply contains_lower_ci in Hc. rewrite (prohibited_lowercase m Hin) in Hc.
    rewrite first_prohibited_None in Hf. rewrite (Hf m Hin) in Hc. discriminate.
Qed.

Lemma validate_returns data st :
  ∃ st', _validate_data_exclusivity data st = (st', inr (is_exclusive data)).
Proof.
  unfold _validate_data_exclusivity, is_exclusive.
  destruct data; try by eexists.
  destruct (first_prohibited _); by eexists.
Qed.

Lemma dict_set_app_fresh k v x (pre post : pydict) :
  k ∉ pre.*1 → dict_set k v (pre ++ (k, x) :: post) = pre ++ (k, v) :: post.
Proof.
  induction pre as [|[k' v'] pre IH]; simpl; intros Hk.
  - by rewrite decide_True.
  - rewrite not_elem_of_cons in Hk. destruct Hk as [Hne Hk].
    rewrite decide_False by done. by rewrite IH.
Qed.

Lemma validate_body name data (acc : pydict) st :
  ∃ st',
    (if truthy data then
       let* ok := _validate_data_exclusivity data in
       if ok then ret acc
       else
         logger WARNING ("Data source " +:+ name +:+ " failed exclusivity validation") ;;;
         ret (dict_set name exclusivity_marker acc)
     else ret acc) st
    = (st', inr (if failing data then dict_set name exclusivity_marker acc else acc)).
Proof.
  unfold failing. destruct (truthy data); [|by eexists].
  destruct (validate_returns data st) as [st1 Hv].
  rewrite (bind_inr _ _ _ _ _ Hv).
  destruct (is_exclusive data); by eexists.
Qed.

Lemma validate_loop (pre l : pydict) st :
  NoDup (pre ++ l).*1 →
  ∃ st', for_fold l (pre ++ l)
           (λ '(source_name, source_data) data_sources,
              if truthy source_data then
                let* ok := _validate_data_exclusivity source_data in
                if ok then ret data_sources
                else
                  logger WARNING ("Data source " +:+ source_name
                                  +:+ " failed exclusivity validation") ;;;
                  ret (dict_set source_name exclusivity_marker data_sources)
              else ret data_sources) st
         = (st', inr (pre ++ (guard_source <$> l))).
Proof.
  revert pre st. induction l as [|[name data] l IH]; intros pre st Hnd.
  - eexists. reflexivity.
  - assert (name ∉ pre.*1) as Hfresh.
    { rewrite fmap_app, fmap_cons in Hnd. apply NoDup_app in Hnd as (_ & Hd & _).
      intros Hin. apply (Hd _ Hin). left. }
    cbn [for_fold].
    destruct (validate_body name data (pre ++ (name, data) :: l) st) as [st1 Hb].
    rewrite (bind_inr _ _ _ _ _ Hb).
    assert ((if failing data
             then dict_set name exclusivity_marker (pre ++ (name, data) :: l)
             else pre ++ (name, data) :: l)
            = (pre ++ [guard_source (name, data)]) ++ l) as ->.
    { unfold guard_source. cbn [fst snd].
      destruct (failing data).
      - rewrite dict_set_app_fresh by done. by rewrite <- app_assoc.
      - by rewrite <- app_assoc. }
    destruct (IH (pre ++ [guard_source (name, data)]) st1) as [st' H'].
    { rewrite <- app_assoc. cbn [app]. rewrite !fmap_app, !fmap_cons in *. done. }
    exists st'. rewrite H'. by rewrite <- app_assoc.
Qed.

Lemma validate_sources_spec (ds : pydict) st :
  NoDup ds.*1 → ∃ st', validate_sources ds st = (st', inr (guard_source <$> ds)).
Proof. intros Hnd. apply (validate_loop [] ds st Hnd). Qed.

Lemma validate_sources_total (ds : pydict) st :
  ∃ st' ds', validate_sources ds st = (st', inr ds').
Proof.
  unfold validate_sources. generalize ds at 2. revert st.
  induction ds as [|[name data] l IH]; intros st acc; cbn [for_fold].
  - by eexists _, _.
  - destruct (validate_body name data acc st) as [st1 Hb].
    rewrite (bind_inr _ _ _ _ _ Hb). apply IH.
Qed.

Lemma collect_sources_keys env st st1 ds :
  collect_sources env st = (st1, inr ds) →
  ds.*1 = ["copilot_logs"; "conversation_data"; "framework_configs";
           "weekly_metrics"; "exclusive_content"; "objectives_sync"].
Proof.
  unfold collect_sources. intros H.
  repeat (apply bind_inv in H as [(? & ? & _ & H) | (? & _ & ?)]; [|discriminate]).
  by injection H as _ <-.
Qed.

End Exclusivity.

Lemma collect_framework_data_guarded env st st' out :
  collect_framework_data env st = (st', inr out) →
  ∃ st1 ds, collect_sources env st = (st1, inr ds) ∧ out = guard_source <$> ds.
Proof.
  intros H. unfold collect_framework_data in H.
  apply bind_inv in H as [(st1 & ds & Hc & H) | (? & _ & ?)]; [|discriminate].
  exists st1, ds. split; [done|].
  destruct (validate_sources_spec ds st1) as [st2 Hv].
  { rewrite (collect_sources_keys _ _ _ _ Hc). by compute_done. }
  rewrite (bind_inr _ _ _ _ _ Hv) in H.
  destruct (sum_files_len _); [discriminate|].
  apply bind_inv in H as [(? & ? & _ & H) | (? & _ & ?)]; [|discriminate].
  by injection H as _ <-.
Qed.

(** C6. The exclusivity validator returns a value for every source
    record, and that value is false exactly when the serialised record
    contains a marker of the denylist, up to the case of letters.  The
    validation loop never raises, and the sources [collect_framework_data]
    returns are the collected ones with the error marker in place of each
    record that failed, every other record unchanged. *)
Theorem C6_exclusivity_validation (env : Env) :
  (∀ d st, ∃ st', _validate_data_exclusivity (JDict d) st
                  = (st', inr (is_exclusive (JDict d))))
  ∧ (∀ d, is_exclusive (JDict d) = false
          ↔ ∃ m, m ∈ prohibited_spaces ∧ contains_ci m (Json.dumps (JDict d)))
  ∧ (∀ ds st, ∃ st' ds', validate_sources ds st = (st', inr ds'))
  ∧ (∀ st st' out,
       collect_framework_data env st = (st', inr out) →
       ∃ st1 ds, collect_sources env st = (st1, inr ds) ∧ out = guard_source <$> ds).
Proof.
  split; [intros d st; apply validate_returns|].
  split; [apply is_exclusive_false_iff|].
  split; [apply validate_sources_total|].
  apply collect_framework_data_guarded.
Qed.

Section Checksum.

Variable env : Env.

Lemma read_bytes_inr p st st' c :
  read_bytes env p st = (st', inr c) →
  st' = st ∧ ∃ f, files st !! absolute env p = Some f ∧ c = f_content f.
Proof.
  unfold read_bytes, stat, fault. intros H.
  apply bind_inv in H as [(st1 & [] & H1 & H) | (? & _ & ?)]; [|discriminate].
  assert (st1 = st) as ->.
  { destruct (fault_read _ _); [discriminate | by injection H1]. }
  apply bind_inv in H as [(st2 & f & H2 & H) | (? & _ & ?)]; [|discriminate].
  apply bind_inv in H2 as [(st3 & s & H3 & H2) | (? & _ & ?)]; [|discriminate].
  injection H3 as <- <-.
  destruct (files st !! absolute env p) as [f'|] eqn:Hf; [|discriminate].
  injection H2 as <- <-. injection H as <- <-. eauto.
Qed.

Lemma checksum_loop dir l h st st' h' :
  for_fold l h
    (λ file_path hash_sha256,
       let* st := get in
       if is_file env st file_path then
         let* rel := lift (match relative_to file_path dir with
                           | Some rel => inr rel
                           | None => inl (ValueError "is not in the subpath")
                           end) in
         let hash_sha256 := Hashlib.update hash_sha256 (encode_utf8 (path_str rel)) in
         let* content := read_bytes env file_path in
         ret (hash_file_into hash_sha256 4096 content)
       else ret hash_sha256) st = (st', inr h') →
  st' = st
  ∧ h' = h ++ flat_map (λ p, match files st !! absolute env p, relative_to p dir with
                             | Some f, Some rel => encode_utf8 (path_str rel) ++ f_content f
                             | _, _ => []
                             end) l.
Proof.
  revert h st. induction l as [|p l IH]; intros h st H.
  - injection H as <- <-. by rewrite app_nil_r.
  - cbn [for_fold flat_map] in *.
    apply bind_inv in H as [(st1 & h1 & Hb & H) | (? & _ & ?)]; [|discriminate].
    assert (st1 = st ∧ h1 = h ++ match files st !! absolute env p, relative_to p dir with
                                 | Some f, Some rel => encode_utf8 (path_str rel) ++ f_content f
                                 | _, _ => []
                                 end) as [-> ->].
    { apply bind_inv in Hb as [(st2 & s & Hg & Hb) | (? & _ & ?)]; [|discriminate].
      injection Hg as <- <-. unfold is_file in Hb.
      destruct (files st !! absolute env p) as [f|] eqn:Hf.
      - rewrite bool_decide_true in Hb by eauto.
        destruct (relative_to p dir) as [rel|]; [|discriminate].
        apply bind_inv in Hb as [(st3 & rel' & Hl & Hb) | (? & _ & ?)]; [|discriminate].
        injection Hl as <- <-.
        apply bind_inv in Hb as [(st4 & c & Hr & Hb) | (? & _ & ?)]; [|discriminate].
        apply read_bytes_inr in Hr as (-> & f' & Hf' & ->).
        injection Hb as <- <-. split; [done|]. simplify_eq.
        rewrite hash_file_into_app by lia. unfold Hashlib.update.
        by rewrite <- app_assoc.
      - rewrite bool_decide_false in Hb by (intros [? ?]; done).
        injection Hb as <- <-. by rewrite app_nil_r. }
    apply IH in H as [-> ->]. split; [done|]. by rewrite <- app_assoc.
Qed.

End Checksum.

(** C8. The bundle checksum does not depend on the order in which the
    bundle directory is enumerated: two listings of the same entries
    give the same result; and whenever it is returned, the checksum is
    the SHA-256 digest of one byte sequence, the relative path and the
    content of every regular file taken in sorted path order. *)
Theorem C8_checksum_deterministic (env : Env) (compilation_dir : Path) (st : State)
    (e1 e2 : list Path) :
  e1 ≡ₚ e2 →
  _calculate_compilation_checksum env compilation_dir e1 st
  = _calculate_compilation_checksum env compilation_dir e2 st
  ∧ ∀ st' c,
      _calculate_compilation_checksum env compilation_dir e1 st = (st', inr c) →
      c = Sha256.hexdigest (bundle_bytes env st compilation_dir e1).
Proof.
  intros Hp. split.
  - unfold _calculate_compilation_checksum. by rewrite (sorted_paths_perm _ _ Hp).
  - intros st' c H. unfold _calculate_compilation_checksum in H.
    apply bind_inv in H as [(st1 & h & Hl & H) | (? & _ & ?)]; [|discriminate].
    apply checksum_loop in Hl as [-> ->].
    apply bind_inv in H as [(? & ? & _ & H) | (? & _ & ?)]; [|discriminate].
    injection H as _ <-. reflexivity.
Qed.

Lemma C6_exclusivity_validation_witness :
  ∃ st' out,
    collect_framework_data (Demo.env_with Demo.foreign_log no_faults)
                           (Demo.constructed (Demo.env_with Demo.foreign_log no_faults) (Demo.state_with Demo.foreign_log)) = (st', inr out)
    ∧ dict_get "copilot_logs" out = Some exclusivity_marker
    ∧ ∃ st1 ds, collect_sources (Demo.env_with Demo.foreign_log no_faults)
                                (Demo.constructed (Demo.env_with Demo.foreign_log no_faults) (Demo.state_with Demo.foreign_log)) = (st1, inr ds)
                ∧ out = guard_source <$> ds.
Proof.
  pose (e := Demo.env_with Demo.foreign_log no_faults).
  pose (s := Demo.constructed e (Demo.state_with Demo.foreign_log)).
  pose (p := collect_framework_data e s).
  exists p.1, (match p.2 return pydict with inr d => d | inl _ => [] end).
  split; [returns_a_value|].
  split; [vm_compute; reflexivity|].
  apply (proj2 (proj2 (proj2 (C6_exclusivity_validation e))) s p.1).
  returns_a_value.
Defined.

Lemma C8_checksum_deterministic_witness :
  Demo.listing1 ≡ₚ Demo.listing2
  ∧ _calculate_compilation_checksum Demo.env Demo.bundle Demo.listing1 (main Demo.env Demo.state).1
    = _calculate_compilation_checksum Demo.env Demo.bundle Demo.listing2 (main Demo.env Demo.state).1.
Proof.
  assert (Demo.listing1 ≡ₚ Demo.listing2) as Hp.
  { unfold Demo.listing1, Demo.listing2.
    apply (Permutation_cons_app [_; _] [] _). apply (Permutation_cons_app [_] [] _).
    reflexivity. }
  split; [exact Hp|].
  apply (C8_checksum_deterministic _ _ _ _ _ Hp).
Defined.


Section PathFacts.

Lemma path_div_single a x : x ≠ "/" → a // [x] = a ++ [x].
Proof. intros Hx. unfold path_div, is_absolute. by rewrite bool_decide_false. Qed.

Lemma path_name_snoc a x : x ≠ "/" → path_name (a ++ [x]) = x.
Proof. intros Hx. unfold path_name. rewrite last_snoc. by rewrite bool_decide_false. Qed.

Lemma path_name_div a x : path_name (a // [x]) = if bool_decide (x = "/") then EmptyString else x.
Proof.
  unfold path_div, is_absolute, path_name.
  destruct (bool_decide (x = "/")) eqn:Hx.
  - simpl. by rewrite Hx.
  - rewrite last_snoc. by rewrite Hx.
Qed.

Lemma path_name_not_root p : path_name p ≠ "/".
Proof.
  unfold path_name. destruct (last p) as [n|]; [|done].
  destruct (bool_decide (n = "/")) eqn:Hn; [done|].
  by apply bool_decide_eq_false in Hn.
Qed.

Variable env : Env.

Lemma checkpoint_file_eq : checkpoint_file env = cwd env ++ ["last-run-checkpoint.json"].
Proof. unfold checkpoint_file. by apply path_div_single. Qed.

Lemma COMPILATION_DIR_eq : COMPILATION_DIR env = cwd env ++ ["human-ai-framework"].
Proof. unfold COMPILATION_DIR. by apply path_div_single. Qed.

Lemma temp_file_eq :
  with_suffix (checkpoint_file env) ".tmp" = Some (cwd env ++ ["last-run-checkpoint.tmp"]).
Proof.
  rewrite checkpoint_file_eq. unfold with_suffix.
  rewrite path_name_snoc by done. by rewrite removelast_last.
Qed.

End PathFacts.

Section TraceFacts.

Variable P : io_event → Prop.

Lemma adds_emit ev st : P ev → adds P st (set_trace (λ t, t ++ [ev]) st).
Proof. intros HP. exists [ev]. split; [done | by constructor]. Qed.

Lemma adds_same st st' : trace st' = trace st → adds P st st'.
Proof. intros H. exists []. split; [by rewrite app_nil_r | constructor]. Qed.

End TraceFacts.

(** A leaf of a proof of [steps (adds P) c]: an emitted event leaves the
    obligation [P ev], any other update of the state leaves nothing. *)
Ltac adds_leaf :=
  lazymatch goal with
  | |- steps (adds _) (modify (set_trace _)) =>
      apply steps_modify; intros ?; apply adds_emit
  | |- steps (adds _) (modify _) =>
      apply steps_modify; intros ?; apply adds_same; reflexivity
  end.

Section Manifest.

Variable env : Env.

Lemma create_compilation_manifest_ok ds :
  steps (adds manifest_event_ok) (create_compilation env ds).
Proof.
  steps_descend; try adds_leaf; try exact I.
  - intros _. exists (manifest_of env l). by repeat split.
  - intros Hname. rewrite path_name_div in Hname.
    rewrite !append_cons in Hname. by rewrite bool_decide_false in Hname.
  - match goal with Hs : with_suffix _ _ = Some _ |- _ =>
      rewrite temp_file_eq in Hs; injection Hs as <- end.
    intros Hname. by rewrite path_name_snoc in Hname.
Qed.

End Manifest.

Section MonadLaws.

Lemma bind_assoc {A B C} (c : M A) (k : A → M B) (h : B → M C) st :
  bind (bind c k) h st = bind c (λ a, bind (k a) h) st.
Proof. unfold bind. by destruct (c st) as [? [?|?]]. Qed.

Lemma bind_ext {A B} (c : M A) (k k' : A → M B) st :
  (∀ a st', k a st' = k' a st') → bind c k st = bind c k' st.
Proof. intros H. unfold bind. destruct (c st) as [? [?|?]]; [done | apply H]. Qed.

End MonadLaws.

(** Equality of two runs that differ in the nesting of their
    sequencing. *)
Ltac same_runs :=
  repeat first
    [ reflexivity
    | rewrite bind_assoc
    | apply bind_ext; intros ? ?
    | match goal with |- context [let (_, _) := ?x in _] => destruct x end ].

Section Decompose.

Variable env : Env.

Lemma create_compilation_eq ds st :
  create_compilation env ds st
  = (let* r := build_bundle env ds in _save_checkpoint env ;;; report_bundle r) st.
Proof.
  symmetry. unfold create_compilation, build_bundle, report_bundle.
  same_runs.
Qed.

Lemma main_body_eq st :
  main_body env (SPACE_NAME env) st
  = (let* data_sources := prepare env in
     let* compilation_dir := create_compilation env data_sources in
     logger INFO "Cleaning up old compilations..." ;;;
     cleanup_old_compilations env ;;;
     print_summary env data_sources compilation_dir) st.
Proof.
  symmetry. unfold main_body, prepare, print_summary.
  same_runs.
Qed.

End Decompose.

(** A leaf of a proof of [steps keeps_new_checkpoint c] or of
    [steps (keeps_file q) c] that does not touch the component. *)
Ltac same_leaf :=
  lazymatch goal with
  | |- steps _ (modify _) => apply steps_modify; intros ?; reflexivity
  end.

Ltac quiet_leaf :=
  lazymatch goal with
  | |- steps (adds _) (modify (set_trace _)) =>
      apply steps_modify; intros ?; apply adds_emit; split; [simpl; try done | simpl; tauto]
  | |- steps (adds _) (modify _) =>
      apply steps_modify; intros ?; apply adds_same; reflexivity
  end.

Section Quiet.

Variable env : Env.

Lemma prepare_quiet : steps (adds (quiet env)) (prepare env).
Proof. steps_descend; quiet_leaf. Qed.

Lemma build_bundle_quiet ds : steps (adds (quiet env)) (build_bundle env ds).
Proof. steps_descend; quiet_leaf. Qed.

Lemma report_bundle_quiet r : steps (adds (quiet env)) (report_bundle r).
Proof. steps_descend; quiet_leaf. Qed.

Lemma cleanup_quiet : steps (adds (quiet env)) (cleanup_old_compilations env).
Proof. steps_descend; quiet_leaf. Qed.

Lemma print_summary_quiet ds dir : steps (adds (quiet env)) (print_summary env ds dir).
Proof. steps_descend; quiet_leaf. Qed.

Lemma save_permitted : steps (adds (permitted env)) (_save_checkpoint env).
Proof.
  steps_descend;
    lazymatch goal with
    | |- steps (adds _) (modify (set_trace _)) =>
        apply steps_modify; intros ?; apply adds_emit; simpl; try done
    | |- steps (adds _) (modify _) =>
        apply steps_modify; intros ?; apply adds_same; reflexivity
    end.
Qed.

End Quiet.

Section OtherName.

Variable env : Env.

Lemma last_absolute p x : last (absolute env (p ++ [x])) = Some x.
Proof.
  unfold absolute, path_div.
  destruct (is_absolute (p ++ [x])); [|rewrite app_assoc]; apply last_snoc.
Qed.

(** A path with another name is not the checkpoint file. *)
Lemma other_name p x :
  x ≠ "last-run-checkpoint.json" → absolute env (p ++ [x]) ≠ absolute env (checkpoint_file env).
Proof.
  intros Hx Heq. apply (f_equal last) in Heq.
  rewrite checkpoint_file_eq, !last_absolute in Heq. congruence.
Qed.

End OtherName.

Section Disjoint.

Variable env : Env.
Hypothesis Habs : is_absolute (cwd env) = true.

Lemma is_absolute_app p l : is_absolute p = true → is_absolute (p ++ l) = true.
Proof. by destruct p. Qed.

Lemma absolute_cwd_app l : absolute env (cwd env ++ l) = cwd env ++ l.
Proof. unfold absolute, path_div. by rewrite is_absolute_app. Qed.

Lemma checkpoint_abs :
  absolute env (checkpoint_file env) = cwd env ++ ["last-run-checkpoint.json"].
Proof. by rewrite checkpoint_file_eq, absolute_cwd_app. Qed.


(** Nothing inside the compilation directory is the checkpoint file. *)
Lemma inside_compilation_dir l :
  absolute env (COMPILATION_DIR env ++ l) ≠ absolute env (checkpoint_file env).
Proof.
  rewrite COMPILATION_DIR_eq, <- app_assoc, absolute_cwd_app, checkpoint_abs.
  intros Heq. apply app_inv_head in Heq. destruct l; discriminate.
Qed.

Lemma relative_to_app c p b : relative_to (c ++ p) (c ++ b) = relative_to p b.
Proof. induction c as [|x c IH]; simpl; [done | by rewrite bool_decide_true]. Qed.

Lemma checkpoint_not_under week :
  is_under (absolute env (COMPILATION_DIR env // ["week-" +:+ week]))
           (absolute env (checkpoint_file env)) = false.
Proof.
  rewrite path_div_single by (rewrite append_cons; discriminate).
  rewrite COMPILATION_DIR_eq, <- app_assoc, absolute_cwd_app, checkpoint_abs.
  unfold is_under. by rewrite relative_to_app.
Qed.

Lemma lookup_filter_outside (d q : Path) (m : gmap Path File) :
  is_under d q = false → filter (λ kv, is_under d kv.1 = false) m !! q = m !! q.
Proof.
  intros HP. destruct (m !! q) as [v|] eqn:Hm.
  - by apply map_lookup_filter_Some.
  - apply map_lookup_filter_None. by left.
Qed.

Abbreviation ck := (absolute env (checkpoint_file env)).

Ltac keeps_leaf :=
  lazymatch goal with
  | |- steps _ (modify (set_files _)) =>
      apply steps_modify; intros ?; unfold keeps_file; cbn [files set_files]
  | |- steps _ (modify _) => apply steps_modify; intros ?; reflexivity
  end.

Lemma prepare_keeps : steps (keeps_file ck) (prepare env).
Proof.
  steps_descend; keeps_leaf.
  apply lookup_insert_ne.
  rewrite path_div_single by done. by apply other_name.
Qed.

Lemma report_bundle_keeps r : steps (keeps_file ck) (report_bundle r).
Proof. steps_descend; keeps_leaf. Qed.

Lemma print_summary_keeps ds dir : steps (keeps_file ck) (print_summary env ds dir).
Proof. steps_descend; keeps_leaf. Qed.

Lemma cleanup_keeps : steps (keeps_file ck) (cleanup_old_compilations env).
Proof.
  steps_descend; keeps_leaf.
  apply lookup_filter_outside, checkpoint_not_under.
Qed.

Lemma build_bundle_keeps ds :
  Forall (λ name, name ≠ "/") ds.*1 → steps (keeps_file ck) (build_bundle env ds).
Proof.
  intros Hnames.
  steps_descend; keeps_leaf.
  all: apply lookup_insert_ne.
  all: rewrite (path_div_single _ ("week-" +:+ _)) by (rewrite append_cons; discriminate).
  - match goal with Hin : (?s, _) ∈ ds |- _ =>
      assert (s ≠ "/") as Hs
        by (rewrite Forall_forall in Hnames; apply Hnames;
            apply list_elem_of_fmap; by eexists (_, _))
    end.
    rewrite (path_div_single _ s) by done.
    rewrite path_div_single by apply path_name_not_root.
    rewrite <- !app_assoc. apply inside_compilation_dir.
  - rewrite path_div_single by done.
    rewrite <- !app_assoc. apply inside_compilation_dir.
  - rewrite path_div_single by (rewrite append_cons; discriminate).
    rewrite <- !app_assoc. apply inside_compilation_dir.
Qed.

End Disjoint.

Lemma adds_weaken (P Q : io_event → Prop) st st' :
  (∀ ev, P ev → Q ev) → adds P st st' → adds Q st st'.
Proof. intros HPQ (t & Ht & HF). exists t. split; [done|]. eapply Forall_impl; eauto. Qed.

Lemma adds_added P st st' : adds P st st' → trace st' = trace st ++ added st st' ∧ Forall P (added st st').
Proof.
  intros (t & Ht & HF). unfold added. rewrite Ht, drop_app_length. done.
Qed.

Section HasFiles.

Variable env : Env.

Ltac has_files_leaf :=
  lazymatch goal with
  | |- steps keeps_has_files (modify (set_new_checkpoint _)) =>
      apply steps_modify; intros ? _; eexists; cbn [new_checkpoint set_new_checkpoint];
      apply dict_get_set_eq
  | |- steps keeps_has_files (modify _) =>
      apply steps_modify; intros ? Hhf; exact Hhf
  end.

Lemma prepare_tail_has_files :
  steps keeps_has_files
    (init_database env ;;;
     logger INFO "Collecting HUMAN AI FRAMEWORK exclusive data..." ;;;
     let* data_sources := collect_framework_data env in
     logger INFO "Creating weekly compilation package..." ;;;
     ret data_sources).
Proof. steps_descend; has_files_leaf. Qed.

Lemma validate_access_keeps name :
  steps keeps_new_checkpoint (validate_framework_access env name).
Proof. steps_descend; same_leaf. Qed.

Lemma WeeklyCompiler_has_files name st st' r :
  WeeklyCompiler env name st = (st', r) → has_files st'.
Proof.
  unfold WeeklyCompiler. intros H.
  apply bind_inv in H as [(st1 & [] & H1 & H) | (? & H1 & ?)]; [|discriminate].
  apply bind_inv in H as [(st2 & ck & H2 & H) | (e & H2 & ?)].
  2:{ exfalso. revert H2. unfold _load_checkpoint.
      intros H2. apply bind_inv in H2 as [(st3 & s & Hg & H2) | (? & ? & ?)]; [|discriminate].
      repeat (match type of H2 with
              | context [match ?x with _ => _ end] => destruct x
              end); try discriminate;
      apply bind_inv in H2 as [(? & ? & ? & H2) | (? & ? & ?)]; discriminate. }
  apply bind_inv in H as [(st3 & [] & H3 & H) | (? & H3 & ?)]; [|discriminate].
  apply bind_inv in H as [(st4 & [] & H4 & H) | (? & H4 & ?)]; [|discriminate].
  injection H4 as <-.
  assert (new_checkpoint st' = new_checkpoint (set_new_checkpoint (λ _, [("files", JDict []); ("timestamp", JStr (compilation_date env)); ("week_id", JStr (week_id env))]) st3)) as Hn.
  { apply bind_inv in H as [(st5 & ok & H5 & H) | (e & H5 & ?)].
    - apply validate_access_keeps in H5. rewrite <- H5.
      destruct ok; injection H as <-; reflexivity.
    - apply validate_access_keeps in H5. exact H5. }
  unfold has_files. rewrite Hn. by eexists.
Qed.

Lemma prepare_has_files st st1 ds :
  prepare env st = (st1, inr ds) → has_files st1.
Proof.
  unfold prepare. intros H.
  apply bind_inv in H as [(sta & [] & _ & H) | (? & _ & ?)]; [|discriminate].
  apply bind_inv in H as [(stb & [] & Hw & H) | (? & _ & ?)]; [|discriminate].
  apply WeeklyCompiler_has_files in Hw.
  apply prepare_tail_has_files in H. exact (H Hw).
Qed.

Lemma prepare_names st st1 ds :
  prepare env st = (st1, inr ds) → Forall (λ name, name ≠ "/") ds.*1.
Proof.
  unfold prepare. intros H.
  repeat (apply bind_inv in H as [(? & [] & _ & H) | (? & _ & ?)]; [|discriminate]).
  apply bind_inv in H as [(stc & out & Hc & H) | (? & _ & ?)]; [|discriminate].
  apply bind_inv in H as [(? & [] & _ & H) | (? & _ & ?)]; [|discriminate].
  injection H as _ <-.
  apply collect_framework_data_guarded in Hc as (st2 & ds0 & Hs & ->).
  rewrite <- list_fmap_compose.
  replace (fst ∘ guard_source) with (fst : string * json → string) by done.
  rewrite (collect_sources_keys _ _ _ _ Hs).
  repeat constructor; discriminate.
Qed.

End HasFiles.

Section Save.

Variable env : Env.

Abbreviation ck := (absolute env (checkpoint_file env)).
Abbreviation tmp := (absolute env (temp_file env)).

(** The three ways [_save_checkpoint] can go. *)
Lemma save_run st fs :
  dict_get "files" (new_checkpoint st) = Some (JDict fs) →
  _save_checkpoint env st =
  let file := checkpoint_doc env (new_checkpoint st) in
  let written :=
    emit (EvWrite (temp_file env) (checkpoint_text (new_checkpoint st))
                  (Some (JDict (new_checkpoint st))))
         (set_files <[tmp := file]> st) in
  match fault_write (faults env) tmp with
  | Some e => logger ERROR ("Failed to save checkpoint: " +:+ exn_msg e) st
  | None =>
      match fault_replace (faults env) ck with
      | Some e => logger ERROR ("Failed to save checkpoint: " +:+ exn_msg e) written.1
      | None =>
          logger INFO ("Checkpoint saved with " +:+ pretty (length fs) +:+ " files")
            (set_trace (λ t, t ++ [EvReplace (temp_file env) (checkpoint_file env)])
               (set_files (λ m, <[ck := file]> (delete tmp m)) written.1))
      end
  end.
Proof.
  intros Hfs. unfold _save_checkpoint. rewrite temp_file_eq.
  unfold write_text, temp_file.
  destruct (fault_write _ _) as [e|]; [done|].
  destruct (fault_replace _ _) as [e|]; [done|].
  cbv [try_except bind fault get emit modify ret].
  cbn [files set_files set_trace fst snd]. rewrite lookup_insert_eq.
  cbn [new_checkpoint set_files set_trace]. rewrite Hfs. reflexivity.
Qed.

End Save.

Section Structure.

Variable env : Env.

Lemma main_body_stages st :
  main_body env (SPACE_NAME env) st
  = (let* data_sources := prepare env in
     let* r := build_bundle env data_sources in
     _save_checkpoint env ;;; after_save env data_sources r) st.
Proof.
  rewrite main_body_eq. apply bind_ext. intros ds st1.
  unfold bind at 1. rewrite create_compilation_eq.
  unfold after_save, bind.
  destruct (build_bundle env ds st1) as [st2 [e|r]]; [done|].
  destruct (_save_checkpoint env st2) as [st3 [e|[]]]; [done|].
  by destruct (report_bundle r st3) as [st4 [e|dir]].
Qed.

Lemma write_text_inr p text doc st st' u :
  write_text env p text doc st = (st', inr u) →
  st' = set_trace (λ t, t ++ [EvWrite p text doc])
          (set_files <[absolute env p := mkFile (encode_utf8 text) (compilation_date env) doc]> st).
Proof.
  unfold write_text, fault. destruct (fault_write _ _); [discriminate|].
  by intros [= <- _].
Qed.

Lemma upsert_inr wk n s c m st st' u :
  _update_compilation_database env wk n s c m st = (st', inr u) →
  trace st' = trace st ++ [EvSql (SqlUpsert wk)].
Proof.
  unfold _update_compilation_database, fault. destruct (fault_sql _ _); [discriminate|].
  by intros [= <- _].
Qed.

Lemma checksum_inr dir l st st' c :
  _calculate_compilation_checksum env dir l st = (st', inr c) →
  trace st' = trace st ++ [EvChecksum c].
Proof.
  unfold _calculate_compilation_checksum. intros H.
  apply bind_inv in H as [(st1 & h & Hl & H) | (? & _ & ?)]; [|discriminate].
  apply checksum_loop in Hl as [-> ->].
  by injection H as <- <-.
Qed.

Lemma adds_trace P {A} (c : M A) st st' r :
  steps (adds P) c → c st = (st', r) → ∃ t, trace st' = trace st ++ t ∧ Forall P t.
Proof. intros Hs Hc. exact (Hs _ _ _ Hc). Qed.

Lemma build_bundle_success ds st st1 r :
  build_bundle env ds st = (st1, inr r) →
  ∃ t0 sm c t1,
    trace st1 = trace st ++ t0 ++ [manifest_written env sm; EvChecksum c;
                                   EvSql (SqlUpsert (week_id env))] ++ t1.
Proof.
  unfold build_bundle. intros H.
  apply bind_inv in H as [(sta & [] & Ha & H) | (? & _ & ?)]; [|discriminate].
  apply (adds_trace (quiet env)) in Ha as (ta & Hta & _); [|steps_descend; quiet_leaf].
  apply bind_inv in H as [(stb & [[sm tf] ts] & Hb & H) | (? & _ & ?)]; [|discriminate].
  apply (adds_trace (quiet env)) in Hb as (tb & Htb & _); [|steps_descend; quiet_leaf].
  apply bind_inv in H as [(stc & [] & Hc & H) | (? & _ & ?)]; [|discriminate].
  apply write_text_inr in Hc.
  apply bind_inv in H as [(std & s & Hg & H) | (? & _ & ?)]; [|discriminate].
  injection Hg as <- <-.
  apply bind_inv in H as [(ste & c & He & H) | (? & _ & ?)]; [|discriminate].
  apply checksum_inr in He.
  apply bind_inv in H as [(stf & [] & Hf & H) | (? & _ & ?)]; [|discriminate].
  apply upsert_inr in Hf.
  apply bind_inv in H as [(stg & [] & Hg & H) | (? & _ & ?)]; [|discriminate].
  apply (adds_trace (quiet env)) in Hg as (tg & Htg & _); [|steps_descend; quiet_leaf].
  injection H as <- _.
  exists (ta ++ tb), sm, c, tg.
  rewrite Htg, Hf, He, Hc. cbn [trace set_trace set_files]. rewrite Htb, Hta.
  unfold manifest_written, manifest_path. by rewrite <- !app_assoc.
Qed.

End Structure.

Section Run.

Variable env : Env.
Hypothesis Habs : is_absolute (cwd env) = true.

Abbreviation ck := (absolute env (checkpoint_file env)).

Lemma quiet_no_replace t src dst :
  Forall (quiet env) t → EvReplace src dst ∈ t → False.
Proof.
  intros HF Hin. rewrite Forall_forall in HF.
  destruct (HF _ Hin) as [_ Hn]. by apply Hn.
Qed.

Lemma quiet_permitted t : Forall (quiet env) t → Forall (permitted env) t.
Proof. intros HF. eapply Forall_impl; [exact HF | by intros ev [? _]]. Qed.

Lemma build_bundle_keeps_new ds : steps keeps_new_checkpoint (build_bundle env ds).
Proof. steps_descend; same_leaf. Qed.

Lemma after_save_quiet ds r : steps (adds (quiet env)) (after_save env ds r).
Proof. steps_descend; quiet_leaf. Qed.

Lemma after_save_keeps ds r : steps (keeps_file ck) (after_save env ds r).
Proof.
  unfold after_save.
  steps_rule @steps_bind; [apply report_bundle_keeps | intros dir].
  steps_rule @steps_bind; [steps_descend; same_leaf | intros _].
  steps_rule @steps_bind; [by apply cleanup_keeps | intros _].
  apply print_summary_keeps.
Qed.

(** The two outcomes of the save that matter to the rest of the run:
    the checkpoint file was replaced, after the temporary file was
    written, or it was left as it was. *)
Lemma save_cases st st' r :
  has_files st → _save_checkpoint env st = (st', r) →
  r = inr tt
  ∧ ( (∃ text doc,
         trace st' = trace st ++ [EvWrite (temp_file env) text doc;
                                  EvReplace (temp_file env) (checkpoint_file env)]
         ∧ permitted env (EvWrite (temp_file env) text doc))
      ∨ (∃ ts, trace st' = trace st ++ ts ∧ Forall (quiet env) ts
               ∧ files st' !! ck = files st !! ck) ).
Proof.
  intros [fs Hfs] H. rewrite (save_run env st fs Hfs) in H. cbv zeta in H.
  destruct (fault_write _ _) as [e|] eqn:Hw.
  - injection H as <- <-. split; [done|]. right. exists [].
    split; [by rewrite app_nil_r|]. split; [constructor | done].
  - destruct (fault_replace _ _) as [e|] eqn:Hr.
    + injection H as <- <-. split; [done|]. right.
      eexists [_]. split; [reflexivity|]. split.
      * constructor; [|constructor]. split; [exact Hw | by intros []].
      * cbn [files set_files set_log set_trace fst emit modify].
        apply lookup_insert_ne. unfold temp_file. by apply other_name.
    + injection H as <- <-. split; [done|]. left.
      eexists _, _. split; [|exact Hw].
      cbn [trace set_files set_log set_trace fst emit modify].
      by rewrite <- app_assoc.
Qed.

Lemma main_body_events st stb r :
  main_body env (SPACE_NAME env) st = (stb, r) →
  ∃ t, trace stb = trace st ++ t
       ∧ Forall (permitted env) t
       ∧ (∀ src dst, EvReplace src dst ∈ t →
            ∃ sm c, [manifest_written env sm; EvChecksum c;
                     EvSql (SqlUpsert (week_id env)); EvReplace src dst] `sublist_of` t)
       ∧ ((∀ src dst, EvReplace src dst ∉ t) → files stb !! ck = files st !! ck)
       ∧ (∀ u, r = inr u →
            ∃ sm c, [manifest_written env sm; EvChecksum c;
                     EvSql (SqlUpsert (week_id env))] `sublist_of` t).
Proof.
  rewrite main_body_stages. intros H.
  apply bind_inv in H as [(st1 & ds & Hp & H) | (e & Hp & ->)].
  2:{ destruct (prepare_quiet env _ _ _ Hp) as (tp & Htp & Fp).
      exists tp. split; [done|]. split; [by apply quiet_permitted|].
      split; [intros ?? Hin; by destruct (quiet_no_replace _ _ _ Fp Hin)|].
      split; [|intros ? [=]].
      intros _. exact (prepare_keeps env _ _ _ Hp). }
  destruct (prepare_quiet env _ _ _ Hp) as (tp & Htp & Fp).
  pose proof (prepare_keeps env _ _ _ Hp) as Kp.
  pose proof (prepare_has_files env _ _ _ Hp) as Hhf.
  pose proof (prepare_names env _ _ _ Hp) as Hnames.
  apply bind_inv in H as [(st2 & rb & Hb & H) | (e & Hb & ->)].
  2:{ destruct (build_bundle_quiet env _ _ _ _ Hb) as (tb & Htb & Fb).
      exists (tp ++ tb). split; [by rewrite Htb, Htp, app_assoc|].
      split; [apply quiet_permitted; by apply Forall_app|].
      split; [intros ?? Hin; exfalso; eapply quiet_no_replace; [|exact Hin]; by apply Forall_app|].
      split; [|intros ? [=]].
      intros _. etrans; [exact (build_bundle_keeps env Habs _ Hnames _ _ _ Hb) | exact Kp]. }
  destruct (build_bundle_quiet env _ _ _ _ Hb) as (tb & Htb & Fb).
  pose proof (build_bundle_keeps env Habs _ Hnames _ _ _ Hb) as Kb.
  pose proof (build_bundle_keeps_new _ _ _ _ Hb) as Nb.
  destruct (build_bundle_success env _ _ _ _ Hb) as (t0 & sm & c & t1 & Hsucc).
  assert (tb = t0 ++ [manifest_written env sm; EvChecksum c;
                      EvSql (SqlUpsert (week_id env))] ++ t1) as Htb'.
  { rewrite Htb in Hsucc. by apply app_inv_head in Hsucc. }
  assert (has_files st2) as Hhf2 by (unfold has_files; by rewrite Nb).
  assert (∀ rest, [manifest_written env sm; EvChecksum c; EvSql (SqlUpsert (week_id env))]
                  `sublist_of` tp ++ tb ++ rest) as Hsub.
  { intros rest. apply sublist_inserts_l, sublist_inserts_r. rewrite Htb'.
    apply sublist_inserts_l, sublist_inserts_r. reflexivity. }
  apply bind_inv in H as [(st3 & [] & Hs & H) | (e & Hs & _)].
  2:{ by destruct (save_cases _ _ _ Hhf2 Hs) as [? _]. }
  destruct (after_save_quiet _ _ _ _ _ H) as (ta & Hta & Fa).
  pose proof (after_save_keeps _ _ _ _ _ H) as Ka.
  destruct (save_cases _ _ _ Hhf2 Hs) as [_ [(text & doc & Hts & Hperm) | (ts & Hts & Fs & Ks)]].
  - exists (tp ++ tb ++ [EvWrite (temp_file env) text doc;
                         EvReplace (temp_file env) (checkpoint_file env)] ++ ta).
    split; [by rewrite Hta, Hts, Htb, Htp, <- !app_assoc|].
    split.
    { repeat apply Forall_app_2; try by apply quiet_permitted.
      constructor; [done|]. constructor; [exact I | constructor]. }
    split.
    + intros src dst Hin. exists sm, c.
      rewrite !elem_of_app in Hin.
      destruct Hin as [Hin|[Hin|[Hin|Hin]]];
        try by (exfalso; eapply quiet_no_replace; [|exact Hin]).
      rewrite !elem_of_cons, elem_of_nil in Hin.
      destruct Hin as [Hin|[Hin|[]]]; [discriminate|]. injection Hin as -> ->.
      apply sublist_inserts_l. rewrite Htb'.
      change [manifest_written env sm; EvChecksum c; EvSql (SqlUpsert (week_id env));
              EvReplace (temp_file env) (checkpoint_file env)]
        with ([manifest_written env sm; EvChecksum c; EvSql (SqlUpsert (week_id env))]
              ++ [EvReplace (temp_file env) (checkpoint_file env)]).
      apply sublist_app.
      * apply sublist_inserts_l, sublist_inserts_r. reflexivity.
      * apply sublist_inserts_r, sublist_cons. reflexivity.
    + split; [|intros _ _; exists sm, c; apply Hsub].
      intros Hno. exfalso. apply (Hno (temp_file env) (checkpoint_file env)).
      rewrite !elem_of_app. right. right. left. right. left.
  - exists (tp ++ tb ++ ts ++ ta).
    split; [by rewrite Hta, Hts, Htb, Htp, <- !app_assoc|].
    split; [apply quiet_permitted; by repeat apply Forall_app_2|].
    split; [intros ?? Hin; exfalso; eapply quiet_no_replace; [|exact Hin];
            by repeat apply Forall_app_2|].
    split; [|intros _ _; exists sm, c; apply Hsub].
    intros _. unfold keeps_file in *. congruence.
Qed.

Lemma main_after_body st :
  ∃ stb r, main_body env (SPACE_NAME env) st = (stb, r)
           ∧ trace (main env st).1 = trace stb
           ∧ files (main env st).1 = files stb
           ∧ stdout (main env st).1 = stdout stb
           ∧ (main env st).2 = (if r is inl _ then 1 else 0)%Z.
Proof.
  unfold main. destruct (main_body env (SPACE_NAME env) st) as [stb [e|u]].
  - exists stb, (inl e). by destruct (is_permission_error e).
  - by exists stb, (inr u).
Qed.

End Run.

(** C2. In every run, the checkpoint file is replaced only after the
    manifest has been written, the bundle checksum computed and the
    database row written, in this order; every recorded operation is one
    on which no fault was injected; and a run without the replacement
    leaves the checkpoint file as it was.  So when the manifest write or
    the database write fails, the checkpoint file is not replaced, it is
    left as it was, and the run exits with status 1. *)
Theorem C2_checkpoint_saved_only_after_bundle (env : Env) (st : State) :
  is_absolute (cwd env) = true →
  ∃ t, trace (main env st).1 = trace st ++ t
       ∧ Forall (permitted env) t
       ∧ (∀ src dst, EvReplace src dst ∈ t →
            ∃ sm c, [manifest_written env sm; EvChecksum c;
                     EvSql (SqlUpsert (week_id env)); EvReplace src dst] `sublist_of` t)
       ∧ ((∀ src dst, EvReplace src dst ∉ t) →
            files (main env st).1 !! absolute env (checkpoint_file env)
            = files st !! absolute env (checkpoint_file env))
       ∧ (fault_write (faults env) (absolute env (manifest_path env)) ≠ None
          ∨ fault_sql (faults env) (SqlUpsert (week_id env)) ≠ None →
          (∀ src dst, EvReplace src dst ∉ t)
          ∧ files (main env st).1 !! absolute env (checkpoint_file env)
            = files st !! absolute env (checkpoint_file env)
          ∧ (main env st).2 = 1%Z).
Proof.
  intros Habs.
  destruct (main_after_body env st) as (stb & r & Hb & Ht & Hf & _ & Hcode).
  destruct (main_body_events env Habs _ _ _ Hb) as (t & Htr & Hperm & Hord & Hkeep & Hok).
  exists t. rewrite Ht, Hf. split; [done|]. split; [done|]. split; [done|]. split; [done|].
  intros Hfault.
  assert (∀ sm c, [manifest_written env sm; EvChecksum c; EvSql (SqlUpsert (week_id env))]
                  `sublist_of` t → False) as Hnot.
  { intros sm c Hsub. rewrite Forall_forall in Hperm.
    destruct Hfault as [Hw|Hs].
    - apply Hw. apply (Hperm (manifest_written env sm)).
      eapply elem_of_sublist; [|exact Hsub]. left.
    - apply Hs. apply (Hperm (EvSql (SqlUpsert (week_id env)))).
      eapply elem_of_sublist; [|exact Hsub]. right. right. left. }
  assert (∀ src dst, EvReplace src dst ∉ t) as Hno.
  { intros src dst Hin. destruct (Hord _ _ Hin) as (sm & c & Hsub).
    apply (Hnot sm c). etrans; [|exact Hsub].
    do 3 apply sublist_skip. apply sublist_cons, sublist_nil. }
  split; [done|]. split; [by apply Hkeep|].
  rewrite Hcode. destruct r as [e|u]; [done|].
  destruct (Hok u eq_refl) as (sm & c & Hsub). by destruct (Hnot sm c).
Qed.

Lemma C2_checkpoint_saved_only_after_bundle_witness :
  is_absolute (cwd (Demo.env_with Demo.a_log Demo.manifest_write_fails)) = true
  ∧ ∃ t, trace (main (Demo.env_with Demo.a_log Demo.manifest_write_fails) Demo.state).1
         = trace Demo.state ++ t
         ∧ (∀ src dst, EvReplace src dst ∉ t).
Proof.
  split; [reflexivity|].
  destruct (C2_checkpoint_saved_only_after_bundle
              (Demo.env_with Demo.a_log Demo.manifest_write_fails) Demo.state eq_refl)
    as (t & Ht & _ & _ & _ & Hfault).
  exists t. split; [exact Ht|].
  apply Hfault. left. vm_compute. discriminate.
Defined.




Section Copies.

Variable env : Env.

Lemma create_compilation_copies ds :
  steps (adds (copy_justified env ds)) (create_compilation env ds).
Proof.
  steps_descend;
    lazymatch goal with
    | |- steps (adds _) (modify (set_trace _)) =>
        apply steps_modify; intros ?; apply adds_emit; try exact I
    | |- steps (adds _) (modify _) =>
        apply steps_modify; intros ?; apply adds_same; reflexivity
    end.
  simpl.
  repeat match goal with
         | Hm : match py_iter ?fl with _ => _ end = inr _ |- _ =>
             destruct (py_iter fl) eqn:?; [injection Hm as <- | discriminate Hm]
         | Hm : py_in _ (JDict _) = Some _ |- _ => injection Hm as Hm
         | Hm : negb _ = false |- _ => apply negb_false_iff in Hm
         | Hm : bool_decide _ = false |- _ => apply bool_decide_eq_false in Hm
         end.
  eexists _, _, _, _, _. split; [eassumption|]. split; [eassumption|].
  split; [eassumption|]. split; [eassumption|].
  unfold copies_entry. split; [done|]. split; [done|]. split; [by eexists|]. done.
Qed.

Lemma copy2_inr src dst st st' u :
  copy2 env src dst st = (st', inr u) → trace st' = trace st ++ [EvCopy src dst].
Proof.
  unfold copy2, fault. destruct (fault_copy2 _ _ _); [discriminate|].
  cbv [bind ret get]. destruct (files st !! absolute env src); [|discriminate].
  by intros [= <- _].
Qed.

(** One iteration of the copy loop that completes either copies
    nothing and leaves the locals as they were, or makes one copy and
    appends its record. *)
Lemma compile_entry_inr cdir sdir fi copied tf ts st st' copied' tf' ts' :
  compile_entry env cdir sdir fi (copied, tf, ts) st = (st', inr (copied', tf', ts')) →
  (trace st' = trace st ∧ copied' = copied)
  ∨ ∃ src dst rec,
      trace st' = trace st ++ [EvCopy src dst] ∧ copied' = copied ++ [rec]
      ∧ recorded env cdir sdir [fi] (EvCopy src dst) rec.
Proof.
  unfold compile_entry. intros H.
  destruct (py_in "error" fi) as [[|]|] eqn:Herr; [| |discriminate].
  { injection H as <- <- _ _. by left. }
  destruct fi as [| | | | | |d]; try discriminate.
  injection Herr as Herr.
  destruct (negb (status_ok _)) eqn:Hst.
  { apply bind_inv in H as [(? & [] & Hl & H) | (? & _ & ?)]; [|discriminate].
    injection Hl as <-. injection H as <- <- _ _. by left. }
  apply negb_false_iff in Hst.
  unfold get_item at 1 in H.
  destruct (dict_get "path" d) as [[| | | |path| |]|] eqn:Hpath; try discriminate.
  apply bind_inv in H as [(? & ? & Hr & H) | (? & Hr & ?)]; [|discriminate].
  injection Hr as <- <-.
  apply bind_inv in H as [(? & s & Hg & H) | (? & _ & ?)]; [|discriminate].
  injection Hg as <- <-.
  destruct (exists_ env st (path_of_str path) && dict_has "size" d) eqn:Hex.
  2:{ injection H as <- <- _ _. by left. }
  destruct (bool_decide _) eqn:Hres.
  { injection H as <- <- _ _. by left. }
  apply bool_decide_eq_false in Hres.
  apply bind_inv in H as [(st1 & [] & Hc & H) | (? & _ & ?)]; [|discriminate].
  apply copy2_inr in Hc.
  destruct (relative_to _ cdir) as [rel|] eqn:Hrel; [|discriminate].
  apply bind_inv in H as [(? & ? & Hr & H) | (? & _ & ?)]; [|discriminate].
  injection Hr as <- <-.
  unfold get_item in H.
  destruct (dict_get "size" d) as [size|] eqn:Hsize; [|discriminate].
  apply bind_inv in H as [(? & ? & Hr & H) | (? & _ & ?)]; [|discriminate].
  injection Hr as <- <-.
  destruct (dict_get "hash" d) as [h|] eqn:Hhash; [|discriminate].
  apply bind_inv in H as [(? & ? & Hr & H) | (? & _ & ?)]; [|discriminate].
  injection Hr as <- <-.
  destruct (as_int size) as [e|n]; [discriminate|].
  apply bind_inv in H as [(? & ? & Hr & H) | (? & _ & ?)]; [|discriminate].
  injection Hr as <- <-. injection H as <- <- _ _.
  right. eexists _, _, _. split; [exact Hc|]. split; [reflexivity|].
  exists d, rel, size, h. split; [left|].
  split; [|done]. unfold copies_entry. split; [done|]. split; [done|].
  split; [by exists path|]. done.
Qed.

Lemma recorded_mono cdir sdir fi all ev rec :
  fi ∈ all → recorded env cdir sdir [fi] ev rec → recorded env cdir sdir all ev rec.
Proof.
  intros Hin. destruct ev; try done.
  intros (d & rel & size & h & Hd & Hrest).
  apply list_elem_of_singleton in Hd as <-. by exists d, rel, size, h.
Qed.

Lemma copy_loop cdir sdir all entries copied tf ts st st' copied' tf' ts' :
  entries ⊆ all →
  for_fold entries (copied, tf, ts) (compile_entry env cdir sdir) st
  = (st', inr (copied', tf', ts')) →
  ∃ copies new,
    trace st' = trace st ++ copies ∧ copied' = copied ++ new
    ∧ Forall2 (recorded env cdir sdir all) copies new.
Proof.
  revert copied tf ts st. induction entries as [|fi entries IH]; intros copied tf ts st Hsub H.
  - injection H as <- <- _ _. exists [], []. by rewrite !app_nil_r.
  - cbn [for_fold] in H.
    apply bind_inv in H as [(st1 & [[c1 f1] s1] & H1 & H) | (? & _ & ?)]; [|discriminate].
    apply IH in H as (copies & new & Ht & -> & HF);
      [|intros x Hx; apply Hsub; by right].
    apply compile_entry_inr in H1
      as [[Ht1 ->] | (src & dst & rec & Ht1 & -> & Hrec)].
    + exists copies, new. by rewrite Ht, Ht1.
    + exists (EvCopy src dst :: copies), (rec :: new).
      split; [by rewrite Ht, Ht1, <- app_assoc|]. split; [by rewrite <- app_assoc|].
      constructor; [|done]. eapply recorded_mono; [|exact Hrec]. apply Hsub. left.
Qed.

Lemma mkdir_inr parents p st st' u :
  mkdir env parents p st = (st', inr u) → trace st' = trace st ++ [EvMkdir p].
Proof.
  unfold mkdir, fault. destruct (fault_mkdir _ _); [discriminate|].
  by intros [= <- _].
Qed.

(** A source with a list of files, once compiled: its directory was
    made, then one copy per record of its manifest entry. *)
Lemma compile_source_inr cdir name sd fl entries sm tf ts st st' sm' tf' ts' :
  dict_get "files" sd = Some fl → py_iter fl = Some entries →
  compile_source env cdir (name, JDict sd) (sm, tf, ts) st = (st', inr (sm', tf', ts')) →
  ∃ copies copied total,
    trace st' = trace st ++ EvMkdir (cdir // [name]) :: copies
    ∧ Forall2 (recorded env cdir (cdir // [name]) entries) copies copied
    ∧ sm' = dict_set name
              (JDict [("files_count", JInt (Z.of_nat (length copied)));
                      ("total_size", JInt total);
                      ("files", JList copied)]) sm.
Proof.
  intros Hfl Hit H. unfold compile_source in H. rewrite Hfl, Hit in H.
  apply bind_inv in H as [(st1 & [] & Hm & H) | (? & _ & ?)]; [|discriminate].
  apply mkdir_inr in Hm.
  apply bind_inv in H as [(? & ? & Hr & H) | (? & _ & ?)]; [|discriminate].
  injection Hr as <- <-.
  apply bind_inv in H as [(st2 & [[copied f1] s1] & Hl & H) | (? & _ & ?)]; [|discriminate].
  apply (copy_loop _ _ entries) in Hl as (copies & new & Ht & Hc & HF); [|done].
  simpl in Hc. subst copied.
  destruct (sum_sizes new) as [e|total]; [discriminate|].
  apply bind_inv in H as [(? & ? & Hr & H) | (? & _ & ?)]; [|discriminate].
  injection Hr as <- <-. injection H as <- <- _ _.
  exists copies, new, total. split; [by rewrite Ht, Hm, <- app_assoc|]. done.
Qed.

Lemma status_ok_iff v :
  status_ok v = true ↔ v = JStr "new_or_changed" ∨ v = JStr "processed".
Proof.
  unfold status_ok, eq_str. rewrite orb_true_iff.
  destruct v; try (split; [intros [|]; discriminate | intros [|]; discriminate]).
  rewrite !bool_decide_eq_true. split; intros [|]; simplify_eq; auto.
Qed.

End Copies.

(** C7. Every copy [create_compilation] makes, also in a run that is
    later aborted, is the copy of an entry of a source that has no
    [error] key, whose status is [new_or_changed] or [processed], and
    whose source and destination resolve to different files.  The
    statuses accepted are exactly these two.  And for a source whose
    compilation completes, the copies correspond one to one, in order,
    to the records of its manifest entry, each record holding the original
    path, the path inside the bundle, and the size and hash of the entry. *)
Theorem C7_only_eligible_entries_copied (env : Env) :
  (∀ ds st st' r,
     create_compilation env ds st = (st', r) →
     ∃ t, trace st' = trace st ++ t ∧ Forall (copy_justified env ds) t)
  ∧ (∀ v, status_ok v = true ↔ v = JStr "new_or_changed" ∨ v = JStr "processed")
  ∧ (∀ cdir name sd fl entries sm tf ts st st' sm' tf' ts',
       dict_get "files" sd = Some fl → py_iter fl = Some entries →
       compile_source env cdir (name, JDict sd) (sm, tf, ts) st
       = (st', inr (sm', tf', ts')) →
       ∃ copies copied total,
         trace st' = trace st ++ EvMkdir (cdir // [name]) :: copies
         ∧ Forall2 (recorded env cdir (cdir // [name]) entries) copies copied
         ∧ sm' = dict_set name
                   (JDict [("files_count", JInt (Z.of_nat (length copied)));
                           ("total_size", JInt total);
                           ("files", JList copied)]) sm).
Proof.
  split; [intros ds st st' r H; exact (create_compilation_copies env ds _ _ _ H)|].
  split; [apply status_ok_iff|].
  intros *. apply compile_source_inr.
Qed.

Lemma C7_only_eligible_entries_copied_witness :
  ∃ ds st1,
    prepare Demo.env Demo.state = (st1, inr ds)
    ∧ ∃ t, trace (create_compilation Demo.env ds st1).1 = trace st1 ++ t
           ∧ Forall (copy_justified Demo.env ds) t.
Proof.
  pose (p := prepare Demo.env Demo.state).
  exists (match p.2 return pydict with inr d => d | inl _ => [] end), p.1.
  split; [returns_a_value|].
  apply (proj1 (C7_only_eligible_entries_copied Demo.env) _ p.1 _ _ (surjective_pairing _)).
Defined.

Lemma create_compilation_success env ds st st' dir :
  create_compilation env ds st = (st', inr dir) →
  ∃ st1 r, build_bundle env ds st = (st1, inr r)
           ∧ ∃ t, trace st' = trace st1 ++ t.
Proof.
  rewrite create_compilation_eq. intros H.
  apply bind_inv in H as [(st1 & r & Hb & H) | (? & _ & ?)]; [|discriminate].
  exists st1, r. split; [done|].
  apply bind_inv in H as [(st2 & [] & Hs & H) | (? & _ & ?)]; [|discriminate].
  destruct (save_permitted env _ _ _ Hs) as (ts & Hts & _).
  destruct (report_bundle_quiet env _ _ _ _ H) as (tr & Htr & _).
  exists (ts ++ tr). by rewrite Htr, Hts, app_assoc.
Qed.

(** C10. Whatever the data sources are, also when some of them are the
    error marker of a failed exclusivity validation, every file named
    [manifest.json] that [create_compilation] writes is the serialisation
    of a manifest whose [exclusivity_verified] is [True]; a run that
    completes has written one; and the field is [True] in the manifest of
    any per-source entries. *)
Theorem C10_exclusivity_verified_always_true (env : Env) (ds : pydict) (st st' : State)
    (r : exn + Path) :
  create_compilation env ds st = (st', r) →
  ∃ t, trace st' = trace st ++ t
       ∧ Forall manifest_event_ok t
       ∧ (∀ dir, r = inr dir → ∃ sm, manifest_written env sm ∈ t)
       ∧ (∀ sm, dict_get "exclusivity_verified" (manifest_of env sm) = Some (JBool true)).
Proof.
  intros H.
  destruct (create_compilation_manifest_ok env ds _ _ _ H) as (t & Ht & HF).
  exists t. split; [done|]. split; [done|]. split; [|done].
  intros dir ->.
  apply create_compilation_success in H as (st1 & rb & Hb & (t2 & Ht2)).
  apply build_bundle_success in Hb as (t0 & sm & c & t1 & Hb).
  exists sm. rewrite Hb, Ht, <- !app_assoc in Ht2.
  apply app_inv_head in Ht2 as ->.
  rewrite !elem_of_app. right. left. left.
Qed.

Lemma C10_exclusivity_verified_always_true_witness :
  ∃ ds st1,
    prepare (Demo.env_with Demo.foreign_log no_faults) (Demo.state_with Demo.foreign_log)
    = (st1, inr ds)
    ∧ dict_get "copilot_logs" ds = Some exclusivity_marker
    ∧ ∃ t, trace (create_compilation (Demo.env_with Demo.foreign_log no_faults) ds st1).1
           = trace st1 ++ t
           ∧ Forall manifest_event_ok t
           ∧ ∃ sm, manifest_written (Demo.env_with Demo.foreign_log no_faults) sm ∈ t.
Proof.
  pose (e := Demo.env_with Demo.foreign_log no_faults).
  pose (p := prepare e (Demo.state_with Demo.foreign_log)).
  pose (ds := match p.2 return pydict with inr d => d | inl _ => [] end).
  exists ds, p.1.
  split; [returns_a_value|]. split; [vm_compute; reflexivity|].
  destruct (C10_exclusivity_verified_always_true e ds p.1 _ _ (surjective_pairing _))
    as (t & Ht & HF & Hw & _).
  exists t. split; [exact Ht|]. split; [exact HF|].
  apply (Hw (match (create_compilation e ds p.1).2 with inr d => d | inl _ => [] end)).
  apply inr_result. vm_compute; reflexivity.
Defined.


#[global] Instance keeps_preorder {A} (proj : State → A) : PreOrder (keeps proj).
Proof.
  split; [by intros st|].
  intros st1 st2 st3 H1 H2. unfold keeps in *. congruence.
Qed.

Section Files.

Variable env : Env.

Lemma logger_run lv msg st : logger lv msg st = (set_log (λ l, l ++ [(lv, msg)]) st, inr tt).
Proof. reflexivity. Qed.

Lemma read_bytes_run p st :
  read_bytes env p st
  = (st, match fault_read (faults env) (absolute env p) with
         | Some e => inl e
         | None => match files st !! absolute env p with
                   | Some f => inr (f_content f)
                   | None => inl (FileNotFoundError (path_str p))
                   end
         end).
Proof.
  unfold read_bytes, stat, fault, bind, get, ret, raise.
  destruct (fault_read _ _); [done|]. by destruct (files st !! _).
Qed.

Lemma read_bytes_readable p st :
  read_bytes env p st
  = (st, match readable env st p with
         | Some f => inr (f_content f)
         | None => inl (default (FileNotFoundError (path_str p))
                                (fault_read (faults env) (absolute env p)))
         end).
Proof.
  rewrite read_bytes_run. unfold readable.
  destruct (fault_read _ _); [done|]. by destruct (files st !! _).
Qed.

(** X1. [_calculate_file_checksum] and [_calculate_file_hash] never
    raise.  For a file that can be read they leave the state as it was
    and return the SHA-256 of the whole content, whatever the chunk size
    (8192 or 4096 bytes), the hash being the first 16 characters of the
    checksum; for a file that is missing or cannot be read each logs one
    warning and returns its marker, [checksum_failed] or [hash_failed]. *)
Theorem X1_file_checksum_and_hash (p : Path) (st : State) :
  match readable env st p with
  | Some f =>
      _calculate_file_checksum env p st = (st, inr (Sha256.hexdigest (f_content f)))
      ∧ _calculate_file_hash env p st
        = (st, inr (str_take 16 (Sha256.hexdigest (f_content f))))
  | None =>
      ∃ m1 m2,
        _calculate_file_checksum env p st
        = (set_log (λ l, l ++ [(WARNING, m1)]) st, inr "checksum_failed")
        ∧ _calculate_file_hash env p st
          = (set_log (λ l, l ++ [(WARNING, m2)]) st, inr "hash_failed")
  end.
Proof.
  unfold _calculate_file_checksum, _calculate_file_hash, try_except, bind.
  rewrite read_bytes_readable.
  destruct (readable env st p) as [f|].
  - unfold ret. rewrite hash_file_into_app by (apply Nat.ltb_lt; reflexivity).
    rewrite (hash_file_into_app _ 4096) by lia. done.
  - eexists _, _. split; reflexivity.
Qed.


Lemma eq_str_true v s : eq_str v s = true ↔ v = Some (JStr s).
Proof.
  unfold eq_str. destruct v as [[]|]; try (split; [discriminate|intros [=]]).
  rewrite bool_decide_eq_true. split; [by intros -> | by intros [= ->]].
Qed.

Lemma checksum_run p st :
  ∃ msgs,
    _calculate_file_checksum env p st
    = (set_log (λ l, l ++ msgs) st,
       inr (match readable env st p with
            | Some f => Sha256.hexdigest (f_content f)
            | None => "checksum_failed"
            end)).
Proof.
  unfold _calculate_file_checksum, try_except, bind.
  rewrite read_bytes_readable.
  destruct (readable env st p) as [f|].
  - exists []. unfold ret.
    rewrite hash_file_into_app by (apply Nat.ltb_lt; reflexivity).
    destruct st. unfold set_log; simpl. by rewrite app_nil_r.
  - by eexists [_].
Qed.

(** X2. The gate [_should_process_file], on a loaded checkpoint and an
    in-progress checkpoint that both have a dictionary of files: it
    returns [False] exactly when the loaded checkpoint holds the current
    checksum of the file under its absolute path (the marker
    [checksum_failed] standing for the checksum of an unreadable file);
    it touches neither the disk, nor the database, nor the loaded
    checkpoint; and it records the current checksum in the in-progress
    checkpoint when it returns [True], and nothing when it returns
    [False]. *)
Theorem X2_should_process_file_gate (p : Path) (st : State) (old fs : pydict) :
  get_files (checkpoint st) = Some (JDict old) →
  dict_get "files" (new_checkpoint st) = Some (JDict fs) →
  let key := path_str (absolute env p) in
  let current := match readable env st p with
                 | Some f => Sha256.hexdigest (f_content f)
                 | None => "checksum_failed"
                 end in
  ∃ st' go,
    _should_process_file env p st = (st', inr go)
    ∧ (go = false ↔ dict_get key old = Some (JStr current))
    ∧ outside st' = outside st
    ∧ checkpoint st' = checkpoint st
    ∧ new_checkpoint st'
      = (if go then dict_set "files" (JDict (dict_set key (JStr current) fs))
                             (new_checkpoint st)
         else new_checkpoint st).
Proof.
  intros Hold Hfs key current.
  destruct (checksum_run p st) as [msgs Hc].
  unfold _should_process_file. rewrite (bind_inr _ _ _ _ _ Hc).
  fold key current. unfold bind at 1, get.
  unfold previous_checksum_of. cbn [checkpoint set_log]. rewrite Hold.
  destruct (eq_str (dict_get key old) current) eqn:He.
  - eexists _, false. split; [reflexivity|].
    apply eq_str_true in He. by repeat split.
  - cbn [new_checkpoint set_log]. rewrite Hfs.
    assert (dict_get key old ≠ Some (JStr current)) as Hne.
    { intros Heq. apply eq_str_true in Heq. congruence. }
    destruct (default false (truthy <$> dict_get key old));
      (eexists _, true; split; [reflexivity|]; repeat split; try done).
Qed.
End Files.

Section CheckpointStore.

Variable env : Env.

Abbreviation ck := (absolute env (checkpoint_file env)).
Abbreviation tmp := (absolute env (temp_file env)).

(** X3. [_load_checkpoint] never raises and changes nothing but the
    log, to which it adds one line.  What it returns is the document of
    the checkpoint file or the fresh checkpoint; it is the fresh one when
    there is no checkpoint file, and the fresh one, with a WARNING line,
    when the file is not a JSON document. *)
Theorem X3_load_checkpoint_never_raises (st : State) :
  ∃ lv msg loaded,
    _load_checkpoint env st = (set_log (λ l, l ++ [(lv, msg)]) st, inr loaded)
    ∧ (loaded = fresh_checkpoint
       ∨ ∃ f, readable env st (checkpoint_file env) = Some f ∧ f_json f = Some loaded)
    ∧ (files st !! ck = None → loaded = fresh_checkpoint)
    ∧ (∀ f, files st !! ck = Some f → f_json f = None →
            loaded = fresh_checkpoint ∧ lv = WARNING).
Proof.
  unfold _load_checkpoint, readable, bind, get.
  destruct (files st !! ck) as [f|] eqn:Hf.
  - destruct (fault_read _ _) as [e|].
    { eexists _, _, _. split; [reflexivity|]. split; [by left|]. by split. }
    destruct (f_json f) as [v|] eqn:Hj.
    2:{ eexists _, _, _. split; [reflexivity|]. split; [by left|].
        split; [done|]. by intros ? [= <-] _. }
    destruct (get_files v) as [fs|].
    2:{ eexists _, _, _. split; [reflexivity|]. split; [by left|].
        split; [done|]. intros ? [= <-]. congruence. }
    destruct (py_len fs) as [n|].
    + eexists _, _, _. split; [reflexivity|]. split; [right; eauto|].
      split; [done|]. intros ? [= <-]. congruence.
    + eexists _, _, _. split; [reflexivity|]. split; [by left|].
      split; [done|]. intros ? [= <-]. congruence.
  - eexists _, _, _. split; [reflexivity|]. split; [by left|]. by split.
Qed.

(** X4. A checkpoint file whose [files] is something with a length
    that is not a dictionary (a list, a string) is loaded as it is; the
    gate then raises [AttributeError] for every file, before it records
    anything. *)
Theorem X4_list_of_files_checkpoint_breaks_gate (st : State) (f : File) (d : pydict)
    (v : json) (n : nat) :
  readable env st (checkpoint_file env) = Some f →
  f_json f = Some (JDict d) →
  dict_get "files" d = Some v →
  py_len v = Some n →
  (∀ x, v ≠ JDict x) →
  (∃ st1, _load_checkpoint env st = (st1, inr (JDict d)))
  ∧ ∀ p st2, checkpoint st2 = JDict d →
      ∃ st3, _should_process_file env p st2
             = (st3, inl (AttributeError "object has no attribute 'get'"))
             ∧ new_checkpoint st3 = new_checkpoint st2
             ∧ outside st3 = outside st2.
Proof.
  intros Hr Hj Hv Hn Hnd. split.
  - unfold _load_checkpoint, bind, get. unfold readable in Hr.
    destruct (fault_read _ _); [discriminate|]. rewrite Hr, Hj.
    unfold get_files. rewrite Hv. simpl. rewrite Hn. by eexists.
  - intros p st2 Hck.
    destruct (checksum_run env p st2) as [msgs Hc].
    unfold _should_process_file. rewrite (bind_inr _ _ _ _ _ Hc).
    unfold bind, get, previous_checksum_of. cbn [checkpoint set_log].
    rewrite Hck. unfold get_files. rewrite Hv. simpl.
    destruct v as [| | | | | |x];
      try (eexists; split; [reflexivity|]; split; reflexivity).
    by destruct (Hnd x).
Qed.

Lemma tmp_ne_ck : tmp ≠ ck.
Proof. unfold temp_file. by apply other_name. Qed.

(** X5. [_save_checkpoint] never raises, leaves the in-progress
    checkpoint as it was, and touches no file but the checkpoint file and
    its temporary file.  When the temporary file cannot be written, or is
    written but cannot be moved, the checkpoint file is as it was and one
    ERROR line is logged; in the second case the temporary file stays on
    the disk.  Otherwise the checkpoint file holds the serialisation of the
    in-progress checkpoint and the temporary file is gone. *)
Theorem X5_save_checkpoint_outcomes (st : State) (fs : pydict) :
  dict_get "files" (new_checkpoint st) = Some (JDict fs) →
  let text := checkpoint_text (new_checkpoint st) in
  ∃ st',
    _save_checkpoint env st = (st', inr tt)
    ∧ new_checkpoint st' = new_checkpoint st
    ∧ (∀ q, q ≠ ck → q ≠ tmp → files st' !! q = files st !! q)
    ∧ match fault_write (faults env) tmp, fault_replace (faults env) ck with
      | Some e, _ =>
          files st' !! ck = files st !! ck
          ∧ last (log st') = Some (ERROR, "Failed to save checkpoint: " +:+ exn_msg e)
      | None, Some e =>
          files st' !! ck = files st !! ck
          ∧ (∃ f, files st' !! tmp = Some f ∧ f_content f = encode_utf8 text)
          ∧ last (log st') = Some (ERROR, "Failed to save checkpoint: " +:+ exn_msg e)
      | None, None =>
          (∃ f, files st' !! ck = Some f
                ∧ f_content f = encode_utf8 text
                ∧ f_json f = Some (JDict (new_checkpoint st)))
          ∧ files st' !! tmp = None
          ∧ last (log st')
            = Some (INFO, "Checkpoint saved with " +:+ pretty (length fs) +:+ " files")
      end.
Proof.
  intros Hfs text. rewrite (save_run env st fs Hfs). cbv zeta.
  destruct (fault_write _ _) as [e|].
  - eexists. split; [reflexivity|]. split; [done|].
    cbn [files log set_log]. split; [done|]. split; [done | apply last_snoc].
  - destruct (fault_replace _ _) as [e|].
    + eexists. split; [reflexivity|]. split; [done|].
      cbn [files log set_log set_files set_trace emit modify fst].
      split; [intros q _ Hq; by apply lookup_insert_ne|].
      split; [apply lookup_insert_ne, tmp_ne_ck|].
      split; [|apply last_snoc].
      eexists. split; [apply lookup_insert_eq | done].
    + eexists. split; [reflexivity|]. split; [done|].
      cbn [files log set_log set_files set_trace emit modify fst].
      split.
      { intros q Hq1 Hq2.
        rewrite lookup_insert_ne by done. rewrite lookup_delete_ne by done.
        by rewrite lookup_insert_ne. }
      split; [eexists; split; [apply lookup_insert_eq | done]|].
      split; [|apply last_snoc].
      rewrite lookup_insert_ne by (apply not_eq_sym, tmp_ne_ck).
      apply lookup_delete_eq.
Qed.

Lemma save_then_file st fs :
  dict_get "files" (new_checkpoint st) = Some (JDict fs) →
  fault_write (faults env) tmp = None →
  fault_replace (faults env) ck = None →
  ∃ st1, _save_checkpoint env st = (st1, inr tt)
         ∧ files st1 !! ck = Some (checkpoint_doc env (new_checkpoint st)).
Proof.
  intros Hfs Hw Hr. rewrite (save_run env st fs Hfs). cbv zeta. rewrite Hw, Hr.
  eexists. split; [reflexivity|].
  cbn [files log set_log set_files set_trace emit modify fst].
  apply lookup_insert_eq.
Qed.

(** X6. Save, then load: when no fault hits the checkpoint file, the
    checkpoint [_load_checkpoint] returns after [_save_checkpoint] is the
    in-progress checkpoint that was saved (the document [json.load] returns
    for a file being the one [json.dump] wrote), and the previous checksum
    the gate reads from it for a file is the one recorded for that file. *)
Theorem X6_checkpoint_round_trip (st : State) (fs : pydict) :
  dict_get "files" (new_checkpoint st) = Some (JDict fs) →
  fault_write (faults env) tmp = None →
  fault_replace (faults env) ck = None →
  fault_read (faults env) ck = None →
  ∃ st1 st2,
    _save_checkpoint env st = (st1, inr tt)
    ∧ _load_checkpoint env st1 = (st2, inr (JDict (new_checkpoint st)))
    ∧ ∀ key, previous_checksum_of (JDict (new_checkpoint st)) key = inr (dict_get key fs).
Proof.
  intros Hfs Hw Hr Hrd.
  destruct (save_then_file st fs Hfs Hw Hr) as (st1 & Hs & Hck).
  exists st1. unfold _load_checkpoint, bind, get. rewrite Hck, Hrd.
  cbn [f_json checkpoint_doc get_files]. rewrite Hfs. cbn [default py_len].
  eexists. split; [done|]. split; [reflexivity|].
  intros key. unfold previous_checksum_of. cbn [get_files]. by rewrite Hfs.
Qed.

End CheckpointStore.


Section EntryPoint.

Variable env : Env.

Lemma load_checkpoint_run st :
  ∃ msg loaded, _load_checkpoint env st = (set_log (λ l, l ++ [msg]) st, inr loaded).
Proof.
  unfold _load_checkpoint, bind, get.
  destruct (files st !! _) as [f|]; [|by eexists _, _].
  destruct (fault_read _ _); [by eexists _, _|].
  destruct (f_json f) as [v|]; [|by eexists _, _].
  destruct (get_files v) as [fs|]; [|by eexists _, _].
  destruct (py_len fs); by eexists _, _.
Qed.

(** X7. The constructor [WeeklyCompiler(space_name)] raises
    [PermissionError] exactly when [space_name] is not the framework
    space.  Either way it only logs: it touches no file, no directory and
    no table; it starts the in-progress checkpoint with an empty dictionary
    of files; and the audit log holds one [access_validation] entry, for
    [space_name], with the result [granted] or [denied]. *)
Theorem X7_WeeklyCompiler_access (name : string) (st : State) :
  ∃ st' entry,
    WeeklyCompiler env name st
    = (st', if bool_decide (name = FRAMEWORK_SPACE) then inr tt
            else inl (PermissionError ("Weekly compilation restricted to "
                                       +:+ FRAMEWORK_SPACE +:+ " only")))
    ∧ outside st' = outside st
    ∧ new_checkpoint st' = [("files", JDict []);
                            ("timestamp", JStr (compilation_date env));
                            ("week_id", JStr (week_id env))]
    ∧ audit_log st' = [JDict entry]
    ∧ dict_get "action" entry = Some (JStr "access_validation")
    ∧ dict_get "space" entry = Some (JStr name)
    ∧ dict_get "result" entry
      = Some (JStr (if bool_decide (name = FRAMEWORK_SPACE) then "granted" else "denied")).
Proof.
  unfold WeeklyCompiler, validate_framework_access.
  unfold bind at 1. unfold modify at 1.
  destruct (load_checkpoint_run (set_audit_log (λ _, []) st)) as (msg & loaded & Hl).
  rewrite (bind_inr _ _ _ _ _ Hl).
  destruct (bool_decide (name = FRAMEWORK_SPACE)).
  all: eexists _, _; split; [reflexivity|].
  all: by repeat split.
Qed.

Lemma WeeklyCompiler_denied name st :
  name ≠ FRAMEWORK_SPACE →
  ∃ st' msg, WeeklyCompiler env name st = (st', inl (PermissionError msg))
             ∧ outside st' = outside st.
Proof.
  intros Hne. unfold WeeklyCompiler, validate_framework_access.
  unfold bind at 1. unfold modify at 1.
  destruct (load_checkpoint_run (set_audit_log (λ _, []) st)) as (msg & loaded & Hl).
  rewrite (bind_inr _ _ _ _ _ Hl). rewrite bool_decide_false by done.
  by eexists _, _.
Qed.

(** X8. [main] started from another space than the framework space
    ends with exit status 1, its last log line being the ERROR line of the
    handler of [PermissionError].  It only logged: the files, the
    directories and the tables are as they were, nothing was printed, and
    no operation was performed. *)
Theorem X8_main_access_denied (st : State) :
  SPACE_NAME env ≠ FRAMEWORK_SPACE →
  ∃ st' msg,
    main env st = (st', 1%Z)
    ∧ outside st' = outside st
    ∧ last (log st') = Some (ERROR, "Access denied: " +:+ msg).
Proof.
  intros Hne. unfold main, main_body.
  rewrite (bind_inr _ _ _ _ _ (logger_run _ _ _)).
  match goal with |- context [set_log ?f st] =>
    destruct (WeeklyCompiler_denied (SPACE_NAME env) (set_log f st) Hne)
      as (st1 & msg & Hw & Hout)
  end.
  rewrite (bind_inl _ _ _ _ _ Hw). cbn [is_permission_error].
  eexists _, msg. split; [reflexivity|].
  split; [exact Hout|]. cbn [log set_log exn_msg]. apply last_snoc.
Qed.

End EntryPoint.

Section Output.

Variable env : Env.

Lemma prepare_keeps_stdout : steps (keeps stdout) (prepare env).
Proof. steps_descend; same_leaf. Qed.

Lemma build_bundle_keeps_stdout ds : steps (keeps stdout) (build_bundle env ds).
Proof. steps_descend; same_leaf. Qed.

Lemma save_keeps_stdout : steps (keeps stdout) (_save_checkpoint env).
Proof. steps_descend; same_leaf. Qed.

Lemma report_keeps_stdout r : steps (keeps stdout) (report_bundle r).
Proof. steps_descend; same_leaf. Qed.

Lemma cleanup_keeps_stdout : steps (keeps stdout) (cleanup_old_compilations env).
Proof. steps_descend; same_leaf. Qed.

Lemma build_bundle_returns ds st st' r :
  build_bundle env ds st = (st', inr r) → r.1.1 = bundle_dir env.
Proof.
  unfold build_bundle. intros H.
  apply bind_inv in H as [(? & [] & _ & H) | (? & _ & ?)]; [|discriminate].
  apply bind_inv in H as [(? & [[sm tf] ts] & _ & H) | (? & _ & ?)]; [|discriminate].
  apply bind_inv in H as [(? & [] & _ & H) | (? & _ & ?)]; [|discriminate].
  apply bind_inv in H as [(? & ? & _ & H) | (? & _ & ?)]; [|discriminate].
  apply bind_inv in H as [(? & ? & _ & H) | (? & _ & ?)]; [|discriminate].
  apply bind_inv in H as [(? & [] & _ & H) | (? & _ & ?)]; [|discriminate].
  apply bind_inv in H as [(? & [] & _ & H) | (? & _ & ?)]; [|discriminate].
  by injection H as _ <-.
Qed.

Lemma report_bundle_returns r st st' dir :
  report_bundle r st = (st', inr dir) → dir = r.1.1.
Proof.
  destruct r as [[d tf] ts]. unfold report_bundle. intros H.
  repeat (apply bind_inv in H as [(? & ? & _ & H) | (? & _ & ?)]; [|discriminate]).
  by injection H as _ <-.
Qed.

Lemma main_body_output st stb r :
  main_body env (SPACE_NAME env) st = (stb, r) →
  match r with
  | inl _ => stdout stb = stdout st
  | inr _ =>
      ∃ st1 ds n, prepare env st = (st1, inr ds)
                  ∧ sum_files_len ds.*2 = inr n
                  ∧ stdout stb = stdout st ++ [summary_text env n]
  end.
Proof.
  rewrite main_body_stages. intros H.
  apply bind_inv in H as [(st1 & ds & Hp & H) | (e & Hp & ->)];
    [|exact (prepare_keeps_stdout _ _ _ Hp)].
  pose proof (prepare_keeps_stdout _ _ _ Hp) as K1.
  apply bind_inv in H as [(st2 & b & Hb & H) | (e & Hb & ->)];
    [|by rewrite (build_bundle_keeps_stdout _ _ _ _ Hb)].
  pose proof (build_bundle_keeps_stdout _ _ _ _ Hb) as K2.
  apply build_bundle_returns in Hb.
  apply bind_inv in H as [(st3 & [] & Hs & H) | (e & Hs & ->)];
    [|by rewrite (save_keeps_stdout _ _ _ Hs), K2].
  pose proof (save_keeps_stdout _ _ _ Hs) as K3.
  unfold after_save in H.
  apply bind_inv in H as [(st4 & dir & Hr & H) | (e & Hr & ->)];
    [|by rewrite (report_keeps_stdout _ _ _ _ Hr), K3, K2].
  pose proof (report_keeps_stdout _ _ _ _ Hr) as K4.
  apply report_bundle_returns in Hr. rewrite Hb in Hr. subst dir.
  apply bind_inv in H as [(st5 & [] & Hl & H) | (e & Hl & ->)]; [|discriminate].
  injection Hl as <-.
  apply bind_inv in H as [(st6 & [] & Hc & H) | (e & Hc & ->)];
    [|rewrite (cleanup_keeps_stdout _ _ _ Hc); cbn [stdout set_log];
      by rewrite K4, K3, K2].
  pose proof (cleanup_keeps_stdout _ _ _ Hc) as K6.
  unfold keeps in K6. cbn [stdout set_log] in K6.
  unfold print_summary in H.
  apply bind_inv in H as [(st7 & [] & Hl & H) | (e & Hl & ->)]; [|discriminate].
  injection Hl as <-.
  destruct (sum_files_len ds.*2) as [e|n] eqn:Hn.
  - injection H as <- <-. cbn [stdout set_log]. by rewrite K6, K4, K3, K2.
  - injection H as <- <-. exists st1, ds, n. split; [done|]. split; [done|].
    cbn [stdout set_stdout set_log]. by rewrite K6, K4, K3, K2, K1.
Qed.

(** X9. The exit status of [main] is 0 or 1.  With status 0, [print]
    was called once, with the summary: the status [success], the
    directory of the bundle of the week, and as [files_processed] the
    number of entries of the data sources, copied or not.  With status 1,
    [print] was not called, and the last line of the log is an ERROR
    line. *)
Theorem X9_main_prints_summary_iff_success (st : State) :
  ∃ st',
    (main env st = (st', 0%Z)
     ∧ ∃ st1 ds n, prepare env st = (st1, inr ds)
                   ∧ sum_files_len ds.*2 = inr n
                   ∧ stdout st' = stdout st ++ [summary_text env n])
    ∨ (main env st = (st', 1%Z)
       ∧ stdout st' = stdout st
       ∧ ∃ msg, last (log st') = Some (ERROR, msg)).
Proof.
  unfold main.
  destruct (main_body env (SPACE_NAME env) st) as [stb [e|u]] eqn:H;
    apply main_body_output in H.
  - destruct (is_permission_error e); eexists; right;
      (split; [reflexivity|]; split; [exact H|]);
      eexists; cbn [log set_log]; apply last_snoc.
  - eexists. left. split; [reflexivity | exact H].
Qed.

End Output.


Section Retention.

Variable env : Env.

Lemma removal_keeps_db (b : bool) d msg :
  steps (keeps compilations) (if b then rmtree env d ;;; logger INFO msg else ret tt).
Proof. steps_descend; same_leaf. Qed.

Lemma remove_compilation_inr w st st' u :
  remove_compilation env w st = (st', inr u) →
  compilations st' = delete w (compilations st).
Proof.
  unfold remove_compilation. intros H.
  apply bind_inv in H as [(? & s & Hg & H) | (? & _ & ?)]; [|discriminate].
  injection Hg as <- <-.
  apply bind_inv in H as [(st1 & [] & H1 & H) | (? & _ & ?)]; [|discriminate].
  apply removal_keeps_db in H1.
  destruct (fault_sql _ _); [discriminate|].
  injection H as <- _. cbn [compilations set_compilations set_trace set_files_tracked].
  by rewrite H1.
Qed.

Lemma remove_loop l st st' u :
  for_each l (remove_compilation env) st = (st', inr u) →
  ∀ w, compilations st' !! w
       = if bool_decide (w ∈ l) then None else compilations st !! w.
Proof.
  revert st. induction l as [|x l IH]; intros st H w.
  - injection H as <- _. by rewrite bool_decide_false by apply not_elem_of_nil.
  - cbn [for_each] in H.
    apply bind_inv in H as [(st1 & [] & H1 & H) | (? & _ & ?)]; [|discriminate].
    apply remove_compilation_inr in H1. rewrite (IH _ H w), H1.
    destruct (decide (w = x)) as [->|Hne].
    + rewrite (bool_decide_true (x ∈ x :: l)) by left.
      rewrite lookup_delete_eq. by destruct (bool_decide (x ∈ l)).
    + rewrite lookup_delete_ne by done.
      destruct (bool_decide (w ∈ l)) eqn:Hin.
      * apply bool_decide_eq_true in Hin. by rewrite bool_decide_true by by right.
      * apply bool_decide_eq_false in Hin.
        rewrite bool_decide_false; [done|]. rewrite elem_of_cons. tauto.
Qed.

(** X10. When [cleanup_old_compilations] returns, the table
    [compilations] holds exactly the rows it held whose compilation date
    is not before the cutoff date, unchanged. *)
Theorem X10_cleanup_removes_exactly_old_rows (st st' : State) :
  cleanup_old_compilations env st = (st', inr tt) →
  ∀ w, compilations st' !! w
       = match compilations st !! w with
         | Some row => if is_old env row then None else Some row
         | None => None
         end.
Proof.
  unfold cleanup_old_compilations. intros H w.
  destruct (fault_sql _ _); [discriminate|]. unfold fault in H.
  apply bind_inv in H as [(? & [] & H0 & H) | (? & _ & ?)]; [|discriminate].
  injection H0 as <-.
  apply bind_inv in H as [(? & [] & H0 & H) | (? & _ & ?)]; [|discriminate].
  injection H0 as <-.
  apply bind_inv in H as [(? & s & Hg & H) | (? & _ & ?)]; [|discriminate].
  injection Hg as <- <-.
  apply bind_inv in H as [(st1 & [] & Hl & H) | (? & _ & ?)]; [|discriminate].
  assert (compilations st' = compilations st1) as ->.
  { revert H. cbn [compilations set_trace].
    match goal with |- context [match ?l with [] => _ | _ => _ end] => destruct l end;
      by intros [= <-]. }
  rewrite (remove_loop _ _ _ _ Hl w). cbn [compilations set_trace].
  destruct (compilations st !! w) as [row|] eqn:Hrow.
  - unfold is_old. destruct (String.ltb _ _) eqn:Hold.
    + rewrite bool_decide_true; [done|].
      apply list_elem_of_fmap. exists (w, row). split; [done|].
      apply elem_of_map_to_list. by apply map_lookup_filter_Some.
    + rewrite bool_decide_false; [done|].
      intros ([w' row'] & -> & Hin)%list_elem_of_fmap.
      apply elem_of_map_to_list, map_lookup_filter_Some in Hin as [Hin Ho].
      cbn in *. congruence.
  - rewrite bool_decide_false; [done|].
    intros ([w' row'] & -> & Hin)%list_elem_of_fmap.
    apply elem_of_map_to_list, map_lookup_filter_Some in Hin as [Hin Ho].
    cbn in *. congruence.
Qed.

Lemma for_each_stops {A} (l1 : list A) x l2 body st st1 st2 e :
  for_each l1 body st = (st1, inr tt) →
  body x st1 = (st2, inl e) →
  for_each (l1 ++ x :: l2) body st = (st2, inl e).
Proof.
  revert st. induction l1 as [|y l1 IH]; intros st H1 H2.
  - injection H1 as <-. cbn [app for_each]. by rewrite (bind_inl _ _ _ _ _ H2).
  - cbn [app for_each] in *.
    apply bind_inv in H1 as [(st0 & [] & Hy & H1) | (? & _ & ?)]; [|discriminate].
    rewrite (bind_inr _ _ _ _ _ Hy). by apply IH.
Qed.

(** X11. The loop of [cleanup_old_compilations] has no handler: when
    the directory of an old bundle exists and cannot be removed, the loop
    ends there with the exception of [shutil.rmtree], in the state it had
    reached; the rows of that bundle and of the bundles that come after it
    are still in the database. *)
Theorem X11_failed_removal_stops_cleanup (removed rest : list string) (w : string)
    (st st1 : State) (e : exn) :
  for_each removed (remove_compilation env) st = (st1, inr tt) →
  exists_ env st1 (old_dir env w) = true →
  fault_rmtree (faults env) (absolute env (old_dir env w)) = Some e →
  for_each (removed ++ w :: rest) (remove_compilation env) st = (st1, inl e)
  ∧ ∀ w', w' ∉ removed → compilations st1 !! w' = compilations st !! w'.
Proof.
  intros Hdone Hex Hf. split.
  - apply (for_each_stops _ _ _ _ _ _ _ _ Hdone).
    unfold remove_compilation, bind, get. fold (old_dir env w). rewrite Hex.
    unfold rmtree, bind. by rewrite Hf.
  - intros w' Hw'. rewrite (remove_loop _ _ _ _ Hdone w').
    by rewrite bool_decide_false.
Qed.

End Retention.


Section Objectives.

Variable env : Env.

Lemma dict_has_set k v d : dict_has k (dict_set k v d) = true.
Proof. unfold dict_has. by rewrite dict_get_set_eq. Qed.

Lemma file_hash_run p st :
  ∃ msgs h, _calculate_file_hash env p st = (set_log (λ l, l ++ msgs) st, inr h).
Proof.
  unfold _calculate_file_hash, try_except, bind.
  rewrite read_bytes_readable.
  destruct (readable env st p) as [f|].
  - exists [], (str_take 16 (Hashlib.hexdigest (hash_file_into Hashlib.sha256 4096 (f_content f)))).
    unfold ret. destruct st. unfold set_log; simpl. by rewrite app_nil_r.
  - by eexists [_], _.
Qed.

Lemma stat_run p st f :
  files st !! absolute env p = Some f → stat env p st = (st, inr f).
Proof. intros Hf. unfold stat, bind, get. by rewrite Hf. Qed.

Lemma set_log_app l1 l2 st :
  set_log (λ l, l ++ l2) (set_log (λ l, l ++ l1) st) = set_log (λ l, l ++ (l1 ++ l2)) st.
Proof. unfold set_log; simpl. by rewrite app_assoc. Qed.

Lemma sync_one_present name p st f content :
  fault_read (faults env) (absolute env p) = None →
  files st !! absolute env p = Some f →
  f_json f = Some (JDict content) →
  dict_has "spaceName" content = true →
  ∃ msgs e, sync_one env name p st
            = (set_log (λ l, l ++ msgs) st, inr (JDict content, e)).
Proof.
  intros Hr Hf Hj Hhas. unfold sync_one. rewrite Hr.
  unfold fault. unfold bind at 1. unfold ret at 1.
  rewrite (bind_inr _ _ _ _ _ (stat_run p st f Hf)). rewrite Hj, Hhas.
  unfold bind at 1. unfold ret at 1.
  rewrite (bind_inr _ _ _ _ _ (stat_run p st f Hf)).
  destruct (file_hash_run p st) as (msgs & h & Hh).
  rewrite (bind_inr _ _ _ _ _ Hh). by eexists _, _.
Qed.

Lemma sync_one_absent name p st f content :
  fault_read (faults env) (absolute env p) = None →
  fault_write (faults env) (absolute env p) = None →
  files st !! absolute env p = Some f →
  f_json f = Some (JDict content) →
  dict_has "spaceName" content = false →
  let injected := dict_set "spaceName" (JStr name) content in
  let text := Json.dumps_indent2_raw (JDict injected) in
  ∃ msgs e,
    sync_one env name p st
    = (set_log (λ l, l ++ msgs)
         (set_trace (λ t, t ++ [EvWrite p text (Some (JDict injected))])
            (set_files <[absolute env p := mkFile (encode_utf8 text) (compilation_date env)
                                                  (Some (JDict injected))]> st)),
       inr (JDict injected, e)).
Proof.
  intros Hr Hw Hf Hj Hno injected text. unfold sync_one. rewrite Hr.
  unfold fault. unfold bind at 1. unfold ret at 1.
  rewrite (bind_inr _ _ _ _ _ (stat_run p st f Hf)). rewrite Hj, Hno.
  fold injected. fold text.
  unfold write_text. rewrite Hw. unfold fault.
  set (file := mkFile (encode_utf8 text) (compilation_date env) (Some (JDict injected))).
  set (st1 := set_log (λ l, l ++ [(INFO, "Injected spaceName into " +:+ name
                                         +:+ "/objectives.json")])
                (set_trace (λ t, t ++ [EvWrite p text (Some (JDict injected))])
                   (set_files <[absolute env p := file]> st))).
  assert (files st1 !! absolute env p = Some file) as Hf1
    by (subst st1; cbn [files set_files set_trace set_log]; apply lookup_insert_eq).
  destruct (file_hash_run p st1) as (msgs & h & Hh).
  exists ((INFO, "Injected spaceName into " +:+ name +:+ "/objectives.json") :: msgs).
  eexists.
  transitivity
    ((let* stat_info := stat env p in
      let* h := _calculate_file_hash env p in
      ret (JDict injected,
           JDict [("space", JStr name);
                  ("path", JStr (path_str p));
                  ("size", JInt (Z.of_nat (length (f_content stat_info))));
                  ("modified", JStr (f_mtime stat_info));
                  ("hash", JStr h);
                  ("spaceName_injected", JBool true);
                  ("status", JStr "processed")])) st1); [reflexivity|].
  rewrite (bind_inr _ _ _ _ _ (stat_run p st1 file Hf1)).
  rewrite (bind_inr _ _ _ _ _ Hh). unfold ret. subst st1.
  by rewrite set_log_app.
Qed.

(** X12. The body of the loop of [_synchronize_objectives], for an
    objectives file that is a JSON object without [spaceName]: it writes
    the file back once, with [spaceName] set to the name of the space
    directory, and returns the completed objectives; run again on the
    result, it returns the same objectives and writes nothing. *)
Theorem X12_sync_one_injects_once (name : string) (p : Path) (st : State) (f : File)
    (content : pydict) :
  fault_read (faults env) (absolute env p) = None →
  fault_write (faults env) (absolute env p) = None →
  files st !! absolute env p = Some f →
  f_json f = Some (JDict content) →
  dict_has "spaceName" content = false →
  let injected := dict_set "spaceName" (JStr name) content in
  let text := Json.dumps_indent2_raw (JDict injected) in
  ∃ st1 e1 st2 e2,
    sync_one env name p st = (st1, inr (JDict injected, e1))
    ∧ (∃ f1, files st1 !! absolute env p = Some f1
             ∧ f_content f1 = encode_utf8 text
             ∧ f_json f1 = Some (JDict injected))
    ∧ trace st1 = trace st ++ [EvWrite p text (Some (JDict injected))]
    ∧ sync_one env name p st1 = (st2, inr (JDict injected, e2))
    ∧ files st2 = files st1
    ∧ trace st2 = trace st1.
Proof.
  intros Hr Hw Hf Hj Hno injected text.
  destruct (sync_one_absent name p st f content Hr Hw Hf Hj Hno) as (m1 & e1 & H1).
  fold injected text in H1.
  set (written := mkFile (encode_utf8 text) (compilation_date env) (Some (JDict injected)))
    in *.
  match type of H1 with _ = (?s, _) => set (st1 := s) in * end.
  assert (files st1 !! absolute env p = Some written) as Hf1
    by (subst st1; cbn [files set_files set_trace set_log]; apply lookup_insert_eq).
  destruct (sync_one_present name p st1 written injected Hr Hf1 eq_refl
              (dict_has_set _ _ _)) as (m2 & e2 & H2).
  exists st1, e1, (set_log (λ l, l ++ m2) st1), e2.
  split; [done|]. split; [by exists written|]. by repeat split.
Qed.






End Objectives.

Section Audit.

Variable env : Env.

Lemma WeeklyCompiler_inr name st st' u :
  WeeklyCompiler env name st = (st', inr u) →
  name = FRAMEWORK_SPACE
  ∧ audit_log st' = [JDict [("timestamp", JStr (compilation_date env));
                            ("action", JStr "access_validation");
                            ("space", JStr name);
                            ("result", JStr "granted");
                            ("hash", JStr (framework_hash env))]].
Proof.
  unfold WeeklyCompiler, validate_framework_access.
  unfold bind at 1. unfold modify at 1.
  destruct (load_checkpoint_run env (set_audit_log (λ _, []) st)) as (msg & loaded & Hl).
  rewrite (bind_inr _ _ _ _ _ Hl).
  destruct (bool_decide (name = FRAMEWORK_SPACE)) eqn:Hn; [|discriminate].
  apply bool_decide_eq_true in Hn. by intros [= <-].
Qed.

Lemma collecting_keeps_audit_log :
  steps (keeps audit_log)
    (init_database env ;;;
     logger INFO "Collecting HUMAN AI FRAMEWORK exclusive data..." ;;;
     let* data_sources := collect_sources env in validate_sources data_sources).
Proof. steps_descend; same_leaf. Qed.

(** X14. When the collection phase of [main] completes, the audit log
    holds two entries: the access validation, granted, for the framework
    space, then the operation [data_collection] with the number of
    entries of the data sources. *)
Theorem X14_audit_log_of_a_run (st st1 : State) (ds : pydict) :
  prepare env st = (st1, inr ds) →
  ∃ n validation collection,
    sum_files_len ds.*2 = inr n
    ∧ audit_log st1 = [JDict validation; JDict collection]
    ∧ dict_get "action" validation = Some (JStr "access_validation")
    ∧ dict_get "space" validation = Some (JStr FRAMEWORK_SPACE)
    ∧ dict_get "result" validation = Some (JStr "granted")
    ∧ dict_get "action" collection = Some (JStr "compilation_operation")
    ∧ dict_get "operation" collection = Some (JStr "data_collection")
    ∧ dict_get "files_processed" collection = Some (JInt (Z.of_nat n)).
Proof.
  unfold prepare. intros H.
  apply bind_inv in H as [(? & [] & _ & H) | (? & _ & ?)]; [|discriminate].
  apply bind_inv in H as [(sta & [] & Hw & H) | (? & _ & ?)]; [|discriminate].
  apply WeeklyCompiler_inr in Hw as [Hname Ha]. rewrite Hname in Ha.
  unfold collect_framework_data in H.
  assert (∀ k : pydict → M pydict,
            (init_database env ;;;
             logger INFO "Collecting HUMAN AI FRAMEWORK exclusive data..." ;;;
             let* data_sources :=
               (let* data_sources := collect_sources env in
                let* data_sources := validate_sources data_sources in k data_sources) in
             logger INFO "Creating weekly compilation package..." ;;; ret data_sources) sta
            = (let* data_sources :=
                 (init_database env ;;;
                  logger INFO "Collecting HUMAN AI FRAMEWORK exclusive data..." ;;;
                  let* data_sources := collect_sources env in
                  validate_sources data_sources) in
               let* data_sources := k data_sources in
               logger INFO "Creating weekly compilation package..." ;;; ret data_sources) sta)
    as Heq by (intros k; symmetry; same_runs).
  rewrite Heq in H. clear Heq.
  apply bind_inv in H as [(stb & ds0 & Hc & H) | (? & _ & ?)]; [|discriminate].
  apply collecting_keeps_audit_log in Hc. unfold keeps in Hc.
  destruct (sum_files_len ds0.*2) as [e|n] eqn:Hn; [discriminate|].
  unfold log_compilation_access in H.
  cbv [bind ret modify logger] in H. injection H as <- <-.
  exists n. eexists _, _. split; [done|]. cbn [audit_log set_log set_audit_log].
  rewrite Hc, Ha. split; [reflexivity|]. by repeat split.
Qed.

End Audit.


Section Row.

Variable env : Env.

Lemma copies_in_app t1 t2 : copies_in (t1 ++ t2) = (copies_in t1 + copies_in t2)%Z.
Proof. unfold copies_in. rewrite filter_app, length_app. lia. Qed.

Lemma copies_in_none t : Forall not_copy t → copies_in t = 0%Z.
Proof.
  unfold copies_in. induction 1 as [|ev t Hev _ IH]; [done|].
  rewrite filter_cons_False by (unfold not_copy in Hev; congruence). exact IH.
Qed.

Lemma compile_entry_count cdir sdir fi copied tf ts st st' copied' tf' ts' :
  compile_entry env cdir sdir fi (copied, tf, ts) st = (st', inr (copied', tf', ts')) →
  ∃ t, trace st' = trace st ++ t ∧ tf' = (tf + copies_in t)%Z.
Proof.
  unfold compile_entry. intros H.
  assert (∀ s : State, ∃ t, trace s = trace s ++ t ∧ tf = (tf + copies_in t)%Z) as Hsame.
  { intros s. exists []. rewrite app_nil_r. split; [done|]. unfold copies_in; simpl. lia. }
  destruct (py_in "error" fi) as [[|]|] eqn:Herr; [| |discriminate].
  { injection H as <- _ <- _. apply Hsame. }
  destruct fi as [| | | | | |d]; try discriminate.
  destruct (negb (status_ok _)) eqn:Hst.
  { apply bind_inv in H as [(? & [] & Hl & H) | (? & _ & ?)]; [|discriminate].
    injection Hl as <-. injection H as <- _ <- _. apply (Hsame st). }
  unfold get_item at 1 in H.
  destruct (dict_get "path" d) as [[| | | |path| |]|] eqn:Hpath; try discriminate.
  apply bind_inv in H as [(? & ? & Hr & H) | (? & Hr & ?)]; [|discriminate].
  injection Hr as <- <-.
  apply bind_inv in H as [(? & s & Hg & H) | (? & _ & ?)]; [|discriminate].
  injection Hg as <- <-.
  destruct (exists_ env st (path_of_str path) && dict_has "size" d) eqn:Hex.
  2:{ injection H as <- _ <- _. apply Hsame. }
  destruct (bool_decide _) eqn:Hres.
  { injection H as <- _ <- _. apply Hsame. }
  apply bind_inv in H as [(st1 & [] & Hc & H) | (? & _ & ?)]; [|discriminate].
  apply copy2_inr in Hc.
  destruct (relative_to _ cdir) as [rel|] eqn:Hrel; [|discriminate].
  apply bind_inv in H as [(? & ? & Hr & H) | (? & _ & ?)]; [|discriminate].
  injection Hr as <- <-.
  unfold get_item in H.
  destruct (dict_get "size" d) as [size|] eqn:Hsize; [|discriminate].
  apply bind_inv in H as [(? & ? & Hr & H) | (? & _ & ?)]; [|discriminate].
  injection Hr as <- <-.
  destruct (dict_get "hash" d) as [h|] eqn:Hhash; [|discriminate].
  apply bind_inv in H as [(? & ? & Hr & H) | (? & _ & ?)]; [|discriminate].
  injection Hr as <- <-.
  destruct (as_int size) as [e|n]; [discriminate|].
  apply bind_inv in H as [(? & ? & Hr & H) | (? & _ & ?)]; [|discriminate].
  injection Hr as <- <-. injection H as <- _ <- _.
  eexists [_]. split; [exact Hc|]. reflexivity.
Qed.

Lemma copy_loop_count cdir sdir entries copied tf ts st st' copied' tf' ts' :
  for_fold entries (copied, tf, ts) (compile_entry env cdir sdir) st
  = (st', inr (copied', tf', ts')) →
  ∃ t, trace st' = trace st ++ t ∧ tf' = (tf + copies_in t)%Z.
Proof.
  revert copied tf ts st. induction entries as [|fi entries IH]; intros copied tf ts st H.
  - injection H as <- _ <- _. exists []. rewrite app_nil_r. split; [done|].
    unfold copies_in; simpl. lia.
  - cbn [for_fold] in H.
    apply bind_inv in H as [(st1 & [[c1 f1] s1] & H1 & H) | (? & _ & ?)]; [|discriminate].
    apply compile_entry_count in H1 as (t1 & Ht1 & ->).
    apply IH in H as (t2 & Ht2 & ->).
    exists (t1 ++ t2). rewrite Ht2, Ht1, copies_in_app, <- app_assoc. split; [done | lia].
Qed.

Lemma compile_source_count cdir source sm tf ts st st' sm' tf' ts' :
  compile_source env cdir source (sm, tf, ts) st = (st', inr (sm', tf', ts')) →
  ∃ t, trace st' = trace st ++ t ∧ tf' = (tf + copies_in t)%Z.
Proof.
  unfold compile_source. destruct source as [name data]. intros H.
  assert (∃ t, trace st = trace st ++ t ∧ tf = (tf + copies_in t)%Z) as Hsame.
  { exists []. rewrite app_nil_r. split; [done|]. unfold copies_in; simpl. lia. }
  destruct data as [| | | | | |sd]; try (injection H as <- _ <- _; exact Hsame).
  destruct (dict_get "files" sd) as [fl|]; [|injection H as <- _ <- _; exact Hsame].
  apply bind_inv in H as [(st1 & [] & Hm & H) | (? & _ & ?)]; [|discriminate].
  apply mkdir_inr in Hm.
  apply bind_inv in H as [(? & l & Hr & H) | (? & _ & ?)]; [|discriminate].
  destruct (py_iter fl); [|discriminate]. injection Hr as <- <-.
  apply bind_inv in H as [(st2 & [[copied f1] s1] & Hl & H) | (? & _ & ?)]; [|discriminate].
  apply copy_loop_count in Hl as (t & Ht & ->).
  destruct (sum_sizes copied) as [e|total]; [discriminate|].
  apply bind_inv in H as [(? & ? & Hr & H) | (? & _ & ?)]; [|discriminate].
  injection Hr as <- <-. injection H as <- _ <- _.
  exists (EvMkdir (cdir // [name]) :: t). rewrite Ht, Hm, <- app_assoc.
  split; [done|]. unfold copies_in. by rewrite filter_cons_False.
Qed.

Lemma sources_loop_count cdir ds sm tf ts st st' sm' tf' ts' :
  for_fold ds (sm, tf, ts) (compile_source env cdir) st = (st', inr (sm', tf', ts')) →
  ∃ t, trace st' = trace st ++ t ∧ tf' = (tf + copies_in t)%Z.
Proof.
  revert sm tf ts st. induction ds as [|d ds IH]; intros sm tf ts st H.
  - injection H as <- _ <- _. exists []. rewrite app_nil_r. split; [done|].
    unfold copies_in; simpl. lia.
  - cbn [for_fold] in H.
    apply bind_inv in H as [(st1 & [[c1 f1] s1] & H1 & H) | (? & _ & ?)]; [|discriminate].
    apply compile_source_count in H1 as (t1 & Ht1 & ->).
    apply IH in H as (t2 & Ht2 & ->).
    exists (t1 ++ t2). rewrite Ht2, Ht1, copies_in_app, <- app_assoc. split; [done | lia].
Qed.

Ltac not_copy_leaf :=
  lazymatch goal with
  | |- steps (adds _) (modify (set_trace _)) =>
      apply steps_modify; intros ?; apply adds_emit; reflexivity
  | |- steps (adds _) (modify _) =>
      apply steps_modify; intros ?; apply adds_same; reflexivity
  end.

Lemma tail_keeps_db r :
  steps (keeps compilations)
        (save_audit_log env (bundle_dir env) ;;; _save_checkpoint env ;;; report_bundle r).
Proof. steps_descend; same_leaf. Qed.

Lemma tail_no_copy r :
  steps (adds not_copy)
        (save_audit_log env (bundle_dir env) ;;; _save_checkpoint env ;;; report_bundle r).
Proof. steps_descend; not_copy_leaf. Qed.

(** X15. When [create_compilation] returns, it returns the directory
    of the bundle of the week, and the row of the week in the table
    [compilations] agrees with the bundle: its date is the date of the run,
    its number of files is the number of copies made, its metadata is the
    compact serialisation of the manifest written to [manifest.json], and
    its checksum is the one computed for the bundle. *)
Theorem X15_bundle_row_matches_bundle (ds : pydict) (st st' : State) (dir : Path) :
  create_compilation env ds st = (st', inr dir) →
  dir = bundle_dir env
  ∧ ∃ row sm,
      compilations st' !! week_id env = Some row
      ∧ row_compilation_date row = compilation_date env
      ∧ row_files_processed row = copies_in (added st st')
      ∧ row_metadata row = Json.dumps (JDict (manifest_of env sm))
      ∧ manifest_written env sm ∈ added st st'
      ∧ EvChecksum (row_checksum row) ∈ added st st'.
Proof.
  intros H.
  assert (create_compilation env ds st
          = (let* b := (mkdir env [COMPILATION_DIR env] (bundle_dir env) ;;;
                        let* r := for_fold ds ([], 0%Z, 0%Z)
                                    (compile_source env (bundle_dir env)) in
                        let '(sm, tf, ts) := r in
                        write_text env (manifest_path env)
                          (Json.dumps_indent2 (JDict (manifest_of env sm)))
                          (Some (JDict (manifest_of env sm))) ;;;
                        let* s := get in
                        let* c := _calculate_compilation_checksum env (bundle_dir env)
                                    (walk env s (bundle_dir env)) in
                        _update_compilation_database env (week_id env) tf ts c
                                                     (manifest_of env sm) ;;;
                        ret (sm, tf, ts, c)) in
             save_audit_log env (bundle_dir env) ;;; _save_checkpoint env ;;;
             report_bundle (bundle_dir env, b.1.1.2, b.1.2)) st) as Heq.
  { unfold create_compilation, report_bundle, bundle_dir, manifest_path. symmetry.
    same_runs. }
  rewrite Heq in H. clear Heq.
  apply bind_inv in H as [(st1 & [[[sm tf] ts] c] & Hb & H) | (? & _ & ?)]; [|discriminate].
  pose proof (tail_keeps_db _ _ _ _ H) as Kdb.
  destruct (tail_no_copy _ _ _ _ H) as (t3 & Ht3 & Hn3).
  assert (dir = bundle_dir env) as ->.
  { apply bind_inv in H as [(? & [] & _ & H) | (? & _ & ?)]; [|discriminate].
    apply bind_inv in H as [(? & [] & _ & H) | (? & _ & ?)]; [|discriminate].
    by apply report_bundle_returns in H. }
  split; [done|].
  apply bind_inv in Hb as [(sta & [] & Ha & Hb) | (? & _ & ?)]; [|discriminate].
  apply mkdir_inr in Ha.
  apply bind_inv in Hb as [(stb & [[sm0 tf0] ts0] & Hl & Hb) | (? & _ & ?)]; [|discriminate].
  apply sources_loop_count in Hl as (tl & Htl & Htf).
  apply bind_inv in Hb as [(stc & [] & Hc & Hb) | (? & _ & ?)]; [|discriminate].
  apply write_text_inr in Hc.
  apply bind_inv in Hb as [(std & s & Hg & Hb) | (? & _ & ?)]; [|discriminate].
  injection Hg as <- <-.
  apply bind_inv in Hb as [(ste & c0 & He & Hb) | (? & _ & ?)]; [|discriminate].
  apply checksum_inr in He.
  apply bind_inv in Hb as [(stf & [] & Hf & Hb) | (? & _ & ?)]; [|discriminate].
  injection Hb as <- <- <- <- <-.
  pose proof (upsert_inr _ _ _ _ _ _ _ _ _ Hf) as Htf'.
  unfold _update_compilation_database, fault in Hf.
  destruct (fault_sql _ _); [discriminate|]. injection Hf as Hf.
  assert (added st st' = EvMkdir (bundle_dir env) :: tl
                         ++ [manifest_written env sm0; EvChecksum c0;
                             EvSql (SqlUpsert (week_id env))] ++ t3) as Hadded.
  { unfold added. rewrite Ht3, Htf', He, Hc. cbn [trace set_trace set_files].
    rewrite Htl, Ha. rewrite <- !app_assoc. rewrite drop_app_length.
    reflexivity. }
  eexists _, sm0. split.
  { unfold keeps in Kdb. rewrite Kdb, <- Hf.
    cbn [compilations set_compilations set_trace]. apply lookup_insert_eq. }
  cbn [row_compilation_date row_files_processed row_metadata row_checksum].
  split; [done|]. split.
  { rewrite Hadded, Htf.
    change (EvMkdir (bundle_dir env) :: tl ++ ?x) with ([EvMkdir (bundle_dir env)] ++ tl ++ x).
    rewrite !copies_in_app, (copies_in_none t3 Hn3). unfold copies_in; simpl. lia. }
  split; [done|]. rewrite Hadded.
  split; [right; rewrite !elem_of_app; right; left; left|].
  right. rewrite !elem_of_app. right. left. right. left.
Qed.

End Row.


#[global] Instance tracks_no_more_preorder : PreOrder tracks_no_more.
Proof.
  split; [intros st; unfold tracks_no_more; reflexivity|].
  intros st1 st2 st3 H1 H2. unfold tracks_no_more in *. by etrans.
Qed.

Section Tracked.

Variable env : Env.

Lemma main_body_tracks_no_more name : steps tracks_no_more (main_body env name).
Proof.
  steps_descend;
    lazymatch goal with
    | |- steps _ (modify (set_files_tracked _)) =>
        apply steps_modify; intros ?; apply sublist_filter
    | |- steps _ (modify _) =>
        apply steps_modify; intros ?; unfold tracks_no_more; simpl; reflexivity
    end.
Qed.

(** X16. No run adds a row to the table [files_tracked]: the rows it
    holds after [main] are rows it held before, in their order. *)
Theorem X16_files_tracked_never_grows (st : State) :
  files_tracked (main env st).1 `sublist_of` files_tracked st.
Proof.
  unfold main.
  destruct (main_body env (SPACE_NAME env) st) as [stb [e|u]] eqn:H;
    apply main_body_tracks_no_more in H.
  - destruct (is_permission_error e); apply H.
  - apply H.
Qed.

End Tracked.

Section Untouched.

Variable env : Env.
Hypothesis Habs : is_absolute (cwd env) = true.

Variable q : Path.
Hypothesis Houtside : is_under (absolute env (COMPILATION_DIR env)) q = false.
Hypothesis Hname :
  path_name q ∉ ["objectives.json"; "last-run-checkpoint.json"; "last-run-checkpoint.tmp";
                 "weekly-compilation.log"].

Lemma path_name_last p x : last p = Some x → x ≠ "/" → path_name p = x.
Proof. intros Hl Hx. unfold path_name. rewrite Hl. by rewrite bool_decide_false. Qed.

Lemma named_differently p x :
  x ∈ ["objectives.json"; "last-run-checkpoint.json"; "last-run-checkpoint.tmp";
       "weekly-compilation.log"] →
  absolute env (p ++ [x]) ≠ q.
Proof.
  intros Hx Heq. apply Hname. rewrite <- Heq.
  rewrite (path_name_last _ x); [done | apply last_absolute|].
  intros ->. repeat (apply elem_of_cons in Hx as [Hx|Hx]; [discriminate|]).
  by apply elem_of_nil in Hx.
Qed.

Lemma compilation_dir_abs :
  absolute env (COMPILATION_DIR env) = cwd env ++ ["human-ai-framework"].
Proof. by rewrite COMPILATION_DIR_eq, absolute_cwd_app. Qed.

Lemma inside_differs x l : absolute env (COMPILATION_DIR env ++ x :: l) ≠ q.
Proof.
  intros Heq. revert Houtside. rewrite compilation_dir_abs, <- Heq.
  rewrite COMPILATION_DIR_eq, <- app_assoc, absolute_cwd_app by done.
  unfold is_under. rewrite app_assoc.
  rewrite <- (app_nil_r (cwd env ++ ["human-ai-framework"])) at 2.
  by rewrite relative_to_app.
Qed.

Lemma relative_to_Some (p l r : Path) : relative_to p l = Some r → p = l ++ r.
Proof.
  revert p. induction l as [|y l IH]; intros p; [destruct p; by intros [= <-]|].
  destruct p as [|z p]; [discriminate|]. simpl.
  destruct (bool_decide (y = z)) eqn:Hyz; [|discriminate].
  apply bool_decide_eq_true in Hyz as ->. intros H. by rewrite (IH _ H).
Qed.

Lemma relative_to_deeper (p d l : Path) r :
  relative_to p (d ++ l) = Some r → relative_to p d = Some (l ++ r).
Proof.
  intros H. apply relative_to_Some in H as ->.
  rewrite <- app_assoc. rewrite <- (app_nil_r d) at 2. rewrite relative_to_app.
  by destruct (l ++ r).
Qed.

Lemma week_dir_outside week :
  is_under (absolute env (COMPILATION_DIR env // ["week-" +:+ week])) q = false.
Proof.
  rewrite path_div_single by (rewrite append_cons; discriminate).
  rewrite COMPILATION_DIR_eq, <- app_assoc, absolute_cwd_app by done.
  revert Houtside. rewrite compilation_dir_abs. unfold is_under.
  rewrite app_assoc.
  destruct (relative_to q ((cwd env ++ ["human-ai-framework"]) ++ _)) as [r|] eqn:Hr;
    [|done].
  apply relative_to_deeper in Hr. rewrite Hr.
  destruct r; [done|]. discriminate.
Qed.

Ltac untouched_leaf :=
  lazymatch goal with
  | |- steps _ (modify (set_files _)) =>
      apply steps_modify; intros ?; unfold keeps_file; cbn [files set_files]
  | |- steps _ (modify _) => apply steps_modify; intros ?; reflexivity
  end.

Lemma prepare_untouched : steps (keeps_file q) (prepare env).
Proof.
  steps_descend; untouched_leaf.
  apply lookup_insert_ne.
  rewrite path_div_single by done. apply named_differently. left.
Qed.

Lemma save_untouched : steps (keeps_file q) (_save_checkpoint env).
Proof.
  steps_descend; untouched_leaf.
  all: match goal with Hs : with_suffix _ _ = Some _ |- _ =>
         rewrite temp_file_eq in Hs; injection Hs as <- end.
  - apply lookup_insert_ne. apply named_differently. do 2 right. left.
  - rewrite lookup_insert_ne.
    + apply lookup_delete_ne. apply named_differently. do 2 right. left.
    + rewrite checkpoint_file_eq. apply named_differently. right. left.
Qed.

Lemma after_save_untouched ds r : steps (keeps_file q) (after_save env ds r).
Proof.
  steps_descend; untouched_leaf.
  apply lookup_filter_outside, week_dir_outside.
Qed.

Lemma build_bundle_untouched ds :
  Forall (λ name, name ≠ "/") ds.*1 → steps (keeps_file q) (build_bundle env ds).
Proof.
  intros Hnames.
  steps_descend; untouched_leaf.
  all: apply lookup_insert_ne.
  all: rewrite (path_div_single _ ("week-" +:+ _)) by (rewrite append_cons; discriminate).
  - match goal with Hin : (?s, _) ∈ ds |- _ =>
      assert (s ≠ "/") as Hs
        by (rewrite Forall_forall in Hnames; apply Hnames;
            apply list_elem_of_fmap; by eexists (_, _))
    end.
    rewrite (path_div_single _ s) by done.
    rewrite path_div_single by apply path_name_not_root.
    rewrite <- !app_assoc. apply inside_differs.
  - rewrite path_div_single by done.
    rewrite <- !app_assoc. apply inside_differs.
  - rewrite path_div_single by (rewrite append_cons; discriminate).
    rewrite <- !app_assoc. apply inside_differs.
Qed.

Lemma main_body_untouched : steps (keeps_file q) (main_body env (SPACE_NAME env)).
Proof.
  intros st stb r. rewrite main_body_stages. intros H.
  apply bind_inv in H as [(st1 & ds & Hp & H) | (e & Hp & ->)];
    [|exact (prepare_untouched _ _ _ Hp)].
  pose proof (prepare_names _ _ _ _ Hp) as Hnames.
  etrans; [exact (prepare_untouched _ _ _ Hp)|].
  apply bind_inv in H as [(st2 & b & Hb & H) | (e & Hb & ->)];
    [|exact (build_bundle_untouched _ Hnames _ _ _ Hb)].
  etrans; [exact (build_bundle_untouched _ Hnames _ _ _ Hb)|].
  apply bind_inv in H as [(st3 & [] & Hs & H) | (e & Hs & ->)];
    [|exact (save_untouched _ _ _ Hs)].
  etrans; [exact (save_untouched _ _ _ Hs)|].
  exact (after_save_untouched _ _ _ _ _ H).
Qed.

End Untouched.

(** X17. [main] writes, replaces and removes files only inside the
    compilation directory, or under the names [objectives.json],
    [last-run-checkpoint.json] and [last-run-checkpoint.tmp], or, through
    the logging handler, [weekly-compilation.log]: any other file is after
    the run as it was before, whatever the run did and however it ended. *)
Theorem X17_run_leaves_other_files_alone (env : Env) (st : State) (q : Path) :
  is_absolute (cwd env) = true →
  is_under (absolute env (COMPILATION_DIR env)) q = false →
  path_name q ∉ ["objectives.json"; "last-run-checkpoint.json"; "last-run-checkpoint.tmp";
                 "weekly-compilation.log"] →
  files (main env st).1 !! q = files st !! q.
Proof.
  intros Habs Hout Hname. unfold main.
  destruct (main_body env (SPACE_NAME env) st) as [stb [e|u]] eqn:H;
    apply (main_body_untouched env Habs q Hout Hname) in H.
  - by destruct (is_permission_error e).
  - done.
Qed.


#[global] Instance checkpoint_grows_preorder env : PreOrder (checkpoint_grows env).
Proof.
  split; [by intros st|].
  intros st1 st2 st3 [H1 G1] [H2 G2]. split; [tauto|].
  intros p Hp. by apply G2, G1.
Qed.

Section Collectors.

Variable env : Env.

Lemma for_fold_inv {A S} (I : S → State → Prop) (l : list A) (body : A → S → M S) :
  (∀ x acc st st' acc', x ∈ l → I acc st → body x acc st = (st', inr acc') → I acc' st') →
  ∀ acc st st' r, I acc st → for_fold l acc body st = (st', inr r) → I r st'.
Proof.
  induction l as [|x l IH]; intros Hb acc st st' r HI H; cbn [for_fold] in H.
  - by injection H as <- <-.
  - apply bind_inv in H as [(st1 & acc1 & H1 & H) | (? & _ & ?)]; [|discriminate].
    apply (IH (λ y a s s' a' Hy, Hb y a s s' a' ltac:(by right)) acc1 st1);
      [|done].
    apply (Hb x acc st); [left | done | done].
Qed.

Lemma same_checkpoint_grows st st' :
  new_checkpoint st' = new_checkpoint st → checkpoint_grows env st st'.
Proof.
  intros Heq. unfold checkpoint_grows, has_files, in_checkpoint, checkpoint_entry.
  by rewrite Heq.
Qed.

(** What a completed call of the gate did to the in-progress checkpoint. *)
Lemma gate_result p st st' go :
  has_files st →
  _should_process_file env p st = (st', inr go) →
  checkpoint_grows env st st' ∧ (go = true → in_checkpoint env st' p).
Proof.
  intros [fs Hfs] H. unfold _should_process_file in H.
  destruct (checksum_run env p st) as [msgs Hc].
  rewrite (bind_inr _ _ _ _ _ Hc) in H. unfold bind at 1, get in H.
  destruct (previous_checksum_of _ _) as [e|prev]; [discriminate|].
  destruct (eq_str prev _).
  { injection H as <- <-. split; [by apply same_checkpoint_grows | done]. }
  cbn [new_checkpoint set_log] in H. rewrite Hfs in H.
  apply bind_inv in H as [(st1 & [] & Hm & H) | (? & _ & ?)]; [|discriminate].
  injection Hm as <-.
  assert (new_checkpoint st' =
          dict_set "files"
            (JDict (dict_set (path_str (absolute env p))
                      (JStr match readable env st p with
                            | Some f => Sha256.hexdigest (f_content f)
                            | None => "checksum_failed"
                            end) fs)) (new_checkpoint st)) as Hnew.
  { destruct (default false _);
      apply bind_inv in H as [(? & [] & Hl & H) | (? & _ & ?)]; try discriminate;
      injection Hl as <-; by injection H as <- _. }
  assert (go = true) as -> by
    (destruct (default false _);
     apply bind_inv in H as [(? & [] & Hl & H) | (? & _ & ?)]; try discriminate;
     by injection H as _ <-).
  assert (∀ k, checkpoint_entry st' k
               = if decide (path_str (absolute env p) = k)
                 then Some (JStr match readable env st p with
                                 | Some f => Sha256.hexdigest (f_content f)
                                 | None => "checksum_failed"
                                 end)
                 else checkpoint_entry st k) as Hentry.
  { intros k. unfold checkpoint_entry. rewrite Hnew, dict_get_set_eq, Hfs.
    destruct (decide _) as [<-|Hne]; [apply dict_get_set_eq | by apply dict_get_set_ne]. }
  split; [split|].
  - intros _. exists (dict_set (path_str (absolute env p))
                        (JStr match readable env st p with
                              | Some f => Sha256.hexdigest (f_content f)
                              | None => "checksum_failed"
                              end) fs).
    rewrite Hnew. apply dict_get_set_eq.
  - intros p' [c Hc']. unfold in_checkpoint. rewrite Hentry.
    destruct (decide _); eauto.
  - intros _. unfold in_checkpoint. rewrite Hentry, decide_True by done. eauto.
Qed.

Lemma file_hash_keeps p : steps keeps_new_checkpoint (_calculate_file_hash env p).
Proof. steps_descend; same_leaf. Qed.

Lemma stat_same p st st' f : stat env p st = (st', inr f) → st' = st.
Proof.
  unfold stat, bind, get. destruct (files st !! _); [|discriminate]. by intros [= <- _].
Qed.

Lemma dict_get_app_fresh k (d d' : pydict) :
  dict_has k d = false → dict_get k (d ++ d') = dict_get k d'.
Proof.
  unfold dict_has. induction d as [|[k' v] d IH]; [done|]. cbn [dict_get app].
  destruct (decide (k = k')); [discriminate | exact IH].
Qed.

Lemma file_entry_fields shown f h extra :
  dict_has "status" extra = false → dict_has "error" extra = false →
  ∃ fi, file_entry shown f h extra = JDict fi
        ∧ dict_get "path" fi = Some (JStr shown)
        ∧ dict_get "status" fi = Some (JStr "new_or_changed")
        ∧ dict_has "error" fi = false.
Proof.
  intros Hs He. eexists. split; [reflexivity|]. split; [reflexivity|].
  split.
  - rewrite (dict_get_app_fresh "status" [_; _; _; _]) by reflexivity.
    by rewrite dict_get_app_fresh.
  - unfold dict_has.
    rewrite (dict_get_app_fresh "error" [_; _; _; _]) by reflexivity.
    by rewrite dict_get_app_fresh.
Qed.

Lemma gated_entry_grows st st' e :
  checkpoint_grows env st st' → gated_entry env st e → gated_entry env st' e.
Proof.
  intros [_ G] (fi & p & shown & ? & ? & ? & ? & ? & Hin).
  exists fi, p, shown. repeat split; try done. by apply G.
Qed.

Lemma gate_then_entry_collected p (shown : M string) extra entries skipped st st' entries' skipped' :
  (∀ s s' r, shown s = (s', inr r) →
             s' = s ∧ (r = path_str p
                       ∨ ∃ rel, relative_to p (cwd env) = Some rel ∧ r = path_str rel)) →
  dict_has "status" extra = false → dict_has "error" extra = false →
  collected env entries st →
  gate_then_entry env p shown extra (entries, skipped) st = (st', inr (entries', skipped')) →
  collected env entries' st'.
Proof.
  intros Hshown Hs He [Hhf HF] H. unfold gate_then_entry in H.
  apply bind_inv in H as [(st1 & go & Hg & H) | (? & _ & ?)]; [|discriminate].
  apply gate_result in Hg as [[Hhf1 G] Hgo]; [|done].
  assert (Forall (gated_entry env st1) entries) as HF1
    by (eapply Forall_impl; [exact HF | intros e; by apply gated_entry_grows]).
  destruct go.
  2:{ injection H as <- <- _. split; [by apply Hhf1 | done]. }
  apply bind_inv in H as [(st2 & f & Hst & H) | (? & _ & ?)]; [|discriminate].
  apply stat_same in Hst as ->.
  apply bind_inv in H as [(st3 & r & Hsh & H) | (? & _ & ?)]; [|discriminate].
  apply Hshown in Hsh as [-> Hr].
  apply bind_inv in H as [(st4 & h & Hh & H) | (? & _ & ?)]; [|discriminate].
  apply file_hash_keeps, (same_checkpoint_grows st1 st4) in Hh.
  injection H as <- <- _.
  split; [by apply Hh, Hhf1|].
  apply Forall_app. split.
  - eapply Forall_impl; [exact HF1 | intros e; by apply gated_entry_grows].
  - constructor; [|constructor].
    destruct (file_entry_fields r f h extra Hs He) as (fi & -> & Hp & Hstat & Herr).
    exists fi, p, r. repeat split; try done. by apply Hh, Hgo.
Qed.


Lemma collected_result entries st (d : pydict) :
  collected env entries st → dict_get "files" d = Some (JList entries) →
  has_files st ∧ ∃ d' l, JDict d = JDict d' ∧ dict_get "files" d' = Some (JList l)
                         ∧ Forall (gated_entry env st) l.
Proof. intros [Hhf HF] Hd. split; [done|]. by exists d, entries. Qed.

Lemma copilot_logs_collected st st' v :
  has_files st → _collect_copilot_logs env st = (st', inr v) →
  has_files st' ∧ ∃ d l, v = JDict d ∧ dict_get "files" d = Some (JList l)
                         ∧ Forall (gated_entry env st') l.
Proof.
  intros Hhf H. unfold _collect_copilot_logs in H.
  apply bind_inv in H as [(? & s & Hg & H) | (? & _ & ?)]; [|discriminate].
  injection Hg as <- <-.
  destruct (negb _).
  { injection H as <- <-. split; [done|]. by eexists _, []. }
  apply bind_inv in H as [(st1 & [[lf ts] sk] & Hl & H) | (? & _ & ?)]; [|discriminate].
  injection H as <- <-.
  apply (collected_result lf); [|reflexivity].
  revert Hl.
  apply (for_fold_inv (λ acc : list json * Z * Z, collected env acc.1.1)); [|by split].
  intros p [[lf0 ts0] sk0] s s' [[lf1 ts1] sk1] _ [Hhf0 HF0] Hb. cbn [fst] in *.
  apply bind_inv in Hb as [(s1 & f & Hst & Hb) | (? & _ & ?)]; [|discriminate].
  apply stat_same in Hst as ->.
  destruct (modified_since_week_ago env p); [|injection Hb as <- <- _ _; by split].
  destruct (_validate_log_framework_content env p); [|injection Hb as <- <- _ _; by split].
  apply bind_inv in Hb as [(s2 & go & Hg & Hb) | (? & _ & ?)]; [|discriminate].
  apply gate_result in Hg as [[Hhf1 G] Hgo]; [|done].
  assert (Forall (gated_entry env s2) lf0) as HF1
    by (eapply Forall_impl; [exact HF0 | intros e; by apply gated_entry_grows]).
  destruct go; [|injection Hb as <- <- _ _; split; [by apply Hhf1 | done]].
  apply bind_inv in Hb as [(s3 & h & Hh & Hb) | (? & _ & ?)]; [|discriminate].
  apply file_hash_keeps, (same_checkpoint_grows s2 s3) in Hh.
  injection Hb as <- <- _ _.
  split; [by apply Hh, Hhf1|].
  apply Forall_app. split.
  - eapply Forall_impl; [exact HF1 | intros e; by apply gated_entry_grows].
  - constructor; [|constructor].
    destruct (file_entry_fields (path_str p) f h [] eq_refl eq_refl)
      as (fi & -> & Hp & Hstat & Herr).
    exists fi, p, (path_str p). repeat split; try done; [by left | by apply Hh, Hgo].
Qed.

Lemma shown_as_globbed (p : Path) s s' r :
  ret (path_str p) s = (s', inr r) →
  s' = s ∧ (r = path_str p ∨ ∃ rel, relative_to p (cwd env) = Some rel ∧ r = path_str rel).
Proof. intros [= <- <-]. split; [done | by left]. Qed.

Lemma shown_relative (p : Path) s s' r :
  match relative_to p (cwd env) with
  | Some rel => ret (path_str rel)
  | None => raise (ValueError "is not in the subpath of the working directory")
  end s = (s', inr r) →
  s' = s ∧ (r = path_str p ∨ ∃ rel, relative_to p (cwd env) = Some rel ∧ r = path_str rel).
Proof.
  destruct (relative_to p (cwd env)) as [rel|]; [|discriminate].
  intros [= <- <-]. split; [done|]. right. by exists rel.
Qed.

Lemma conversation_data_collected st st' v :
  has_files st → _collect_conversation_data env st = (st', inr v) →
  has_files st' ∧ ∃ d l, v = JDict d ∧ dict_get "files" d = Some (JList l)
                         ∧ Forall (gated_entry env st') l.
Proof.
  intros Hhf H. unfold _collect_conversation_data in H.
  apply bind_inv in H as [(st1 & [lf sk] & Hl & H) | (? & _ & ?)]; [|discriminate].
  injection H as <- <-.
  apply (collected_result lf); [|reflexivity].
  revert Hl.
  apply (for_fold_inv (λ acc : list json * Z, collected env acc.1)); [|by split].
  intros pattern acc s s' acc' _ HI.
  apply (for_fold_inv (λ acc : list json * Z, collected env acc.1)); [|done].
  intros p [lf0 sk0] s0 s1 [lf1 sk1] _ HI0 Hb. cbn [fst] in *.
  destruct (_validate_file_framework_content env p); [|by injection Hb as <- <- _].
  revert Hb. by apply gate_then_entry_collected; [apply shown_as_globbed|..].
Qed.

Lemma framework_configs_collected st st' v :
  has_files st → _collect_framework_configs env st = (st', inr v) →
  has_files st' ∧ ∃ d l, v = JDict d ∧ dict_get "files" d = Some (JList l)
                         ∧ Forall (gated_entry env st') l.
Proof.
  intros Hhf H. unfold _collect_framework_configs in H.
  apply bind_inv in H as [(st1 & [lf sk] & Hl & H) | (? & _ & ?)]; [|discriminate].
  injection H as <- <-.
  apply (collected_result lf); [|reflexivity].
  revert Hl.
  apply (for_fold_inv (λ acc : list json * Z, collected env acc.1)); [|by split].
  intros pattern acc s s' acc' _ HI.
  apply (for_fold_inv (λ acc : list json * Z, collected env acc.1)); [|done].
  intros p [lf0 sk0] s0 s1 [lf1 sk1] _ HI0 Hb. cbn [fst] in *.
  apply bind_inv in Hb as [(? & s2 & Hg & Hb) | (? & _ & ?)]; [|discriminate].
  injection Hg as <- <-.
  destruct (exists_ env s0 p); [|by injection Hb as <- <- _].
  revert Hb. by apply gate_then_entry_collected; [apply shown_as_globbed|..].
Qed.

Lemma exclusive_content_collected st st' v :
  has_files st → _collect_exclusive_content env st = (st', inr v) →
  has_files st' ∧ ∃ d l, v = JDict d ∧ dict_get "files" d = Some (JList l)
                         ∧ Forall (gated_entry env st') l.
Proof.
  intros Hhf H. unfold _collect_exclusive_content in H.
  apply bind_inv in H as [(st1 & [lf sk] & Hl & H) | (? & _ & ?)]; [|discriminate].
  injection H as <- <-.
  apply (collected_result lf); [|reflexivity].
  revert Hl.
  apply (for_fold_inv (λ acc : list json * Z, collected env acc.1)); [|by split].
  intros dir_name acc s s' acc' _ HI Hd.
  apply bind_inv in Hd as [(? & s2 & Hg & Hd) | (? & _ & ?)]; [|discriminate].
  injection Hg as <- <-.
  destruct (exists_ env s _); [|by injection Hd as <- <-].
  revert Hd.
  apply (for_fold_inv (λ acc : list json * Z, collected env acc.1)); [|done].
  intros p [lf0 sk0] s0 s1 [lf1 sk1] _ HI0 Hb. cbn [fst] in *.
  apply bind_inv in Hb as [(? & s3 & Hg & Hb) | (? & _ & ?)]; [|discriminate].
  injection Hg as <- <-.
  destruct (is_file env s0 p); [|by injection Hb as <- <- _].
  revert Hb. by apply gate_then_entry_collected; [apply shown_relative|..].
Qed.

(** X18. The four collectors that go through the gate (logs,
    conversation data, configurations, exclusive content): when one
    returns, every entry of its list of files is a dictionary with the
    status [new_or_changed], no [error] key, and the path of a file whose
    checksum the in-progress checkpoint holds under its absolute path. *)
Theorem X18_gated_collectors_record_their_entries (collector : M json) (st st' : State)
    (v : json) :
  collector ∈ [_collect_copilot_logs env; _collect_conversation_data env;
               _collect_framework_configs env; _collect_exclusive_content env] →
  has_files st →
  collector st = (st', inr v) →
  has_files st'
  ∧ ∃ d l, v = JDict d ∧ dict_get "files" d = Some (JList l)
           ∧ Forall (gated_entry env st') l.
Proof.
  intros Hc Hhf H.
  repeat (apply elem_of_cons in Hc as [->|Hc];
          [eauto using copilot_logs_collected, conversation_data_collected,
             framework_configs_collected, exclusive_content_collected|]).
  by apply elem_of_nil in Hc.
Qed.

End Collectors.


#[global] Instance records_changes_preorder : PreOrder records_changes.
Proof.
  split; [by intros st|].
  intros st1 st2 st3 [E1 H1] [E2 H2]. split; [congruence | tauto].
Qed.

Section Changed.

Variable env : Env.

Lemma records_changes_same st st' :
  checkpoint st' = checkpoint st → new_checkpoint st' = new_checkpoint st →
  records_changes st st'.
Proof.
  intros Hc Hn. split; [done|]. unfold only_changed, checkpoint_entry.
  by rewrite Hc, Hn.
Qed.

Lemma gate_records_changes p : steps records_changes (_should_process_file env p).
Proof.
  intros st st' r H. unfold _should_process_file in H.
  destruct (checksum_run env p st) as [msgs Hc].
  rewrite (bind_inr _ _ _ _ _ Hc) in H. unfold bind at 1, get in H.
  unfold previous_checksum_of in H. cbn [checkpoint set_log] in H.
  destruct (get_files (checkpoint st)) as [[| | | | | |old]|] eqn:Hold;
    try (injection H as <- _; by apply records_changes_same).
  destruct (eq_str _ _) eqn:Heq.
  { injection H as <- _. by apply records_changes_same. }
  cbn [new_checkpoint set_log] in H.
  destruct (dict_get "files" (new_checkpoint st)) as [[| | | | | |fs]|] eqn:Hfs;
    try (injection H as <- _; by apply records_changes_same).
  apply bind_inv in H as [(st1 & [] & Hm & H) | (? & Hm & ?)]; [|discriminate].
  injection Hm as <-.
  assert (checkpoint st' = checkpoint st
          ∧ new_checkpoint st' =
            dict_set "files"
              (JDict (dict_set (path_str (absolute env p))
                        (JStr match readable env st p with
                              | Some f => Sha256.hexdigest (f_content f)
                              | None => "checksum_failed"
                              end) fs)) (new_checkpoint st)) as [Hck Hnew].
  { destruct (default false _);
      apply bind_inv in H as [(? & [] & Hl & H) | (? & Hl & ?)]; try discriminate;
      injection Hl as <-; by injection H as <- _. }
  split; [done|]. intros J key c old' Hentry Hold'.
  rewrite Hck, Hold in Hold'. injection Hold' as <-.
  unfold checkpoint_entry in Hentry. rewrite Hnew, dict_get_set_eq in Hentry.
  destruct (decide (path_str (absolute env p) = key)) as [<-|Hne].
  - rewrite dict_get_set_eq in Hentry. injection Hentry as <-.
    intros Hx. apply eq_str_true in Hx. congruence.
  - rewrite dict_get_set_ne in Hentry by done.
    apply (J key c old); [|done]. unfold checkpoint_entry. by rewrite Hfs.
Qed.

Ltac changes_descend :=
  repeat first
    [ simple apply gate_records_changes
    | steps_step
    | lazymatch goal with
      | |- steps _ (modify _) => fail
      | |- steps _ ?c => let h := head_of c in unfold h
      end ].

Lemma collecting_records_changes :
  steps records_changes
    (init_database env ;;;
     logger INFO "Collecting HUMAN AI FRAMEWORK exclusive data..." ;;;
     let* data_sources := collect_framework_data env in
     logger INFO "Creating weekly compilation package..." ;;;
     ret data_sources).
Proof.
  changes_descend;
    (apply steps_modify; intros ?; by apply records_changes_same).
Qed.

Lemma WeeklyCompiler_fresh name st st' r :
  WeeklyCompiler env name st = (st', r) →
  new_checkpoint st' = [("files", JDict []);
                        ("timestamp", JStr (compilation_date env));
                        ("week_id", JStr (week_id env))]
  ∧ ∃ s s', files s = files st ∧ _load_checkpoint env s = (s', inr (checkpoint st')).
Proof.
  unfold WeeklyCompiler, validate_framework_access.
  unfold bind at 1. unfold modify at 1.
  destruct (load_checkpoint_run env (set_audit_log (λ _, []) st)) as (msg & loaded & Hl).
  rewrite (bind_inr _ _ _ _ _ Hl).
  destruct (bool_decide (name = FRAMEWORK_SPACE)); intros [= <- _];
    (split; [done|]; eexists _, _; split; [|exact Hl]; done).
Qed.

(** X19. Whatever the collection phase of [main] did, the loaded
    checkpoint is what [_load_checkpoint] returned for the disk of the
    start of the run, and every checksum the in-progress checkpoint holds
    differs from the one the loaded checkpoint holds for the same file: a
    file found unchanged is not carried over to the checkpoint that the
    run saves. *)
Theorem X19_new_checkpoint_holds_only_changed_files (st st1 : State) (r : exn + pydict) :
  prepare env st = (st1, r) →
  (∃ s s', files s = files st ∧ _load_checkpoint env s = (s', inr (checkpoint st1)))
  ∧ ∀ key c old,
      checkpoint_entry st1 key = Some c →
      get_files (checkpoint st1) = Some (JDict old) →
      dict_get key old ≠ Some c.
Proof.
  unfold prepare. intros H.
  apply bind_inv in H as [(sta & [] & Hl & H) | (? & Hl & ?)]; [|discriminate].
  injection Hl as <-.
  apply bind_inv in H as [(stb & [] & Hw & H) | (e & Hw & ->)].
  - apply WeeklyCompiler_fresh in Hw as [Hnew Hload].
    apply collecting_records_changes in H as [Hck J].
    split; [by rewrite Hck|]. apply J.
    intros key c old. unfold checkpoint_entry. by rewrite Hnew.
  - apply WeeklyCompiler_fresh in Hw as [Hnew Hload].
    split; [done|].
    intros key c old. unfold checkpoint_entry. by rewrite Hnew.
Qed.

End Changed.


Section AuditFile.

Variable env : Env.

Lemma bundle_keeps_audit_log ds :
  steps (keeps audit_log)
    (mkdir env [COMPILATION_DIR env] (bundle_dir env) ;;;
     let* r := for_fold ds ([], 0%Z, 0%Z) (compile_source env (bundle_dir env)) in
     let '(sm, tf, ts) := r in
     write_text env (manifest_path env)
       (Json.dumps_indent2 (JDict (manifest_of env sm)))
       (Some (JDict (manifest_of env sm))) ;;;
     let* s := get in
     let* c := _calculate_compilation_checksum env (bundle_dir env)
                 (walk env s (bundle_dir env)) in
     _update_compilation_database env (week_id env) tf ts c (manifest_of env sm) ;;;
     ret (tf, ts)).
Proof. steps_descend; same_leaf. Qed.

Lemma after_audit_adds r :
  steps (adds (λ _, True)) (_save_checkpoint env ;;; report_bundle r).
Proof.
  steps_descend;
    lazymatch goal with
    | |- steps (adds _) (modify (set_trace _)) =>
        apply steps_modify; intros ?; by apply adds_emit
    | |- steps (adds _) (modify _) =>
        apply steps_modify; intros ?; apply adds_same; reflexivity
    end.
Qed.

(** X20. When [create_compilation] returns, it has written the audit
    file of the bundle, [audit-<date>.json], as the indented serialisation
    of a document that names the framework space and the framework hash and
    whose [operations] are the entries the audit log held when
    [create_compilation] was called, in their order. *)
Theorem X20_audit_file_lists_the_operations (ds : pydict) (st st' : State) (dir : Path) :
  create_compilation env ds st = (st', inr dir) →
  ∃ doc,
    EvWrite (audit_file env) (Json.dumps_indent2 (JDict doc)) (Some (JDict doc))
      ∈ added st st'
    ∧ dict_get "operations" doc = Some (JList (audit_log st))
    ∧ dict_get "space_verified" doc = Some (JStr FRAMEWORK_SPACE)
    ∧ dict_get "framework_hash" doc = Some (JStr (framework_hash env)).
Proof.
  intros H.
  assert (create_compilation env ds st
          = (let* b := (mkdir env [COMPILATION_DIR env] (bundle_dir env) ;;;
                        let* r := for_fold ds ([], 0%Z, 0%Z)
                                    (compile_source env (bundle_dir env)) in
                        let '(sm, tf, ts) := r in
                        write_text env (manifest_path env)
                          (Json.dumps_indent2 (JDict (manifest_of env sm)))
                          (Some (JDict (manifest_of env sm))) ;;;
                        let* s := get in
                        let* c := _calculate_compilation_checksum env (bundle_dir env)
                                    (walk env s (bundle_dir env)) in
                        _update_compilation_database env (week_id env) tf ts c
                                                     (manifest_of env sm) ;;;
                        ret (tf, ts)) in
             save_audit_log env (bundle_dir env) ;;;
             _save_checkpoint env ;;;
             report_bundle (bundle_dir env, b.1, b.2)) st) as Heq.
  { unfold create_compilation, report_bundle, bundle_dir, manifest_path. symmetry.
    same_runs. }
  rewrite Heq in H. clear Heq.
  apply bind_inv in H as [(st1 & [tf ts] & Hb & H) | (? & _ & ?)]; [|discriminate].
  pose proof (bundle_keeps_audit_log _ _ _ _ Hb) as Ka. unfold keeps in Ka.
  assert (∃ t1, trace st1 = trace st ++ t1) as [t1 Ht1].
  { eapply (adds_trace (λ _, True)) in Hb as (t1 & Ht1 & _); [by exists t1|].
    steps_descend;
      lazymatch goal with
      | |- steps (adds _) (modify (set_trace _)) =>
          apply steps_modify; intros ?; by apply adds_emit
      | |- steps (adds _) (modify _) =>
          apply steps_modify; intros ?; apply adds_same; reflexivity
      end. }
  apply bind_inv in H as [(st2 & [] & Hs & H) | (? & _ & ?)]; [|discriminate].
  destruct (after_audit_adds _ _ _ _ H) as (t3 & Ht3 & _).
  unfold save_audit_log in Hs.
  apply bind_inv in Hs as [(? & s & Hg & Hs) | (? & _ & ?)]; [|discriminate].
  injection Hg as <- <-.
  apply bind_inv in Hs as [(st3 & [] & Hw & Hs) | (? & _ & ?)]; [|discriminate].
  apply write_text_inr in Hw. injection Hs as <-.
  eexists. split.
  { unfold added. rewrite Ht3. cbn [trace set_log]. rewrite Hw.
    cbn [trace set_trace set_files].
    rewrite Ht1, <- !app_assoc, drop_app_length.
    rewrite !elem_of_app. right. left. unfold audit_file. left. }
  by rewrite Ka.
Qed.

End AuditFile.

(* ===================================================================== *)
(** ** Concrete runs *)
(* ===================================================================== *)

Lemma X2_should_process_file_gate_witness :
  ∃ st', _should_process_file Demo.env Demo.a_log (Demo.constructed Demo.env Demo.state)
         = (st', inr true).
Proof.
  destruct (X2_should_process_file_gate Demo.env Demo.a_log
              (Demo.constructed Demo.env Demo.state) [] []
              ltac:(vm_compute; reflexivity) ltac:(vm_compute; reflexivity))
    as (st' & go & Hrun & Hgo & _).
  exists st'. destruct go; [exact Hrun|].
  destruct Hgo as [Hgo _]. specialize (Hgo eq_refl). discriminate Hgo.
Defined.

Lemma X4_list_of_files_checkpoint_breaks_gate_witness :
  (∃ st1, _load_checkpoint Demo.env Cases.state_with_list_checkpoint
          = (st1, inr (JDict Cases.list_checkpoint)))
  ∧ ∃ st3, _should_process_file Demo.env Demo.a_log
             (set_checkpoint (JDict Cases.list_checkpoint) Demo.state)
           = (st3, inl (AttributeError "object has no attribute 'get'")).
Proof.
  destruct (X4_list_of_files_checkpoint_breaks_gate Demo.env
              Cases.state_with_list_checkpoint
              (mkFile (encode_utf8 (Json.dumps_indent2_raw (JDict Cases.list_checkpoint)))
                      "2025-10-12T10:00:00" (Some (JDict Cases.list_checkpoint)))
              Cases.list_checkpoint (JList []) 0
              ltac:(vm_compute; reflexivity) eq_refl eq_refl eq_refl
              ltac:(intros x; discriminate))
    as [Hload Hgate].
  split; [exact Hload|].
  destruct (Hgate Demo.a_log (set_checkpoint (JDict Cases.list_checkpoint) Demo.state)
              eq_refl) as (st3 & H3 & _).
  by exists st3.
Defined.

Lemma X5_save_checkpoint_outcomes_witness :
  ∃ st', _save_checkpoint Demo.env (Demo.constructed Demo.env Demo.state) = (st', inr tt)
         ∧ files st' !! (Demo.work ++ ["last-run-checkpoint.tmp"]) = None.
Proof.
  destruct (X5_save_checkpoint_outcomes Demo.env (Demo.constructed Demo.env Demo.state) []
              ltac:(vm_compute; reflexivity))
    as (st' & Hrun & _ & _ & Hout).
  exists st'. split; [exact Hrun|].
  exact (proj1 (proj2 Hout)).
Defined.

Lemma X6_checkpoint_round_trip_witness :
  ∃ st1 st2,
    _save_checkpoint Demo.env (Demo.constructed Demo.env Demo.state) = (st1, inr tt)
    ∧ _load_checkpoint Demo.env st1
      = (st2, inr (JDict (new_checkpoint (Demo.constructed Demo.env Demo.state)))).
Proof.
  destruct (X6_checkpoint_round_trip Demo.env (Demo.constructed Demo.env Demo.state) []
              ltac:(vm_compute; reflexivity) eq_refl eq_refl eq_refl)
    as (st1 & st2 & Hs & Hl & _).
  by exists st1, st2.
Defined.

Lemma X8_main_access_denied_witness :
  ∃ st', main Cases.outsider Demo.state = (st', 1%Z) ∧ trace st' = trace Demo.state.
Proof.
  destruct (X8_main_access_denied Cases.outsider Demo.state ltac:(discriminate))
    as (st' & msg & Hrun & Hout & _).
  exists st'. split; [exact Hrun|]. by injection Hout.
Defined.

Lemma X10_cleanup_removes_exactly_old_rows_witness :
  compilations (cleanup_old_compilations Demo.env Demo.state_with_old_bundle).1 !! "2025-W01"
  = None.
Proof.
  rewrite (X10_cleanup_removes_exactly_old_rows Demo.env Demo.state_with_old_bundle
             (cleanup_old_compilations Demo.env Demo.state_with_old_bundle).1
             ltac:(returns) "2025-W01").
  vm_compute; reflexivity.
Defined.

Lemma X11_failed_removal_stops_cleanup_witness :
  for_each ["2025-W01"] (remove_compilation (Demo.env_with Demo.a_log Demo.rmtree_fails))
           Demo.state_with_old_bundle
  = (Demo.state_with_old_bundle, inl (OSError "Directory not empty")).
Proof.
  exact (proj1 (X11_failed_removal_stops_cleanup
                  (Demo.env_with Demo.a_log Demo.rmtree_fails) [] [] "2025-W01"
                  Demo.state_with_old_bundle Demo.state_with_old_bundle
                  (OSError "Directory not empty")
                  eq_refl ltac:(vm_compute; reflexivity) eq_refl)).
Defined.

Lemma X12_sync_one_injects_once_witness :
  ∃ st1 e1 st2 e2,
    sync_one Demo.env "alpha" Demo.alpha_objectives Cases.state_with_bare_objectives
    = (st1, inr (JDict (dict_set "spaceName" (JStr "alpha") Cases.bare_objectives), e1))
    ∧ sync_one Demo.env "alpha" Demo.alpha_objectives st1
      = (st2, inr (JDict (dict_set "spaceName" (JStr "alpha") Cases.bare_objectives), e2))
    ∧ trace st2 = trace st1.
Proof.
  destruct (X12_sync_one_injects_once Demo.env "alpha" Demo.alpha_objectives
              Cases.state_with_bare_objectives Cases.bare_file Cases.bare_objectives
              eq_refl eq_refl ltac:(vm_compute; reflexivity) eq_refl eq_refl)
    as (st1 & e1 & st2 & e2 & H1 & _ & _ & H2 & _ & Ht).
  exists st1, e1, st2, e2. split; [exact H1|]. split; [exact H2 | exact Ht].
Defined.

Lemma X14_audit_log_of_a_run_witness :
  Cases.collected_run = (Cases.collected_run.1, inr Cases.sources)
  ∧ length (audit_log Cases.collected_run.1) = 2.
Proof.
  assert (Cases.collected_run = (Cases.collected_run.1, inr Cases.sources)) as H
    by returns_a_value.
  split; [exact H|].
  destruct (X14_audit_log_of_a_run Demo.env Demo.state _ _ H)
    as (n & validation & collection & _ & -> & _).
  reflexivity.
Defined.

Lemma X15_bundle_row_matches_bundle_witness :
  ∃ row, compilations (create_compilation Demo.env Cases.sources Cases.collected_run.1).1
           !! "2025-W42" = Some row
         ∧ row_compilation_date row = "2025-10-19T10:00:00".
Proof.
  destruct (X15_bundle_row_matches_bundle Demo.env Cases.sources Cases.collected_run.1
              (create_compilation Demo.env Cases.sources Cases.collected_run.1).1
              (Demo.bundle)
              ltac:(returns))
    as (_ & row & sm & Hrow & Hdate & _).
  exists row. split; [exact Hrow | exact Hdate].
Defined.

Lemma X17_run_leaves_other_files_alone_witness :
  files (main Demo.env Demo.state).1 !! Demo.a_log = files Demo.state !! Demo.a_log.
Proof.
  apply X17_run_leaves_other_files_alone; [reflexivity | vm_compute; reflexivity |].
  intros H. repeat (apply elem_of_cons in H as [H|H]; [discriminate H|]).
  by apply elem_of_nil in H.
Defined.

Lemma X18_gated_collectors_record_their_entries_witness :
  has_files (_collect_copilot_logs Demo.env (Demo.constructed Demo.env Demo.state)).1.
Proof.
  refine (proj1 (X18_gated_collectors_record_their_entries Demo.env
                   (_collect_copilot_logs Demo.env)
                   (Demo.constructed Demo.env Demo.state) _
                   (match (_collect_copilot_logs Demo.env
                             (Demo.constructed Demo.env Demo.state)).2 with
                    | inr v => v
                    | inl _ => JNull
                    end) _ _ _)).
  - left.
  - exists []. vm_compute; reflexivity.
  - returns_a_value.
Defined.

Lemma X19_new_checkpoint_holds_only_changed_files_witness :
  ∃ s s', files s = files Demo.state
          ∧ _load_checkpoint Demo.env s = (s', inr (checkpoint Cases.collected_run.1)).
Proof.
  exact (proj1 (X19_new_checkpoint_holds_only_changed_files Demo.env Demo.state
                  Cases.collected_run.1 Cases.collected_run.2
                  (surjective_pairing _))).
Defined.

Lemma X3_load_checkpoint_never_raises_witness :
  ∃ st', _load_checkpoint Demo.env Demo.state = (st', inr fresh_checkpoint).
Proof.
  destruct (X3_load_checkpoint_never_raises Demo.env Demo.state)
    as (lv & msg & loaded & Hrun & _ & Hmissing & _).
  rewrite (Hmissing ltac:(vm_compute; reflexivity)) in Hrun.
  eexists. exact Hrun.
Defined.

Lemma X20_audit_file_lists_the_operations_witness :
  ∃ doc,
    EvWrite (audit_file Demo.env) (Json.dumps_indent2 (JDict doc)) (Some (JDict doc))
      ∈ added Cases.collected_run.1
              (create_compilation Demo.env Cases.sources Cases.collected_run.1).1
    ∧ dict_get "operations" doc = Some (JList (audit_log Cases.collected_run.1)).
Proof.
  destruct (X20_audit_file_lists_the_operations Demo.env Cases.sources
              Cases.collected_run.1
              (create_compilation Demo.env Cases.sources Cases.collected_run.1).1
              Demo.bundle ltac:(returns))
    as (doc & Hin & Hops & _).
  exists doc. split; [exact Hin | exact Hops].
Defined.
